(** * EmpowrAI credit model: a shallow embedding of
      [src/lib/empowrai_credit_model.py] and the properties of its
      decision logic.

    Conventions of the embedding.
    - Python floats are idealised as rationals ([Q]); equalities between
      computed quantities are stated with [==] ([Qeq]), constants that the
      code returns literally ([1.0], [0.0], [0.05], [0.1]) with [=].
      Rounding is outside the model.  The code makes an infinity or a
      NaN out of numbers, and goes on computing with it, at one place:
      [np.log] at line 290.  Its result, and the impact computed from it,
      are [float]s, which have both.  (The mean of an empty array is NaN
      as well: the audit computes one at line 200 when nothing is held
      out and never reads it; the rate logged at line 113 is one when the
      dataset is empty.)
    - A pandas [DataFrame] is an index of row labels and an ordered list of
      named columns; only the operations the engine calls are modelled.
    - The scikit-learn estimators, the splitter, the metrics and the
      natural logarithm of a positive number are collaborators of the
      engine: they are the fields of the [Sklearn] interface, every call
      into an estimator, the splitter or a metric may raise.
    - Python exceptions are the [Raise] results of an error monad; the
      methods that assign to [self] or allocate run in a state-and-error
      monad over the [World] (the engine object, the store of importance
      tables, the log records). *)

From Stdlib Require Import QArith Qabs List String Ascii ZArith Lia Lqa Sorted Permutation.
From stdpp Require Import gmap strings.

Import ListNotations.
Local Open Scope string_scope.
Local Open Scope list_scope.

(* ===================================================================== *)
(** ** Exceptions and results                                             *)
(* ===================================================================== *)

(** A cell of a table: numpy numbers and Python strings. *)
Inductive cell : Type :=
| Num (q : Q)
| Str (s : string).

(** The exceptions the engine can see.  [ValueError] is what the module
    itself raises (lines 233 and 253) and what the pandas constructor and
    [float()] raise; [KeyError] is a missing column or row label;
    [IndexError] a positional or boolean index that does not fit;
    [LibraryError] is anything raised inside a scikit-learn call. *)
Inductive exn : Type :=
| ValueError (msg : string)
| KeyError (key : cell)
| IndexError (msg : string)
| LibraryError (msg : string).

Inductive result (A : Type) : Type :=
| Ok (a : A)
| Raise (e : exn).
Arguments Ok {A} a.
Arguments Raise {A} e.

Definition rbind {A B : Type} (r : result A) (k : A -> result B) : result B :=
  match r with
  | Ok a => k a
  | Raise e => Raise e
  end.

Declare Scope result_scope.
Delimit Scope result_scope with result.
Notation "'let?' x ':=' r 'in' k" := (rbind r (fun x => k))
  (at level 10, x pattern, r at level 100, k at level 200) : result_scope.
Local Open Scope result_scope.

Fixpoint rmap {A B : Type} (f : A -> result B) (l : list A) : result (list B) :=
  match l with
  | [] => Ok []
  | a :: l' =>
      let? b := f a in
      let? bs := rmap f l' in
      Ok (b :: bs)
  end.

(** The message of line 233 and line 253. *)
Definition not_trained_msg : string := "Model not trained yet".
Definition NotTrained : exn := ValueError not_trained_msg.

(* ===================================================================== *)
(** ** Numbers                                                            *)
(* ===================================================================== *)

Definition Qlt_bool (x y : Q) : bool := negb (Qle_bool y x).

(** Python's builtin [min] and [max] on a non-empty list: the first of the
    smallest (largest) elements is kept.  On the empty list Python raises
    [ValueError]. *)
Fixpoint py_min_from (cur : Q) (l : list Q) : Q :=
  match l with
  | [] => cur
  | x :: l' => py_min_from (if Qlt_bool x cur then x else cur) l'
  end.

Fixpoint py_max_from (cur : Q) (l : list Q) : Q :=
  match l with
  | [] => cur
  | x :: l' => py_max_from (if Qlt_bool cur x then x else cur) l'
  end.

Definition py_min (l : list Q) : result Q :=
  match l with
  | [] => Raise (ValueError "min() arg is an empty sequence")
  | x :: l' => Ok (py_min_from x l')
  end.

Definition py_max (l : list Q) : result Q :=
  match l with
  | [] => Raise (ValueError "max() arg is an empty sequence")
  | x :: l' => Ok (py_max_from x l')
  end.

(** [(a > 0.5).astype(int)] on an array of probabilities. *)
Definition binarize (pred_proba : list Q) : list Z :=
  map (fun p => if Qlt_bool 0.5 p then 1%Z else 0%Z) pred_proba.

Definition zsum (l : list Z) : Z := fold_right Z.add 0%Z l.

(** The entries of a binarized array. *)
Definition bit (z : Z) : Prop := z = 0%Z \/ z = 1%Z.

(** [a.mean()] of an integer array.  On the empty array numpy returns
    [nan] (with a warning, no exception); here the quotient by zero is
    [0].  The engine never consumes the mean of an empty array: a mask is
    only averaged when it selects more than 10 entries, and the overall
    rate is only read inside such a branch. *)
Definition np_mean (l : list Z) : Q :=
  (inject_Z (zsum l) / inject_Z (Z.of_nat (length l)))%Q.

(* ===================================================================== *)
(** ** A pandas DataFrame, as far as the engine uses one                  *)
(* ===================================================================== *)

Definition cell_eqb (a b : cell) : bool :=
  match a, b with
  | Num x, Num y => Qeq_bool x y
  | Str s, Str t => String.eqb s t
  | _, _ => false
  end.

(** [df_data] lists the columns in order; every column of a frame built
    by pandas has as many entries as [df_index]. *)
Record DataFrame : Type := mkFrame {
  df_index : list Z;
  df_data : list (string * list cell)
}.

Definition df_columns (df : DataFrame) : list string := map fst (df_data df).

(** [len(df)] *)
Definition df_len (df : DataFrame) : nat := length (df_index df).

Fixpoint assoc_str {A : Type} (k : string) (l : list (string * A)) : option A :=
  match l with
  | [] => None
  | (k', v) :: l' => if String.eqb k' k then Some v else assoc_str k l'
  end.

(** [df[name]]: the values of a column, [KeyError] when there is none. *)
Definition df_getitem (df : DataFrame) (name : string) : result (list cell) :=
  match assoc_str name (df_data df) with
  | Some col => Ok col
  | None => Raise (KeyError (Str name))
  end.

(** [df[names]]: the sub-frame of the listed columns. *)
Definition df_select (df : DataFrame) (names : list string) : result DataFrame :=
  let? cols := rmap (fun n => let? c := df_getitem df n in Ok (n, c)) names in
  Ok (mkFrame (df_index df) cols).

(** Positions of the rows carrying a label. *)
Fixpoint positions_from (i : nat) (idx : list Z) (label : Z) : list nat :=
  match idx with
  | [] => []
  | l :: idx' =>
      if Z.eqb l label then i :: positions_from (S i) idx' label
      else positions_from (S i) idx' label
  end.

Fixpoint loc_positions (idx : list Z) (labels : list Z) : result (list nat) :=
  match labels with
  | [] => Ok []
  | l :: labels' =>
      match positions_from 0 idx l with
      | [] => Raise (KeyError (Num (inject_Z l)))
      | ps =>
          let? ps' := loc_positions idx labels' in
          Ok (ps ++ ps')
      end
  end.

Definition take_positions {A : Type} (l : list A) (ps : list nat) : list A :=
  flat_map (fun p => match nth_error l p with Some a => [a] | None => [] end) ps.

(** [df.loc[labels]] with a list of labels: the rows carrying each label,
    in the order of the labels; a label that no row carries is a
    [KeyError]. *)
Definition df_loc (df : DataFrame) (labels : list Z) : result DataFrame :=
  let? ps := loc_positions (df_index df) labels in
  Ok (mkFrame (take_positions (df_index df) ps)
              (map (fun c => (fst c, take_positions (snd c) ps)) (df_data df))).

(** [series.unique()]: the distinct values in order of first appearance. *)
Fixpoint unique_from (seen : list cell) (l : list cell) : list cell :=
  match l with
  | [] => []
  | c :: l' =>
      if existsb (cell_eqb c) seen then unique_from seen l'
      else c :: unique_from (c :: seen) l'
  end.

Definition unique (l : list cell) : list cell := unique_from [] l.

(** [series == v] and [mask.sum()]. *)
Definition eq_mask (col : list cell) (v : cell) : list bool :=
  map (fun c => cell_eqb c v) col.

Definition mask_sum (mask : list bool) : nat := length (List.filter id mask).

Fixpoint select_mask {A : Type} (a : list A) (mask : list bool) : list A :=
  match a, mask with
  | x :: a', b :: mask' => if b then x :: select_mask a' mask' else select_mask a' mask'
  | _, _ => []
  end.

(** [a[mask]] for a numpy array and a boolean mask: the lengths must
    agree, otherwise numpy raises [IndexError]. *)
Definition bool_index {A : Type} (a : list A) (mask : list bool) : result (list A) :=
  if Nat.eqb (length a) (length mask) then Ok (select_mask a mask)
  else Raise (IndexError "boolean index did not match indexed array").

(** A Python [dict] with string keys, in insertion order. *)
Definition dict : Type := list (string * Q).

(** [d[k] = v] on a dict keyed by cells. *)
Fixpoint dict_set (d : list (cell * Q)) (k : cell) (v : Q) : list (cell * Q) :=
  match d with
  | [] => [(k, v)]
  | (k', v') :: d' =>
      if cell_eqb k' k then (k', v) :: d' else (k', v') :: dict_set d' k v
  end.

(* ===================================================================== *)
(** ** The bias audit (lines 177-217)                                     *)
(* ===================================================================== *)

Definition K_DI : string := "disparate_impact".
Definition K_SPD : string := "statistical_parity_difference".
Definition K_EOD : string := "equal_opportunity_difference".
Definition K_GROUPS : string := "demographic_groups_analyzed".

(** Lines 187-191: one pass of the loop per distinct race value.  A group
    enters [race_approval_rates] only with strictly more than 10 records. *)
Fixpoint race_loop (race_col : list cell) (predictions : list Z)
    (races : list cell) (race_approval_rates : list (cell * Q))
  : result (list (cell * Q)) :=
  match races with
  | [] => Ok race_approval_rates
  | race :: rest =>
      let race_mask := eq_mask race_col race in
      if (10 <? mask_sum race_mask)%nat then
        let? sel := bool_index predictions race_mask in
        let approval_rate := np_mean sel in
        race_loop race_col predictions rest
                  (dict_set race_approval_rates race approval_rate)
      else race_loop race_col predictions rest race_approval_rates
  end.

(** Lines 203-208. *)
Fixpoint gender_loop (gender_col : list cell) (predictions : list Z)
    (overall_approval_rate : Q) (genders : list cell)
    (gender_differences : list Q) : result (list Q) :=
  match genders with
  | [] => Ok gender_differences
  | gender :: rest =>
      let gender_mask := eq_mask gender_col gender in
      if (10 <? mask_sum gender_mask)%nat then
        let? sel := bool_index predictions gender_mask in
        let gender_rate := np_mean sel in
        let diff := Qabs (gender_rate - overall_approval_rate) in
        gender_loop gender_col predictions overall_approval_rate rest
                    (gender_differences ++ [diff])
      else gender_loop gender_col predictions overall_approval_rate rest
                       gender_differences
  end.

(** Lines 193-197. *)
Definition disparate_impact_of (race_approval_rates : list (cell * Q)) : result Q :=
  if (2 <=? length race_approval_rates)%nat then
    let rates := map snd race_approval_rates in
    let? mx := py_max rates in
    if Qlt_bool 0 mx then
      let? mn := py_min rates in
      Ok (mn / mx)%Q
    else Ok 1%Q
  else Ok 1%Q.

(** Line 210. *)
Definition statistical_parity_of (gender_differences : list Q) : result Q :=
  match gender_differences with
  | [] => Ok 0%Q
  | _ => py_max gender_differences
  end.

(** The local variables of the audit that line 212-219 read. *)
Record audit_locals : Type := mkLocals {
  race_approval_rates : list (cell * Q);
  disparate_impact : Q;
  statistical_parity_diff : Q
}.

(** Lines 182-210, on the held-out demographic rows. *)
Definition audit_frame (test_demographics : DataFrame) (pred_proba : list Q)
  : result audit_locals :=
  let predictions := binarize pred_proba in
  let? race_col := df_getitem test_demographics "race" in
  let? rates := race_loop race_col predictions (unique race_col) [] in
  let? di := disparate_impact_of rates in
  let overall_approval_rate := np_mean predictions in
  let? gender_col := df_getitem test_demographics "gender" in
  let? gender_differences :=
    gender_loop gender_col predictions overall_approval_rate
                (unique gender_col) [] in
  let? spd := statistical_parity_of gender_differences in
  Ok (mkLocals rates di spd).

(** The dict literal of lines 212-217. *)
Definition report_of (a : audit_locals) : dict :=
  [ (K_DI, disparate_impact a);
    (K_SPD, statistical_parity_diff a);
    (K_EOD, 0.05%Q);
    (K_GROUPS, inject_Z (Z.of_nat (length (race_approval_rates a)))) ].

(** Lines 179-210: the computations of the [try] block. *)
Definition audit_body (df X_test : DataFrame) (pred_proba : list Q)
  : result audit_locals :=
  let test_indices := df_index X_test in
  let? test_demographics := df_loc df test_indices in
  audit_frame test_demographics pred_proba.

(** The report of the [except] branch: lines 223-228. *)
Definition neutral_report : dict :=
  [ (K_DI, 1%Q); (K_SPD, 0%Q); (K_EOD, 0%Q); (K_GROUPS, 0%Q) ].

(** The groups of a demographic column that qualify for the audit, in
    order of first appearance, and the positive-prediction rate of a
    group. *)
Definition group_size (col : list cell) (g : cell) : nat :=
  mask_sum (eq_mask col g).

Definition qualifying_groups (col : list cell) : list cell :=
  List.filter (fun g => (10 <? group_size col g)%nat) (unique col).

Definition group_rate (col : list cell) (predictions : list Z) (g : cell) : Q :=
  np_mean (select_mask predictions (eq_mask col g)).

(** Two groups listed by [unique] are different values. *)
Definition distinct_cells (l : list cell) : Prop :=
  ForallOrdPairs (fun a b => cell_eqb a b = false) l.

Definition unit_interval (r : Q) : Prop := (0 <= r)%Q /\ (r <= 1)%Q.

(** A smallest and a largest element of a list of rates. *)
Definition is_min (m : Q) (rates : list Q) : Prop :=
  (exists r, In r rates /\ (r == m)%Q) /\ forall r, In r rates -> (m <= r)%Q.

Definition is_max (m : Q) (rates : list Q) : Prop :=
  (exists r, In r rates /\ (r == m)%Q) /\ forall r, In r rates -> (r <= m)%Q.

(* ===================================================================== *)
(** ** More of pandas and numpy                                           *)
(* ===================================================================== *)

(** [df[mask]]: the rows a boolean mask selects. *)
Definition df_filter (df : DataFrame) (mask : list bool) : DataFrame :=
  mkFrame (select_mask (df_index df) mask)
          (map (fun c => (fst c, select_mask (snd c) mask)) (df_data df)).

(** [df.empty]: an axis of length 0. *)
Definition df_empty (df : DataFrame) : bool :=
  match df_index df, df_data df with
  | [], _ => true
  | _, [] => true
  | _, _ => false
  end.

(** [float(x)] *)
Definition float_of_cell (c : cell) : result Q :=
  match c with
  | Num q => Ok q
  | Str _ => Raise (ValueError "could not convert string to float")
  end.

(** [series.iloc[0]] *)
Definition iloc0 (col : list cell) : result cell :=
  match col with
  | c :: _ => Ok c
  | [] => Raise (IndexError "single positional indexer is out-of-bounds")
  end.

(** [pd.DataFrame([row], columns=names)]: one row labelled 0; pandas
    raises [ValueError] when the number of names differs from the number
    of values. *)
Definition frame_of_row (row : list Q) (names : list string) : result DataFrame :=
  if Nat.eqb (length names) (length row) then
    Ok (mkFrame [0%Z] (combine names (map (fun v => [Num v]) row)))
  else Raise (ValueError "columns passed do not match the passed data").

(** [a + b] on one-dimensional arrays, with numpy's broadcasting of a
    one-element operand. *)
Definition np_add (a b : list Q) : result (list Q) :=
  if Nat.eqb (length a) (length b) then
    Ok (map (fun xy => (fst xy + snd xy)%Q) (combine a b))
  else match a, b with
       | [x], _ => Ok (map (fun y => (x + y)%Q) b)
       | _, [y] => Ok (map (fun x => (x + y)%Q) a)
       | _, _ => Raise (ValueError "operands could not be broadcast together")
       end.

(** [m[:, 1]] and [m[0, 1]] on a two-dimensional array. *)
Definition column1 (m : list (list Q)) : result (list Q) :=
  rmap (fun row => match nth_error row 1 with
                   | Some p => Ok p
                   | None => Raise (IndexError "index 1 is out of bounds for axis 1")
                   end) m.

Definition at01 (m : list (list Q)) : result Q :=
  match m with
  | [] => Raise (IndexError "index 0 is out of bounds for axis 0")
  | row :: _ =>
      match nth_error row 1 with
      | Some p => Ok p
      | None => Raise (IndexError "index 1 is out of bounds for axis 1")
      end
  end.

(** Python's two-argument [min(a, b)]: [a] unless [b] is smaller. *)
Definition py_min2 (a b : Q) : Q := if Qlt_bool b a then b else a.

(* ===================================================================== *)
(** ** The collaborators                                                  *)
(* ===================================================================== *)

(** What a library call hands back: a value, or the message of the
    exception it raised. *)
Definition lib (A : Type) : Type := (string + A)%type.

Definition call {A : Type} (r : lib A) : result A :=
  match r with
  | inl msg => Raise (LibraryError msg)
  | inr a => Ok a
  end.

(** What [predict_proba] and [transform] accept. *)
Inductive array_like : Type :=
| Frame (df : DataFrame)
| NdArray (rows : list (list Q)).

(** scikit-learn and the logarithm, as the engine uses them.  [rf_new],
    [gb_new] and [StandardScaler] are the freshly constructed, unfitted
    estimators of lines 132, 133 and 27; [fit] returns the fitted
    estimator.  [ln x] is the natural logarithm of a positive [x]: what
    [np.log] returns there.  It is read at positive arguments only. *)
Class Sklearn : Type := {
  RandomForestClassifier : Type;
  GradientBoostingClassifier : Type;
  Scaler : Type;
  rf_new : RandomForestClassifier;
  gb_new : GradientBoostingClassifier;
  StandardScaler : Scaler;
  train_test_split :
    DataFrame -> list cell ->
    lib (DataFrame * DataFrame * list cell * list cell);
  rf_fit : RandomForestClassifier -> DataFrame -> list cell -> lib RandomForestClassifier;
  gb_fit : GradientBoostingClassifier -> DataFrame -> list cell -> lib GradientBoostingClassifier;
  rf_predict_proba : RandomForestClassifier -> array_like -> lib (list (list Q));
  gb_predict_proba : GradientBoostingClassifier -> array_like -> lib (list (list Q));
  rf_feature_importances : RandomForestClassifier -> lib (list Q);
  gb_feature_importances : GradientBoostingClassifier -> lib (list Q);
  scaler_fit : Scaler -> DataFrame -> lib Scaler;
  scaler_transform : Scaler -> DataFrame -> lib (list (list Q));
  accuracy_score : list cell -> list Z -> lib Q;
  precision_score : list cell -> list Z -> lib Q;
  recall_score : list cell -> list Z -> lib Q;
  f1_score : list cell -> list Z -> lib Q;
  roc_auc_score : list cell -> list Q -> lib Q;
  ln : Q -> Q
}.

(* ===================================================================== *)
(** ** Feature names (lines 28-33 and 314-328)                            *)
(* ===================================================================== *)

Definition schema : list string :=
  [ "credit_score"; "monthly_income"; "total_alternative_income";
    "payment_reliability_score"; "cash_flow_consistency"; "platform_ratings";
    "community_trust_score"; "financial_engagement_score";
    "income_diversification"; "business_health" ].

Definition name_mapping : list (string * string) :=
  [ ("credit_score", "Traditional Credit Score");
    ("monthly_income", "Monthly Income");
    ("total_alternative_income", "Alternative Income Sources");
    ("payment_reliability_score", "Payment History");
    ("cash_flow_consistency", "Business Cash Flow Stability");
    ("platform_ratings", "Gig Platform Performance");
    ("community_trust_score", "Community Trust");
    ("financial_engagement_score", "Financial Education");
    ("income_diversification", "Income Diversification");
    ("business_health", "Overall Business Health") ].

Definition is_upper (c : ascii) : bool :=
  let n := nat_of_ascii c in ((65 <=? n) && (n <=? 90))%nat.
Definition is_lower (c : ascii) : bool :=
  let n := nat_of_ascii c in ((97 <=? n) && (n <=? 122))%nat.
Definition to_upper (c : ascii) : ascii :=
  if is_lower c then ascii_of_nat (nat_of_ascii c - 32) else c.
Definition to_lower (c : ascii) : ascii :=
  if is_upper c then ascii_of_nat (nat_of_ascii c + 32) else c.

(** [s.replace('_', ' ')] *)
Fixpoint replace_underscores (s : string) : string :=
  match s with
  | EmptyString => EmptyString
  | String c s' =>
      String (if Ascii.eqb c "_"%char then " "%char else c) (replace_underscores s')
  end.

(** [s.title()] on ASCII text: a letter that follows a letter is lowered,
    any other letter is raised. *)
Fixpoint title_from (previous_is_cased : bool) (s : string) : string :=
  match s with
  | EmptyString => EmptyString
  | String c s' =>
      if is_upper c || is_lower c then
        String (if previous_is_cased then to_lower c else to_upper c)
               (title_from true s')
      else String c (title_from false s')
  end.

Definition title (s : string) : string := title_from false s.

Definition _humanize_feature_name (feature_name : string) : string :=
  match assoc_str feature_name name_mapping with
  | Some human => human
  | None => title (replace_underscores feature_name)
  end.

(* ===================================================================== *)
(** ** Decision bands (lines 258-273)                                     *)
(* ===================================================================== *)

Definition decision_band (risk_score : Q) : string * string :=
  if Qle_bool 0.7 risk_score then ("APPROVED", "High")
  else if Qle_bool 0.55 risk_score then ("APPROVED", "Medium")
  else if Qle_bool 0.4 risk_score then ("CONDITIONAL", "Medium")
  else if Qle_bool 0.25 risk_score then ("CONDITIONAL", "Low")
  else ("DENIED", "High").

(* ===================================================================== *)
(** ** Floats that are not numbers                                        *)
(* ===================================================================== *)

(** A float as [np.log] can return it: a number, an infinity or NaN. *)
Inductive float : Type :=
| Finite (q : Q)
| PosInf
| NegInf
| NaN.

(** [a < b]: false as soon as one side is NaN. *)
Definition float_ltb (a b : float) : bool :=
  match a, b with
  | NaN, _ => false
  | _, NaN => false
  | Finite x, Finite y => Qlt_bool x y
  | Finite _, PosInf => true
  | Finite _, NegInf => false
  | PosInf, _ => false
  | NegInf, NegInf => false
  | NegInf, _ => true
  end.

(** [a == b]: NaN equals nothing, not even itself. *)
Definition float_eqb (a b : float) : bool :=
  match a, b with
  | Finite x, Finite y => Qeq_bool x y
  | PosInf, PosInf => true
  | NegInf, NegInf => true
  | _, _ => false
  end.

(** [a <= b] *)
Definition float_le (a b : float) : Prop :=
  float_ltb a b || float_eqb a b = true.

Definition is_nan (a : float) : bool :=
  match a with
  | NaN => true
  | _ => false
  end.

(** [a / d] for a number [d]; a division by zero gives an infinity or
    NaN in numpy, with a warning. *)
Definition float_div (a : float) (d : Q) : float :=
  match a with
  | Finite q =>
      if Qeq_bool d 0 then
        if Qlt_bool 0 q then PosInf else if Qlt_bool q 0 then NegInf else NaN
      else Finite (q / d)
  | PosInf => if Qlt_bool d 0 then NegInf else PosInf
  | NegInf => if Qlt_bool d 0 then PosInf else NegInf
  | NaN => NaN
  end.

(** [k * a] for a number [k]: zero times an infinity is NaN. *)
Definition float_mul (k : Q) (a : float) : float :=
  match a with
  | Finite q => Finite (k * q)
  | PosInf => if Qlt_bool 0 k then PosInf else if Qlt_bool k 0 then NegInf else NaN
  | NegInf => if Qlt_bool 0 k then NegInf else if Qlt_bool k 0 then PosInf else NaN
  | NaN => NaN
  end.

(** Python's two-argument [min(a, b)] on floats: [a] unless [b < a], so
    [min(nan, 1.0)] is NaN. *)
Definition float_min2 (a b : float) : float :=
  if float_ltb b a then b else a.

(* ===================================================================== *)
(** ** Feature contributions (lines 276-311)                              *)
(* ===================================================================== *)

Record contribution : Type := mkContribution {
  c_name : string;
  c_value : Q;
  c_impact : float;
  c_importance : Q
}.

Record ExplanationResult : Type := mkExplanation {
  decision : string;
  confidence : string;
  risk_score : Q;
  approval_probability : Q;
  key_factors : list contribution
}.

(** Lines 280-284: the importance of a feature, [0.1] unless the table
    has a row for it. *)
Definition importance_of (feature_importance : option DataFrame)
    (feature_name : string) : result Q :=
  match feature_importance with
  | None => Ok 0.1%Q
  | Some table =>
      let? features := df_getitem table "feature" in
      let feature_row := df_filter table (eq_mask features (Str feature_name)) in
      if df_empty feature_row then Ok 0.1%Q
      else
        let? importances := df_getitem feature_row "importance" in
        let? first := iloc0 importances in
        float_of_cell first
  end.

(** A stable sort on numbers, largest key first, ties in their original
    order. *)
Fixpoint insert_desc {A : Type} (key : A -> Q) (x : A) (l : list A) : list A :=
  match l with
  | [] => [x]
  | y :: l' =>
      if Qlt_bool (key x) (key y) then y :: insert_desc key x l'
      else x :: y :: l'
  end.

Fixpoint sort_desc {A : Type} (key : A -> Q) (l : list A) : list A :=
  match l with
  | [] => []
  | x :: l' => insert_desc key x (sort_desc key l')
  end.

(** Largest key first. *)
Definition descending {A : Type} (key : A -> Q) (a b : A) : Prop :=
  (key b <= key a)%Q.

(** *** [list.sort(key=..., reverse=True)] on float keys (line 304)

    With NaN among the keys the order that [list.sort] leaves depends on
    the comparisons it makes, so the sort is modelled as CPython runs it
    on a list of fewer than 64 elements (the engine has ten feature
    names): the list is reversed, the run at its start is found
    ([count_run]) and turned round when it descends, every later element
    is put into place by a binary search ([binarysort]), and the result is
    reversed again.  Every comparison is [<] on the keys.  (On a longer
    list CPython merges several runs.  Whatever the length, the result is
    a rearrangement of the list, and the stable sort when no key is NaN;
    the properties of the engine use nothing else of the sort.) *)
Section ListSort.

Context {A : Type} (key : A -> float).

Definition key_lt (x y : A) : bool := float_ltb (key x) (key y).

(** How far the run goes on after [previous]. *)
Fixpoint run_ascending (previous : A) (l : list A) : nat :=
  match l with
  | [] => 0
  | x :: l' => if key_lt x previous then 0 else S (run_ascending x l')
  end.

Fixpoint run_descending (previous : A) (l : list A) : nat :=
  match l with
  | [] => 0
  | x :: l' => if key_lt x previous then S (run_descending x l') else 0
  end.

(** The length of the run at the start of the list, and whether it
    descends (strictly) or ascends (weakly). *)
Definition count_run (l : list A) : nat * bool :=
  match l with
  | [] => (0%nat, false)
  | [x] => (1%nat, false)
  | x0 :: x1 :: l' =>
      if key_lt x1 x0 then (2 + run_descending x1 l', true)%nat
      else (2 + run_ascending x1 l', false)%nat
  end.

(** The search of [binarysort] between the positions [l] and [r] of the
    sorted part: the middle [p = l + ((r - l) >> 1)] is compared with the
    pivot until [l] meets [r]. *)
Fixpoint bisect (fuel : nat) (pivot : A) (sorted : list A) (l r : nat) : nat :=
  match fuel with
  | O => l
  | S fuel' =>
      if (l <? r)%nat then
        let p := (l + (r - l) / 2)%nat in
        match nth_error sorted p with
        | Some x =>
            if key_lt pivot x then bisect fuel' pivot sorted l p
            else bisect fuel' pivot sorted (S p) r
        | None => l
        end
      else l
  end.

(** One pass of [binarysort]: the pivot is put at the position found. *)
Definition binary_insert (sorted : list A) (pivot : A) : list A :=
  let l := bisect (length sorted) pivot sorted 0 (length sorted) in
  firstn l sorted ++ pivot :: skipn l sorted.

Definition binarysort (run rest : list A) : list A :=
  fold_left binary_insert rest run.

(** The forward sort. *)
Definition sort_forward (l : list A) : list A :=
  let '(n, descends) := count_run l in
  let run := firstn n l in
  binarysort (if descends then rev run else run) (skipn n l).

Definition list_sort_reverse (l : list A) : list A :=
  rev (sort_forward (rev l)).

(** The stable sort on float keys, largest key first, ties in their
    original order: what the sort amounts to when no key is NaN. *)
Fixpoint insert_stable (x : A) (l : list A) : list A :=
  match l with
  | [] => [x]
  | y :: l' => if key_lt x y then y :: insert_stable x l' else x :: y :: l'
  end.

Fixpoint stable_sort_reverse (l : list A) : list A :=
  match l with
  | [] => []
  | x :: l' => insert_stable x (stable_sort_reverse l')
  end.

(** No key is NaN. *)
Definition without_nan (l : list A) : Prop :=
  Forall (fun x => is_nan (key x) = false) l.

(** What [binarysort] does when no key is NaN: it puts the pivot behind
    the elements that are not above it. *)
Fixpoint insert_ascending (x : A) (l : list A) : list A :=
  match l with
  | [] => [x]
  | y :: l' => if key_lt x y then x :: y :: l' else y :: insert_ascending x l'
  end.

Definition insertion_sort (l : list A) : list A :=
  fold_left (fun sorted x => insert_ascending x sorted) l [].

Definition ascending (a b : A) : Prop := key_lt b a = false.

End ListSort.

(** Lines 165-168: [pd.DataFrame({'feature': ..., 'importance': ...})]
    raises [ValueError] when the two arrays differ in length; the rows are
    labelled 0, 1, ... and then sorted by importance, largest first
    ([sort_values] does not promise an order among equal importances; the
    stable order is taken here). *)
Definition frame_of_importance_rows (rows : list (Z * (string * Q))) : DataFrame :=
  mkFrame (map fst rows)
          [ ("feature", map (fun r => Str (fst (snd r))) rows);
            ("importance", map (fun r => Num (snd (snd r))) rows) ].

Definition importance_frame (feature_cols : list string) (avg_importance : list Q)
  : result DataFrame :=
  if Nat.eqb (length feature_cols) (length avg_importance) then
    let labels := map Z.of_nat (seq 0 (length feature_cols)) in
    let rows := combine labels (combine feature_cols avg_importance) in
    Ok (frame_of_importance_rows (sort_desc (fun r => snd (snd r)) rows))
  else Raise (ValueError "All arrays must be of the same length").

(** The importance a table of such rows gives a feature: that of the
    first row for the feature, or the default of line 280. *)
Definition trained_importance (rows : list (Z * (string * Q))) (feature_name : string) : Q :=
  match assoc_str feature_name (map snd rows) with
  | Some importance => importance
  | None => 0.1%Q
  end.

(** [pd.DataFrame(columns=['feature', 'importance'])] *)
Definition empty_importance_frame : DataFrame :=
  mkFrame [] [ ("feature", []); ("importance", []) ].

Global Instance DataFrame_inhabited : Inhabited DataFrame :=
  populate (mkFrame [] []).

(* ===================================================================== *)
(** ** The engine                                                         *)
(* ===================================================================== *)

Section Engine.

Context {sk : Sklearn}.

(** References to the importance tables: the one the engine keeps and the
    copies it hands out. *)
Definition loc : Type := positive.

Record EmpowrAICreditModel : Type := mkEngine {
  model : option (RandomForestClassifier * GradientBoostingClassifier);
  scaler : Scaler;
  feature_names : list string;
  model_performance : dict;
  bias_metrics : dict;
  feature_importance : option loc
}.

(** The calls on the module's logger: [Warn_bias_metrics] is the
    [logger.warning] of line 222, the others are [logger.info] calls. *)
Inductive log_record : Type :=
| Log_initialized
| Log_training_started
| Log_bias_metrics (di : Q)
| Warn_bias_metrics (e : exn)
| Log_training_completed (roc_auc : Q).

Record World : Type := mkWorld {
  self : EmpowrAICreditModel;
  heap : gmap loc DataFrame;
  log : list log_record
}.

(** *** The state-and-error monad of the methods *)

Definition M (A : Type) : Type := World -> result A * World.

Definition ret {A : Type} (a : A) : M A := fun w => (Ok a, w).

Definition bind {A B : Type} (m : M A) (k : A -> M B) : M B :=
  fun w =>
    match m w with
    | (Ok a, w') => k a w'
    | (Raise e, w') => (Raise e, w')
    end.

Definition lift {A : Type} (r : result A) : M A := fun w => (r, w).

(** [try: body except Exception as e: handler]; what the body assigned
    before it raised stays assigned. *)
Definition try_except {A : Type} (body : M A) (handler : exn -> M A) : M A :=
  fun w =>
    match body w with
    | (Ok a, w') => (Ok a, w')
    | (Raise e, w') => handler e w'
    end.

Definition get_self : M EmpowrAICreditModel := fun w => (Ok (self w), w).

Definition put_self (e : EmpowrAICreditModel) : M unit :=
  fun w => (Ok tt, mkWorld e (heap w) (log w)).

Definition logger (r : log_record) : M unit :=
  fun w => (Ok tt, mkWorld (self w) (heap w) (log w ++ [r])).

(** A new table in the store. *)
Definition alloc (t : DataFrame) : M loc :=
  fun w =>
    let l := fresh (dom (heap w)) in
    (Ok l, mkWorld (self w) (<[l := t]> (heap w)) (log w)).

Notation "x <- m ;; k" := (bind m (fun x => k))
  (at level 100, m at next level, right associativity).
Notation "m ;;; k" := (bind m (fun _ => k))
  (at level 100, right associativity).

(** *** Lines 24-38 *)

Definition initial_engine : EmpowrAICreditModel :=
  mkEngine None StandardScaler schema [] [] None.

Definition __init__ : M unit :=
  put_self initial_engine ;;;
  logger Log_initialized.

(** [EmpowrAICreditModel()] in a program that has allocated nothing yet. *)
Definition new_world : World :=
  snd (__init__ (mkWorld initial_engine ∅ [])).

(** *** Lines 175-228 *)

Definition with_bias_metrics (e : EmpowrAICreditModel) (d : dict) : EmpowrAICreditModel :=
  mkEngine (model e) (scaler e) (feature_names e)
           (model_performance e) d (feature_importance e).

Definition set_bias_metrics (d : dict) : M unit :=
  e <- get_self ;;
  put_self (with_bias_metrics e d).

Definition _calculate_bias_metrics (df X_test : DataFrame) (pred_proba : list Q)
  : M unit :=
  try_except
    (a <- lift (audit_body df X_test pred_proba) ;;
     set_bias_metrics (report_of a) ;;;
     logger (Log_bias_metrics (disparate_impact a)))
    (fun e =>
       logger (Warn_bias_metrics e) ;;;
       set_bias_metrics neutral_report).

(** An entry of the stored bias report. *)
Definition reported (key : string) (w : World) : option Q :=
  assoc_str key (bias_metrics (self w)).

(** *** Lines 117-173 *)

Definition with_model (e : EmpowrAICreditModel)
    (m : RandomForestClassifier * GradientBoostingClassifier) : EmpowrAICreditModel :=
  mkEngine (Some m) (scaler e) (feature_names e)
           (model_performance e) (bias_metrics e) (feature_importance e).

Definition with_scaler (e : EmpowrAICreditModel) (s : Scaler) : EmpowrAICreditModel :=
  mkEngine (model e) s (feature_names e)
           (model_performance e) (bias_metrics e) (feature_importance e).

Definition with_performance (e : EmpowrAICreditModel) (d : dict) : EmpowrAICreditModel :=
  mkEngine (model e) (scaler e) (feature_names e)
           d (bias_metrics e) (feature_importance e).

Definition with_importance (e : EmpowrAICreditModel) (l : loc) : EmpowrAICreditModel :=
  mkEngine (model e) (scaler e) (feature_names e)
           (model_performance e) (bias_metrics e) (Some l).

Definition demographic_and_target : list string :=
  [ "approved"; "race"; "gender"; "age" ].

Definition halve (a : list Q) : list Q := map (fun x => (x / 2)%Q) a.

Definition feature_cols_of (df : DataFrame) : list string :=
  List.filter (fun col => negb (existsb (String.eqb col) demographic_and_target))
              (df_columns df).

(** Lines 119-168: fit, evaluate, store.  The values handed on are the
    locals that lines 171 and 173 read: [X_test], [ensemble_pred_proba]
    and the ROC-AUC. *)
Definition fit_and_evaluate (df : DataFrame) : M (DataFrame * list Q * Q) :=
  logger Log_training_started ;;;
  let feature_cols := feature_cols_of df in
  X <- lift (df_select df feature_cols) ;;
  y <- lift (df_getitem df "approved") ;;
  split <- lift (call (train_test_split X y)) ;;
  let '(X_train, X_test, y_train, y_test) := split in
  rf <- lift (call (rf_fit rf_new X_train y_train)) ;;
  gb <- lift (call (gb_fit gb_new X_train y_train)) ;;
  rf_pred <- lift (let? m := call (rf_predict_proba rf (Frame X_test)) in column1 m) ;;
  gb_pred <- lift (let? m := call (gb_predict_proba gb (Frame X_test)) in column1 m) ;;
  pred_sum <- lift (np_add rf_pred gb_pred) ;;
  let ensemble_pred_proba := halve pred_sum in
  let ensemble_pred := binarize ensemble_pred_proba in
  e <- get_self ;;
  put_self (with_model e (rf, gb)) ;;;
  e <- get_self ;;
  fitted <- lift (call (scaler_fit (scaler e) X_train)) ;;
  put_self (with_scaler e fitted) ;;;
  accuracy <- lift (call (accuracy_score y_test ensemble_pred)) ;;
  precision <- lift (call (precision_score y_test ensemble_pred)) ;;
  recall <- lift (call (recall_score y_test ensemble_pred)) ;;
  f1 <- lift (call (f1_score y_test ensemble_pred)) ;;
  roc_auc <- lift (call (roc_auc_score y_test ensemble_pred_proba)) ;;
  e <- get_self ;;
  put_self (with_performance e
              [ ("accuracy", accuracy); ("precision", precision);
                ("recall", recall); ("f1_score", f1); ("roc_auc", roc_auc);
                ("training_samples", inject_Z (Z.of_nat (df_len X_train)));
                ("test_samples", inject_Z (Z.of_nat (df_len X_test))) ]) ;;;
  rf_importance <- lift (call (rf_feature_importances rf)) ;;
  gb_importance <- lift (call (gb_feature_importances gb)) ;;
  importance_sum <- lift (np_add rf_importance gb_importance) ;;
  let avg_importance := halve importance_sum in
  table <- lift (importance_frame feature_cols avg_importance) ;;
  l <- alloc table ;;
  e <- get_self ;;
  put_self (with_importance e l) ;;;
  ret (X_test, ensemble_pred_proba, roc_auc).

Definition train_model (df : DataFrame) : M unit :=
  r <- fit_and_evaluate df ;;
  let '(X_test, ensemble_pred_proba, roc_auc) := r in
  _calculate_bias_metrics df X_test ensemble_pred_proba ;;;
  logger (Log_training_completed roc_auc).

(** *** Lines 230-246 *)

(** The table [self.feature_importance] refers to, if any. *)
Definition importance_table (w : World) : option DataFrame :=
  match feature_importance (self w) with
  | None => None
  | Some l => Some (heap w !!! l)
  end.

(** Lines 236-239: the one-row frame named by the first [len(features)]
    feature names, scaled with the engine's scaler. *)
Definition scale_features (features : list Q) (w : World)
  : result (list (list Q)) :=
  let? feature_df :=
    frame_of_row features
                 (firstn (length features) (feature_names (self w))) in
  call (scaler_transform (scaler (self w)) feature_df).

(** [clf.predict_proba(x)[0, 1]] *)
Definition positive_class (probabilities : lib (list (list Q))) : result Q :=
  let? m := call probabilities in
  at01 m.

Definition predict_probability (features : list Q) (w : World) : result Q :=
  match model (self w) with
  | None => Raise NotTrained
  | Some (rf, gb) =>
      let? features_scaled := scale_features features w in
      let? rf_pred := positive_class (rf_predict_proba rf (NdArray features_scaled)) in
      let? gb_pred := positive_class (gb_predict_proba gb (NdArray features_scaled)) in
      Ok ((rf_pred + gb_pred) / 2)%Q
  end.

(** *** Lines 248-312 *)

(** [np.log(x)]: the logarithm of a positive number, [-inf] at 0, NaN
    below 0 (numpy warns and returns). *)
Definition np_log (x : Q) : float :=
  if Qlt_bool 0 x then Finite (ln x)
  else if Qeq_bool x 0 then NegInf
  else NaN.

(** Lines 286-292. *)
Definition normalized_value_of (feature_name : string) (value : Q) : float :=
  if String.eqb feature_name "credit_score" then Finite ((value - 300) / 550)%Q
  else if existsb (String.eqb feature_name)
                  [ "monthly_income"; "total_alternative_income" ]
       then float_min2 (float_div (np_log (value / 1000)%Q) 3%Q) (Finite 1%Q)
       else Finite (py_min2 value 1%Q).

(** Lines 279-301: the body of the loop, for one pair of the [zip]. *)
Definition contribution_of (table : option DataFrame) (pair : string * Q)
  : result contribution :=
  let '(feature_name, value) := pair in
  let? importance := importance_of table feature_name in
  let normalized_value := normalized_value_of feature_name value in
  let impact := float_mul importance normalized_value in
  Ok (mkContribution (_humanize_feature_name feature_name) value impact importance).

Definition generate_explanation (applicant_data : list Q) (w : World)
  : result ExplanationResult :=
  match model (self w) with
  | None => Raise NotTrained
  | Some _ =>
      let? p := predict_probability applicant_data w in
      let '(decision, confidence) := decision_band p in
      let? feature_contributions :=
        rmap (contribution_of (importance_table w))
             (combine (feature_names (self w)) applicant_data) in
      let sorted := list_sort_reverse c_impact feature_contributions in
      Ok (mkExplanation decision confidence (1 - p)%Q p (firstn 5 sorted))
  end.

(** *** Lines 330-334 *)

(** The method returns a reference to a table of its own making: the
    empty two-column frame, or a copy of the stored table. *)
Definition get_feature_importance : M loc :=
  e <- get_self ;;
  match feature_importance e with
  | None => alloc empty_importance_frame
  | Some l =>
      fun w => alloc (heap w !!! l) w
  end.

(** What a caller can do to a table it holds a reference to: replace its
    contents by anything. *)
Definition caller_mutates (l : loc) (t : DataFrame) (w : World) : World :=
  mkWorld (self w) (<[l := t]> (heap w)) (log w).

End Engine.

(* ===================================================================== *)
(** ** Executable collaborators                                           *)
(* ===================================================================== *)

(** A small instance of the interface to run the engine on.  It keeps
    what scikit-learn's input validation does: a fitted estimator
    remembers the number of columns it was fitted on ([n_features_in_])
    and raises on an input of another width; an estimator that was not
    fitted raises.  The probabilities, importances and metrics are simple
    stand-ins. *)
Module Collaborators.

Definition frame_matrix (df : DataFrame) : list (list Q) :=
  map (fun i =>
         map (fun c => match nth_error (snd c) i with
                       | Some (Num q) => q
                       | _ => 0%Q
                       end) (df_data df))
      (seq 0 (df_len df)).

Definition matrix_of (x : array_like) : list (list Q) :=
  match x with
  | Frame df => frame_matrix df
  | NdArray rows => rows
  end.

Definition rows_slice (df : DataFrame) (from count : nat) : DataFrame :=
  mkFrame (firstn count (skipn from (df_index df)))
          (map (fun c => (fst c, firstn count (skipn from (snd c)))) (df_data df)).

(** The last fifth of the rows is held out. *)
Definition split (X : DataFrame) (y : list cell)
  : lib (DataFrame * DataFrame * list cell * list cell) :=
  let n := df_len X in
  let n_test := ((n + 4) / 5)%nat in
  let n_train := (n - n_test)%nat in
  if (n_train =? 0)%nat then inl "the resulting train set will be empty"
  else inr (rows_slice X 0 n_train, rows_slice X n_train n_test,
            firstn n_train y, skipn n_train y).

Definition fit (X : DataFrame) : lib (option nat) :=
  inr (Some (length (df_data X))).

Definition validated (fitted : option nat) (rows : list (list Q))
  : lib (list (list Q)) :=
  match fitted with
  | None => inl "NotFittedError"
  | Some n =>
      if forallb (fun row => (length row =? n)%nat) rows then inr rows
      else inl "X has a different number of features than the estimator is expecting"
  end.

Definition proba (high low : Q) (fitted : option nat) (x : array_like)
  : lib (list (list Q)) :=
  match validated fitted (matrix_of x) with
  | inl msg => inl msg
  | inr rows =>
      inr (map (fun row =>
                  let p := match row with
                           | x0 :: _ => if Qle_bool 600 x0 then high else low
                           | [] => low
                           end in
                  [(1 - p)%Q; p]) rows)
  end.

Definition importances (weight : nat -> Q) (fitted : option nat) : lib (list Q) :=
  match fitted with
  | None => inl "NotFittedError"
  | Some n => inr (map weight (seq 0 n))
  end.

Definition transform (fitted : option nat) (df : DataFrame) : lib (list (list Q)) :=
  validated fitted (frame_matrix df).

#[export] Instance checked : Sklearn := {|
  RandomForestClassifier := option nat;
  GradientBoostingClassifier := option nat;
  Scaler := option nat;
  rf_new := None;
  gb_new := None;
  StandardScaler := None;
  train_test_split := split;
  rf_fit := fun _ X _ => fit X;
  gb_fit := fun _ X _ => fit X;
  rf_predict_proba := proba 0.9%Q 0.1%Q;
  gb_predict_proba := proba 0.7%Q 0.2%Q;
  rf_feature_importances :=
    importances (fun i => (inject_Z (Z.of_nat (S i)) / 20)%Q);
  gb_feature_importances := importances (fun _ => 0.05%Q);
  scaler_fit := fun _ X => fit X;
  scaler_transform := transform;
  accuracy_score := fun _ _ => inr 1%Q;
  precision_score := fun _ _ => inr 1%Q;
  recall_score := fun _ _ => inr 1%Q;
  f1_score := fun _ _ => inr 1%Q;
  roc_auc_score := fun _ _ => inr 1%Q;
  ln := fun x => (x - 1)%Q
|}.

End Collaborators.

(** ** Sample data *)
Module Samples.

Definition column (name : string) (values : list Q) : string * list cell :=
  (name, map Num values).

Definition range (n : nat) : list Z := map Z.of_nat (seq 0 n).

(** 30 applicants over the full schema, two race groups, two gender
    groups. *)
Definition applicants : DataFrame :=
  mkFrame (range 30)
    ( [ column "credit_score" (repeat 700%Q 15 ++ repeat 500%Q 15);
           column "monthly_income" (repeat 4000%Q 30);
           column "total_alternative_income" (repeat 1500%Q 30);
           column "payment_reliability_score" (repeat 0.9%Q 30);
           column "cash_flow_consistency" (repeat 0.5%Q 30);
           column "platform_ratings" (repeat 4.2%Q 30);
           column "community_trust_score" (repeat 1.6%Q 30);
           column "financial_engagement_score" (repeat 0.4%Q 30);
           column "income_diversification" (repeat 0.7%Q 30);
           column "business_health" (repeat 0.5%Q 30);
           column "approved" (repeat 1%Q 15 ++ repeat 0%Q 15);
           column "race" (repeat 1%Q 10 ++ repeat 2%Q 20);
           column "gender" (repeat 1%Q 20 ++ repeat 2%Q 10);
        column "age" (repeat 35%Q 30) ] ).

Definition trained : World (sk := Collaborators.checked) :=
  snd (train_model applicants new_world).

Definition full_vector : list Q :=
  [ 750; 6000; 2000; 0.9; 0.9; 0.9; 0.9; 0.9; 0.9; 0.9 ]%Q.

Definition short_vector : list Q := [ 750; 6000; 0.9 ]%Q.


(** The same applicants with only the first three features recorded. *)
Definition narrow_applicants : DataFrame :=
  mkFrame (range 30)
    ( [ column "credit_score" (repeat 700%Q 15 ++ repeat 500%Q 15);
        column "monthly_income" (repeat 4000%Q 30);
        column "total_alternative_income" (repeat 1500%Q 30);
        column "approved" (repeat 1%Q 15 ++ repeat 0%Q 15);
        column "race" (repeat 1%Q 10 ++ repeat 2%Q 20);
        column "gender" (repeat 1%Q 20 ++ repeat 2%Q 10);
        column "age" (repeat 35%Q 30) ] ).

Definition trained_narrow : World (sk := Collaborators.checked) :=
  snd (train_model narrow_applicants new_world).

(** Held-out demographics for the audit: two race groups of 11 records
    each, one gender group of 22. *)
Definition two_groups : DataFrame :=
  mkFrame (range 22)
    ( [ column "race" (repeat 1%Q 11 ++ repeat 2%Q 11);
        column "gender" (repeat 1%Q 22) ] ).

Definition held_out : DataFrame := mkFrame (range 22) [].

(** Nobody is predicted positive. *)
Definition all_negative : list Q := repeat 0.1%Q 22.

(** The first group is predicted positive throughout, the second never. *)
Definition one_group_positive : list Q := repeat 0.9%Q 11 ++ repeat 0.1%Q 11.

(** A single applicant. *)
Definition single_row : DataFrame :=
  mkFrame [0%Z] [ column "race" [1%Q]; column "gender" [1%Q] ].

Definition single_held_out : DataFrame := mkFrame [0%Z] [].

(** Demographics without any column. *)
Definition no_columns : DataFrame := mkFrame [] [].

End Samples.

(* ===================================================================== *)
(** ** Notions the further properties are stated with                     *)
(* ===================================================================== *)

(** The members of a group whose probability binarizes to 1. *)
Definition positives (col : list cell) (pred_proba : list Q) (g : cell) : nat :=
  length (List.filter (fun cp => cell_eqb (fst cp) g && Qlt_bool 0.5 (snd cp))
                      (combine col pred_proba)).

(** The gaps of line 207, one per qualifying gender group. *)
Definition parity_gaps (gender_col : list cell) (predictions : list Z) : list Q :=
  map (fun g => Qabs (group_rate gender_col predictions g - np_mean predictions))
      (qualifying_groups gender_col).

(** The five bands from the worst outcome to the best. *)
Definition band_rank (band : string * string) : nat :=
  let '(decision, confidence) := band in
  if String.eqb decision "APPROVED" then
    if String.eqb confidence "High" then 4 else 3
  else if String.eqb decision "CONDITIONAL" then
    if String.eqb confidence "Medium" then 2 else 1
  else 0.


Definition has_underscore (s : string) : Prop :=
  In "_"%char (list_ascii_of_string s).

(** Text for which [title] is Python's [str.title]. *)
Definition ascii_text (s : string) : Prop :=
  Forall (fun c => (nat_of_ascii c < 128)%nat) (list_ascii_of_string s).

Section Views.

Context {sk : Sklearn}.

(** The list [feature_contributions] of lines 276-301, before it is
    sorted: one entry per pair of the [zip], in the order of the names. *)
Definition feature_contributions (applicant_data : list Q) (w : World)
  : result (list contribution) :=
  rmap (contribution_of (importance_table w))
       (combine (feature_names (self w)) applicant_data).

(** The values given for the two income features are positive, so that
    line 290 takes the logarithm of a positive number. *)
Definition positive_incomes (applicant_data : list Q) (w : World) : Prop :=
  Forall (fun pair : string * Q =>
            In (fst pair) [ "monthly_income"; "total_alternative_income" ] ->
            (0 < snd pair)%Q)
         (combine (feature_names (self w)) applicant_data).

(** The fields of the engine a training run writes last. *)
Definition late_fields_kept (w w' : World) : Prop :=
  heap w' = heap w /\
  feature_names (self w') = feature_names (self w) /\
  bias_metrics (self w') = bias_metrics (self w) /\
  feature_importance (self w') = feature_importance (self w).

End Views.

(** Collaborators whose ROC-AUC computation raises when the held-out
    labels are of one class only, as scikit-learn's does; everything else
    is as in [Collaborators].  The sample split holds out the last six of
    the sample applicants, none of whom is approved. *)
Module OneClassHeldOut.

Definition roc_auc (y_true : list cell) (y_score : list Q) : lib Q :=
  match unique y_true with
  | _ :: _ :: _ => inr 1%Q
  | _ => inl "Only one class present in y_true"
  end.

#[export] Instance raising : Sklearn := {|
  RandomForestClassifier := option nat;
  GradientBoostingClassifier := option nat;
  Scaler := option nat;
  rf_new := None;
  gb_new := None;
  StandardScaler := None;
  train_test_split := Collaborators.split;
  rf_fit := fun _ X _ => Collaborators.fit X;
  gb_fit := fun _ X _ => Collaborators.fit X;
  rf_predict_proba := Collaborators.proba 0.9%Q 0.1%Q;
  gb_predict_proba := Collaborators.proba 0.7%Q 0.2%Q;
  rf_feature_importances :=
    Collaborators.importances (fun i => (inject_Z (Z.of_nat (S i)) / 20)%Q);
  gb_feature_importances := Collaborators.importances (fun _ => 0.05%Q);
  scaler_fit := fun _ X => Collaborators.fit X;
  scaler_transform := Collaborators.transform;
  accuracy_score := fun _ _ => inr 1%Q;
  precision_score := fun _ _ => inr 1%Q;
  recall_score := fun _ _ => inr 1%Q;
  f1_score := fun _ _ => inr 1%Q;
  roc_auc_score := roc_auc;
  ln := fun x => (x - 1)%Q
|}.

End OneClassHeldOut.

(* ===================================================================== *)
(** ** The synthetic dataset (lines 40-115)                               *)
(* ===================================================================== *)

(** What the seeded generator returns for the sixteen draws of the
    method, in the order of the calls: entry [i] of each array.  The
    properties below hold whatever these values are. *)
Record RandomDraws : Type := mkDraws {
  normal_credit : nat -> Q;        (* np.random.normal(650, 100, n) *)
  lognormal_income : nat -> Q;     (* np.random.lognormal(8, 0.5, n) *)
  exponential_revenue : nat -> Q;  (* np.random.exponential(800, n) *)
  beta_gig : nat -> Q;             (* np.random.beta(2, 5, n) *)
  beta_rent : nat -> Q;            (* np.random.beta(8, 2, n) *)
  beta_utility : nat -> Q;         (* np.random.beta(9, 1.5, n) *)
  beta_cash_flow : nat -> Q;       (* np.random.beta(3, 3, n) *)
  normal_ratings : nat -> Q;       (* np.random.normal(4.2, 0.6, n) *)
  poisson_endorsements : nat -> nat; (* np.random.poisson(2, n) *)
  poisson_vouches : nat -> nat;      (* np.random.poisson(3, n) *)
  poisson_education : nat -> nat;    (* np.random.poisson(4, n) *)
  uniform_health : nat -> Q;       (* np.random.uniform(0.8, 1.2, n) *)
  normal_noise : nat -> Q;         (* np.random.normal(0, 0.1, n) *)
  choice_race : nat -> Z;          (* np.random.choice([1..7], n) *)
  choice_gender : nat -> Z;        (* np.random.choice([1, 2, 3], n) *)
  normal_age : nat -> Q            (* np.random.normal(35, 12, n) *)
}.

(** [a.clip(lo, hi)], entry by entry: [min(max(x, lo), hi)]. *)
Definition clip (lo hi x : Q) : Q :=
  let raised := if Qlt_bool x lo then lo else x in
  if Qlt_bool hi raised then hi else raised.

Definition clipZ (lo hi x : Z) : Z := Z.min (Z.max x lo) hi.

(** [a.astype(int)]: truncation towards zero. *)
Definition astype_int (x : Q) : Z := Z.quot (Qnum x) (Zpos (Qden x)).

(** The two [logger.info] calls of the method. *)
Inductive dataset_log : Type :=
| Creating_dataset (n_samples : nat)
| Dataset_created (samples : nat) (approval_rate : Q).

Definition generated_columns : list string :=
  [ "credit_score"; "monthly_income"; "business_revenue";
    "total_alternative_income"; "rent_payments_on_time";
    "utility_payments_on_time"; "payment_reliability_score";
    "cash_flow_consistency"; "platform_ratings"; "community_trust_score";
    "financial_engagement_score"; "income_diversification"; "business_health";
    "approved"; "race"; "gender"; "age" ].

Section Dataset.

Context {sk : Sklearn}.

Variable draws : RandomDraws.

(** The entries of the arrays at one position. *)
Definition credit_score_at (i : nat) : Q := clip 300 850 (normal_credit draws i).
Definition monthly_income_at (i : nat) : Q :=
  clip 1000 15000 (lognormal_income draws i).
Definition business_revenue_at (i : nat) : Q :=
  clip 0 5000 (exponential_revenue draws i).
Definition total_alternative_income_at (i : nat) : Q :=
  (business_revenue_at i + monthly_income_at i * beta_gig draws i)%Q.
Definition payment_reliability_score_at (i : nat) : Q :=
  ((beta_rent draws i + beta_utility draws i) / 2)%Q.
Definition platform_ratings_at (i : nat) : Q := clip 1 5 (normal_ratings draws i).
(** [np.log1p(x)] is the logarithm of [1 + x]; a Poisson draw is a count,
    so the argument is positive. *)
Definition community_trust_score_at (i : nat) : Q :=
  ln (1 + inject_Z (Z.of_nat (poisson_endorsements draws i + poisson_vouches draws i)))%Q.
Definition financial_engagement_score_at (i : nat) : Q :=
  (inject_Z (clipZ 0 10 (Z.of_nat (poisson_education draws i))) / 10)%Q.
Definition income_diversification_at (i : nat) : Q := (1 - beta_gig draws i)%Q.
Definition business_health_at (i : nat) : Q :=
  if Qlt_bool 0 (business_revenue_at i)
  then (beta_cash_flow draws i * uniform_health draws i)%Q
  else 0%Q.

(** Lines 91-101.  The income is at least 1000 after the clip, so the
    logarithm is taken of a positive number. *)
Definition approval_score_at (i : nat) : Q :=
  ((credit_score_at i - 300) / 550 * 0.3
   + ln (monthly_income_at i / 1000) / 3 * 0.25
   + payment_reliability_score_at i * 0.2
   + community_trust_score_at i / 3 * 0.1
   + financial_engagement_score_at i * 0.1
   + beta_cash_flow draws i * 0.05
   + normal_noise draws i)%Q.

Definition approved_at (i : nat) : Z :=
  if Qlt_bool 0.6 (approval_score_at i) then 1%Z else 0%Z.

Definition age_at (i : nat) : Z := astype_int (clip 18 75 (normal_age draws i)).

Definition array (n_samples : nat) (entry : nat -> Q) : list cell :=
  map (fun i => Num (entry i)) (seq 0 n_samples).

(** [pd.DataFrame(data)]: the columns in the order the dict was filled,
    the rows labelled 0, 1, ... *)
Definition enhanced_frame (n_samples : nat) : DataFrame :=
  mkFrame (map Z.of_nat (seq 0 n_samples))
    [ ("credit_score", array n_samples credit_score_at);
      ("monthly_income", array n_samples monthly_income_at);
      ("business_revenue", array n_samples business_revenue_at);
      ("total_alternative_income", array n_samples total_alternative_income_at);
      ("rent_payments_on_time", array n_samples (beta_rent draws));
      ("utility_payments_on_time", array n_samples (beta_utility draws));
      ("payment_reliability_score", array n_samples payment_reliability_score_at);
      ("cash_flow_consistency", array n_samples (beta_cash_flow draws));
      ("platform_ratings", array n_samples platform_ratings_at);
      ("community_trust_score", array n_samples community_trust_score_at);
      ("financial_engagement_score", array n_samples financial_engagement_score_at);
      ("income_diversification", array n_samples income_diversification_at);
      ("business_health", array n_samples business_health_at);
      ("approved", array n_samples (fun i => inject_Z (approved_at i)));
      ("race", array n_samples (fun i => inject_Z (choice_race draws i)));
      ("gender", array n_samples (fun i => inject_Z (choice_gender draws i)));
      ("age", array n_samples (fun i => inject_Z (age_at i))) ].

(** The method: the frame, and the two records it logs.  [n_samples] is
    a natural number: numpy refuses a negative size.  The mean of an empty
    column is NaN in pandas, so the rate of the second record stands for
    the logged one only when there is at least one sample. *)
Definition create_enhanced_dataset (n_samples : nat)
  : DataFrame * list dataset_log :=
  let df := enhanced_frame n_samples in
  (df, [ Creating_dataset n_samples;
         Dataset_created (df_len df)
           (np_mean (map approved_at (seq 0 n_samples))) ]).

End Dataset.

(** An entry of a column that is a number within bounds. *)
Definition number_within (lo hi : Q) (c : cell) : Prop :=
  exists q, c = Num q /\ (lo <= q)%Q /\ (q <= hi)%Q.

(** A column of a frame with [n] entries, all satisfying [P]. *)
Definition column_all (df : DataFrame) (name : string) (n : nat)
    (P : cell -> Prop) : Prop :=
  exists col, df_getitem df name = Ok col /\ length col = n /\ Forall P col.

(** ** More sample data *)
Module MoreSamples.

(** Two race groups and two gender groups of 11 records each. *)
Definition two_genders : DataFrame :=
  mkFrame (Samples.range 22)
    ( [ Samples.column "race" (repeat 1%Q 11 ++ repeat 2%Q 11);
        Samples.column "gender" (repeat 1%Q 11 ++ repeat 2%Q 11) ] ).

(** One entry more than the engine has feature names. *)
Definition long_vector : list Q :=
  [ 750; 6000; 2000; 0.9; 0.9; 0.9; 0.9; 0.9; 0.9; 0.9; 0.9 ]%Q.

(** The sample engine after a training run whose ROC-AUC computation
    raised. *)
Definition half_trained : World (sk := OneClassHeldOut.raising) :=
  snd (train_model Samples.applicants new_world).

(** Draws that are constant over the positions. *)
Definition constant_draws : RandomDraws :=
  mkDraws (fun _ => 900%Q) (fun _ => 3000%Q) (fun _ => 0%Q) (fun _ => 0.3%Q)
          (fun _ => 0.8%Q) (fun _ => 0.9%Q) (fun _ => 0.5%Q) (fun _ => 4.2%Q)
          (fun _ => 2%nat) (fun _ => 3%nat) (fun _ => 4%nat) (fun _ => 1%Q)
          (fun _ => 0%Q) (fun _ => 1%Z) (fun _ => 2%Z) (fun _ => 35.5%Q).

(** A dataset of ten samples and the sample engine trained on it. *)
Definition generated : DataFrame :=
  fst (create_enhanced_dataset (sk := Collaborators.checked) constant_draws 10).

Definition trained_on_generated : World (sk := Collaborators.checked) :=
  snd (train_model generated new_world).

End MoreSamples.

(* ===================================================================== *)
(** ** Facts about the numeric helpers                                    *)
(* ===================================================================== *)

Lemma Qlt_bool_iff (x y : Q) : Qlt_bool x y = true <-> (x < y)%Q.
Proof.
  unfold Qlt_bool. rewrite negb_true_iff. split; intros H.
  - apply Qnot_le_lt. intros Hle. apply Qle_bool_iff in Hle. congruence.
  - destruct (Qle_bool y x) eqn:E; [|reflexivity].
    apply Qle_bool_iff in E. exfalso. exact (Qlt_not_le _ _ H E).
Qed.

Lemma Qlt_bool_false_iff (x y : Q) : Qlt_bool x y = false <-> (y <= x)%Q.
Proof.
  unfold Qlt_bool. rewrite negb_false_iff. apply Qle_bool_iff.
Qed.

Lemma binarize_bits (pred_proba : list Q) : Forall bit (binarize pred_proba).
Proof.
  unfold binarize. apply List.Forall_forall. intros z Hz.
  apply in_map_iff in Hz. destruct Hz as [p [<- _]].
  destruct (Qlt_bool 0.5 p); [right | left]; reflexivity.
Qed.

Lemma select_mask_Forall {A : Type} (P : A -> Prop) (a : list A) :
  Forall P a -> forall mask, Forall P (select_mask a mask).
Proof.
  induction 1 as [|x a Hx Ha IH]; intros mask; simpl.
  - constructor.
  - destruct mask as [|b mask]; [constructor|].
    destruct b; [constructor; [exact Hx | apply IH] | apply IH].
Qed.

Lemma zsum_bits (l : list Z) :
  Forall bit l -> (0 <= zsum l <= Z.of_nat (length l))%Z.
Proof.
  induction 1 as [|z l Hz Hl IH]; simpl.
  - lia.
  - unfold bit in Hz. change (zsum (z :: l)) with (z + zsum l)%Z. lia.
Qed.

Lemma np_mean_bounds (l : list Z) :
  Forall bit l -> (0 <= np_mean l)%Q /\ (np_mean l <= 1)%Q.
Proof.
  intros Hl. pose proof (zsum_bits l Hl) as [H0 H1]. unfold np_mean.
  destruct l as [|z l].
  - split; vm_compute; discriminate.
  - assert (Hpos : (0 < inject_Z (Z.of_nat (length (z :: l))))%Q).
    { change 0%Q with (inject_Z 0). rewrite <- Zlt_Qlt. simpl length. lia. }
    split.
    + apply Qle_shift_div_l; [exact Hpos|].
      rewrite Qmult_0_l. change 0%Q with (inject_Z 0).
      rewrite <- Zle_Qle. exact H0.
    + apply Qle_shift_div_r; [exact Hpos|].
      rewrite Qmult_1_l. rewrite <- Zle_Qle. exact H1.
Qed.

Lemma py_min_from_spec (l : list Q) : forall cur,
  (py_min_from cur l = cur \/ In (py_min_from cur l) l) /\
  (py_min_from cur l <= cur)%Q /\
  (forall x, In x l -> (py_min_from cur l <= x)%Q).
Proof.
  induction l as [|x l IH]; intros cur; simpl.
  - repeat split; [left; reflexivity | apply Qle_refl | intros x []].
  - destruct (IH (if Qlt_bool x cur then x else cur)) as [Hin [Hle Hall]].
    assert (Hstep : ((if Qlt_bool x cur then x else cur) <= cur)%Q /\
                    ((if Qlt_bool x cur then x else cur) <= x)%Q).
    { destruct (Qlt_bool x cur) eqn:E.
      - apply Qlt_bool_iff in E. split; [apply Qlt_le_weak, E | apply Qle_refl].
      - apply Qlt_bool_false_iff in E. split; [apply Qle_refl | exact E]. }
    destruct Hstep as [Hc Hx]. repeat split.
    + destruct Hin as [Heq | Hin]; [|right; right; exact Hin].
      rewrite Heq. destruct (Qlt_bool x cur); [right; left; reflexivity | left; reflexivity].
    + eapply Qle_trans; eassumption.
    + intros y [<- | Hy]; [eapply Qle_trans; eassumption | apply Hall, Hy].
Qed.

Lemma py_max_from_spec (l : list Q) : forall cur,
  (py_max_from cur l = cur \/ In (py_max_from cur l) l) /\
  (cur <= py_max_from cur l)%Q /\
  (forall x, In x l -> (x <= py_max_from cur l)%Q).
Proof.
  induction l as [|x l IH]; intros cur; simpl.
  - repeat split; [left; reflexivity | apply Qle_refl | intros x []].
  - destruct (IH (if Qlt_bool cur x then x else cur)) as [Hin [Hle Hall]].
    assert (Hstep : (cur <= (if Qlt_bool cur x then x else cur))%Q /\
                    (x <= (if Qlt_bool cur x then x else cur))%Q).
    { destruct (Qlt_bool cur x) eqn:E.
      - apply Qlt_bool_iff in E. split; [apply Qlt_le_weak, E | apply Qle_refl].
      - apply Qlt_bool_false_iff in E. split; [apply Qle_refl | exact E]. }
    destruct Hstep as [Hc Hx]. repeat split.
    + destruct Hin as [Heq | Hin]; [|right; right; exact Hin].
      rewrite Heq. destruct (Qlt_bool cur x); [right; left; reflexivity | left; reflexivity].
    + eapply Qle_trans; eassumption.
    + intros y [<- | Hy]; [eapply Qle_trans; eassumption | apply Hall, Hy].
Qed.

Lemma py_min_is_min (x : Q) (l : list Q) : is_min (py_min_from x l) (x :: l).
Proof.
  destruct (py_min_from_spec l x) as [Hin [Hle Hall]]. split.
  - exists (py_min_from x l). split; [|apply Qeq_refl].
    destruct Hin as [-> | Hin]; [left; reflexivity | right; exact Hin].
  - intros r [<- | Hr]; [exact Hle | apply Hall, Hr].
Qed.

Lemma py_max_is_max (x : Q) (l : list Q) : is_max (py_max_from x l) (x :: l).
Proof.
  destruct (py_max_from_spec l x) as [Hin [Hle Hall]]. split.
  - exists (py_max_from x l). split; [|apply Qeq_refl].
    destruct Hin as [-> | Hin]; [left; reflexivity | right; exact Hin].
  - intros r [<- | Hr]; [exact Hle | apply Hall, Hr].
Qed.

Lemma is_min_unique (rates : list Q) (m m' : Q) :
  is_min m rates -> is_min m' rates -> (m == m')%Q.
Proof.
  intros [[r [Hr Er]] Hm] [[r' [Hr' Er']] Hm'].
  apply Qle_antisym.
  - rewrite <- Er'. apply Hm, Hr'.
  - rewrite <- Er. apply Hm', Hr.
Qed.

Lemma is_max_unique (rates : list Q) (m m' : Q) :
  is_max m rates -> is_max m' rates -> (m == m')%Q.
Proof.
  intros [[r [Hr Er]] Hm] [[r' [Hr' Er']] Hm'].
  apply Qle_antisym.
  - rewrite <- Er. apply Hm', Hr.
  - rewrite <- Er'. apply Hm, Hr'.
Qed.

(* ===================================================================== *)
(** ** Facts about the audit                                              *)
(* ===================================================================== *)

Lemma Qeq_bool_sym (x y : Q) : Qeq_bool x y = Qeq_bool y x.
Proof.
  destruct (Qeq_bool x y) eqn:E1, (Qeq_bool y x) eqn:E2; try reflexivity.
  - apply Qeq_bool_iff in E1. symmetry in E1. apply Qeq_bool_iff in E1. congruence.
  - apply Qeq_bool_iff in E2. symmetry in E2. apply Qeq_bool_iff in E2. congruence.
Qed.

Lemma cell_eqb_sym (a b : cell) : cell_eqb a b = cell_eqb b a.
Proof.
  destruct a, b; simpl; try reflexivity.
  - apply Qeq_bool_sym.
  - apply String.eqb_sym.
Qed.

Lemma existsb_false {A : Type} (f : A -> bool) (l : list A) :
  existsb f l = false -> forall x, In x l -> f x = false.
Proof.
  induction l as [|a l IH]; simpl; intros H x Hx; [destruct Hx|].
  apply orb_false_iff in H. destruct H as [Ha Hl].
  destruct Hx as [<- | Hx]; [exact Ha | apply IH; assumption].
Qed.

Lemma unique_from_distinct (l : list cell) : forall seen,
  Forall (fun c => forall s, In s seen -> cell_eqb c s = false) (unique_from seen l) /\
  distinct_cells (unique_from seen l).
Proof.
  induction l as [|c l IH]; intros seen; simpl.
  - split; constructor.
  - destruct (existsb (cell_eqb c) seen) eqn:E; [apply IH|].
    destruct (IH (c :: seen)) as [Hseen Hdist]. split.
    + constructor.
      * intros s Hs. exact (existsb_false _ _ E s Hs).
      * eapply List.Forall_impl; [|exact Hseen].
        intros d Hd s Hs. apply Hd. right. exact Hs.
    + constructor; [|exact Hdist].
      eapply List.Forall_impl; [|exact Hseen].
      intros d Hd. simpl. rewrite cell_eqb_sym. apply Hd. left. reflexivity.
Qed.

Lemma unique_distinct (l : list cell) : distinct_cells (unique l).
Proof. apply unique_from_distinct. Qed.

Lemma dict_set_fresh (d : list (cell * Q)) (k : cell) (v : Q) :
  (forall k', In k' (map fst d) -> cell_eqb k' k = false) ->
  dict_set d k v = d ++ [(k, v)].
Proof.
  induction d as [|[k' v'] d IH]; intros H; simpl; [reflexivity|].
  rewrite (H k') by (left; reflexivity).
  rewrite IH; [reflexivity|]. intros k'' Hk. apply H. right. exact Hk.
Qed.

Lemma mask_sum_le (mask : list bool) : (mask_sum mask <= length mask)%nat.
Proof.
  unfold mask_sum. induction mask as [|b mask IH]; simpl; [lia|].
  destruct b; simpl; lia.
Qed.

Lemma group_size_le (col : list cell) (g : cell) : (group_size col g <= length col)%nat.
Proof.
  unfold group_size, eq_mask.
  etransitivity; [apply mask_sum_le|]. rewrite length_map. reflexivity.
Qed.

(** What the loop of lines 187-191 leaves in [race_approval_rates]: one
    entry per qualifying group, in order, with the group's rate. *)
Lemma race_loop_spec (col : list cell) (predictions : list Z) (races : list cell) :
  forall acc out,
    race_loop col predictions races acc = Ok out ->
    (forall k g, In k (map fst acc) -> In g races -> cell_eqb k g = false) ->
    distinct_cells races ->
    out = acc ++ map (fun g => (g, group_rate col predictions g))
                     (List.filter (fun g => (10 <? group_size col g)%nat) races).
Proof.
  induction races as [|g races IH]; intros acc out Hrun Hacc Hdist; simpl in *.
  - injection Hrun as <-. rewrite app_nil_r. reflexivity.
  - inversion Hdist as [|g' races' Hg Hrest]; subst.
    fold (group_size col g) in *.
    destruct (10 <? group_size col g)%nat eqn:E.
    + unfold bool_index in Hrun.
      destruct (length predictions =? length (eq_mask col g))%nat; [|discriminate].
      simpl in Hrun.
      rewrite dict_set_fresh in Hrun
        by (intros k Hk; apply Hacc; [exact Hk | left; reflexivity]).
      apply IH in Hrun; [| |exact Hrest].
      * rewrite Hrun, <- app_assoc. reflexivity.
      * intros k g' Hk Hg'. rewrite map_app in Hk. apply in_app_or in Hk.
        destruct Hk as [Hk | [<- | []]].
        -- apply Hacc; [exact Hk | right; exact Hg'].
        -- simpl. exact (proj1 (List.Forall_forall _ _) Hg g' Hg').
    + apply IH in Hrun; [exact Hrun | | exact Hrest].
      intros k g' Hk Hg'. apply Hacc; [exact Hk | right; exact Hg'].
Qed.

Lemma race_rates_spec (col : list cell) (predictions : list Z) (out : list (cell * Q)) :
  race_loop col predictions (unique col) [] = Ok out ->
  map snd out = map (group_rate col predictions) (qualifying_groups col).
Proof.
  intros H. apply race_loop_spec in H.
  - rewrite H. simpl. rewrite map_map. reflexivity.
  - intros k g [].
  - apply unique_distinct.
Qed.

(** With at most 10 rows no group qualifies and the loops leave their
    accumulators alone. *)
Lemma race_loop_small (col : list cell) (predictions : list Z) (races : list cell) :
  (length col <= 10)%nat ->
  forall acc, race_loop col predictions races acc = Ok acc.
Proof.
  intros Hcol. induction races as [|g races IH]; intros acc; simpl; [reflexivity|].
  fold (group_size col g).
  pose proof (group_size_le col g) as Hle.
  destruct (Nat.ltb_spec 10 (group_size col g)) as [Hlt|_]; [lia | apply IH].
Qed.

Lemma gender_loop_small (col : list cell) (predictions : list Z) (overall : Q)
    (genders : list cell) :
  (length col <= 10)%nat ->
  forall acc, gender_loop col predictions overall genders acc = Ok acc.
Proof.
  intros Hcol. induction genders as [|g genders IH]; intros acc; simpl; [reflexivity|].
  fold (group_size col g).
  pose proof (group_size_le col g) as Hle.
  destruct (Nat.ltb_spec 10 (group_size col g)) as [Hlt|_]; [lia | apply IH].
Qed.

Lemma group_rate_unit (col : list cell) (pred_proba : list Q) (g : cell) :
  unit_interval (group_rate col (binarize pred_proba) g).
Proof.
  unfold group_rate. apply np_mean_bounds, select_mask_Forall, binarize_bits.
Qed.

(** Lines 193-197 never raise, and what they compute. *)
Lemma disparate_impact_of_spec (rr : list (cell * Q)) :
  exists di,
    disparate_impact_of rr = Ok di /\
    ((length rr < 2)%nat -> di = 1%Q) /\
    ((2 <= length rr)%nat ->
     forall mn mx, is_min mn (map snd rr) -> is_max mx (map snd rr) ->
       ((0 < mx)%Q -> (di == mn / mx)%Q) /\ (~ (0 < mx)%Q -> di = 1%Q)).
Proof.
  unfold disparate_impact_of.
  destruct (Nat.leb_spec 2 (length rr)) as [Hge | Hlt].
  - destruct rr as [|[k x] rr]; [simpl in Hge; lia|].
    simpl map. simpl py_max. simpl rbind at 1.
    pose proof (py_min_is_min x (map snd rr)) as Hmin.
    pose proof (py_max_is_max x (map snd rr)) as Hmax.
    destruct (Qlt_bool 0 (py_max_from x (map snd rr))) eqn:E.
    + eexists. split; [reflexivity|]. split; [intros; simpl in *; lia|].
      intros _ mn mx Hmn Hmx.
      pose proof (is_min_unique _ _ _ Hmin Hmn) as Emn.
      pose proof (is_max_unique _ _ _ Hmax Hmx) as Emx.
      apply Qlt_bool_iff in E. split.
      * intros _. rewrite Emn, Emx. reflexivity.
      * intros Hn. exfalso. apply Hn. rewrite <- Emx. exact E.
    + eexists. split; [reflexivity|]. split; [reflexivity|].
      intros _ mn mx Hmn Hmx.
      pose proof (is_max_unique _ _ _ Hmax Hmx) as Emx.
      apply Qlt_bool_false_iff in E. split; [|reflexivity].
      intros Hpos. exfalso. rewrite <- Emx in Hpos.
      exact (Qlt_not_le _ _ Hpos E).
  - exists 1%Q. split; [reflexivity|]. split; [reflexivity | intros; lia].
Qed.

Lemma disparate_impact_of_unit (rr : list (cell * Q)) (di : Q) :
  Forall unit_interval (map snd rr) ->
  disparate_impact_of rr = Ok di ->
  unit_interval di.
Proof.
  intros Hunit. unfold disparate_impact_of.
  destruct (2 <=? length rr)%nat;
    [|intros H; injection H as <-; split; vm_compute; discriminate].
  destruct rr as [|[k x] rr];
    [intros H; discriminate H|].
  simpl map in *. simpl py_max. simpl rbind at 1.
  destruct (py_min_is_min x (map snd rr)) as [[mn [Hmn Emn]] Hmin].
  destruct (py_max_is_max x (map snd rr)) as [[mx [Hmx Emx]] Hmax].
  destruct (Qlt_bool 0 (py_max_from x (map snd rr))) eqn:E;
    [|intros H; injection H as <-; split; vm_compute; discriminate].
  apply Qlt_bool_iff in E. simpl. intros H. injection H as <-.
  pose proof (proj1 (List.Forall_forall _ _) Hunit mn Hmn) as [Hmn0 _].
  split.
  - apply Qle_shift_div_l; [exact E|]. rewrite Qmult_0_l, <- Emn. exact Hmn0.
  - apply Qle_shift_div_r; [exact E|]. rewrite Qmult_1_l.
    apply Qle_trans with x; [apply Hmin | apply Hmax]; left; reflexivity.
Qed.

Lemma audit_body_inv (df X_test : DataFrame) (pred_proba : list Q) (a : audit_locals) :
  audit_body df X_test pred_proba = Ok a ->
  exists td col gcol gd,
    df_loc df (df_index X_test) = Ok td /\
    df_getitem td "race" = Ok col /\
    race_loop col (binarize pred_proba) (unique col) [] = Ok (race_approval_rates a) /\
    disparate_impact_of (race_approval_rates a) = Ok (disparate_impact a) /\
    df_getitem td "gender" = Ok gcol /\
    gender_loop gcol (binarize pred_proba) (np_mean (binarize pred_proba))
                (unique gcol) [] = Ok gd /\
    statistical_parity_of gd = Ok (statistical_parity_diff a).
Proof.
  unfold audit_body, audit_frame. intros H.
  destruct (df_loc df (df_index X_test)) as [td|] eqn:Etd; [simpl in H | discriminate].
  destruct (df_getitem td "race") as [col|] eqn:Ecol; [simpl in H | discriminate].
  destruct (race_loop col (binarize pred_proba) (unique col) []) as [rr|] eqn:Err;
    [simpl in H | discriminate].
  destruct (disparate_impact_of rr) as [di|] eqn:Edi; [simpl in H | discriminate].
  destruct (df_getitem td "gender") as [gcol|] eqn:Egcol; [simpl in H | discriminate].
  destruct (gender_loop gcol (binarize pred_proba) (np_mean (binarize pred_proba))
                        (unique gcol) []) as [gd|] eqn:Egd; [simpl in H | discriminate].
  destruct (statistical_parity_of gd) as [spd|] eqn:Espd; [simpl in H | discriminate].
  injection H as <-. exists td, col, gcol, gd. simpl. repeat split; assumption.
Qed.

(** *** Row selection keeps at most the rows there are *)

Lemma length_positions_from (idx : list Z) (label : Z) : forall i,
  length (positions_from i idx label) = count_occ Z.eq_dec idx label.
Proof.
  induction idx as [|l idx IH]; intros i; simpl; [reflexivity|].
  destruct (Z.eqb_spec l label) as [E|E], (Z.eq_dec l label) as [E'|E'];
    try contradiction; simpl; rewrite IH; reflexivity.
Qed.

Lemma loc_positions_length (idx : list Z) (labels : list Z) : forall ps,
  loc_positions idx labels = Ok ps ->
  length ps = list_sum (map (count_occ Z.eq_dec idx) labels).
Proof.
  induction labels as [|l labels IH]; intros ps H; simpl in *.
  - injection H as <-. reflexivity.
  - pose proof (length_positions_from idx l 0%nat) as Hl.
    destruct (positions_from 0 idx l) as [|p0 ps0] eqn:E; [discriminate|].
    destruct (loc_positions idx labels) as [ps'|]; [simpl in H | discriminate].
    injection H as <-. simpl length. rewrite length_app, (IH ps' eq_refl), <- Hl.
    reflexivity.
Qed.

Lemma sum_count_occ_cons (a : Z) (idx labels : list Z) :
  list_sum (map (count_occ Z.eq_dec (a :: idx)) labels) =
  (list_sum (map (count_occ Z.eq_dec idx) labels) + count_occ Z.eq_dec labels a)%nat.
Proof.
  induction labels as [|l labels IH]; simpl; [reflexivity|].
  simpl in IH. rewrite IH.
  destruct (Z.eq_dec a l) as [E|E], (Z.eq_dec l a) as [E'|E'];
    try congruence; lia.
Qed.

Lemma sum_count_occ_le (idx labels : list Z) :
  List.NoDup labels ->
  (list_sum (map (count_occ Z.eq_dec idx) labels) <= length idx)%nat.
Proof.
  intros Hnd. induction idx as [|a idx IH].
  - induction labels as [|l labels IHl]; simpl; [lia|].
    inversion Hnd; subst. simpl in IHl. apply IHl. assumption.
  - rewrite sum_count_occ_cons. simpl length.
    pose proof (proj1 (List.NoDup_count_occ Z.eq_dec labels) Hnd a). lia.
Qed.

Lemma length_take_positions {A : Type} (l : list A) (ps : list nat) :
  (length (take_positions l ps) <= length ps)%nat.
Proof.
  unfold take_positions. induction ps as [|p ps IH]; simpl; [lia|].
  rewrite length_app. destruct (nth_error l p); simpl; lia.
Qed.

Lemma assoc_str_map {A B : Type} (f : A -> B) (k : string) (l : list (string * A)) :
  assoc_str k (map (fun c => (fst c, f (snd c))) l) = option_map f (assoc_str k l).
Proof.
  induction l as [|[k' v] l IH]; simpl; [reflexivity|].
  destruct (String.eqb k' k); [reflexivity | exact IH].
Qed.

Lemma df_loc_small (df td : DataFrame) (labels : list Z) (name : string)
    (col : list cell) :
  df_loc df labels = Ok td ->
  List.NoDup labels ->
  df_getitem td name = Ok col ->
  (length col <= length (df_index df))%nat.
Proof.
  unfold df_loc, df_getitem. intros Hloc Hnd Hcol.
  destruct (loc_positions (df_index df) labels) as [ps|] eqn:Eps; [|discriminate].
  simpl in Hloc. injection Hloc as <-. simpl in Hcol.
  rewrite (assoc_str_map (fun c => take_positions c ps)) in Hcol.
  destruct (assoc_str name (df_data df)) as [c|]; [|discriminate].
  simpl in Hcol. injection Hcol as <-.
  etransitivity; [apply length_take_positions|].
  rewrite (loc_positions_length _ _ _ Eps). apply sum_count_occ_le, Hnd.
Qed.

(* ===================================================================== *)
(** ** Facts about sorting, zipping and the importance table              *)
(* ===================================================================== *)

Lemma In_firstn_In {A : Type} (n : nat) : forall (l : list A) x,
  In x (firstn n l) -> In x l.
Proof.
  induction n as [|n IH]; intros [|y l] x H; simpl in H; try destruct H.
  - left. assumption.
  - right. apply IH. assumption.
Qed.

Section Sorting.

Context {A : Type} (key : A -> Q).

Lemma insert_desc_perm (x : A) (l : list A) :
  Permutation (insert_desc key x l) (x :: l).
Proof.
  induction l as [|y l IH]; simpl; [reflexivity|].
  destruct (Qlt_bool (key x) (key y)); [|reflexivity].
  rewrite IH. apply perm_swap.
Qed.

Lemma sort_desc_perm (l : list A) : Permutation (sort_desc key l) l.
Proof.
  induction l as [|x l IH]; simpl; [reflexivity|].
  rewrite insert_desc_perm, IH. reflexivity.
Qed.

Lemma insert_desc_sorted (x : A) (l : list A) :
  StronglySorted (descending key) l -> StronglySorted (descending key) (insert_desc key x l).
Proof.
  induction 1 as [|y l Hl IH Hy]; simpl.
  - constructor; constructor.
  - destruct (Qlt_bool (key x) (key y)) eqn:E.
    + apply Qlt_bool_iff in E. constructor; [exact IH|].
      apply List.Forall_forall. intros z Hz.
      apply (Permutation_in _ (insert_desc_perm x l)) in Hz.
      destruct Hz as [<- | Hz].
      * apply Qlt_le_weak, E.
      * exact (proj1 (List.Forall_forall _ _) Hy z Hz).
    + apply Qlt_bool_false_iff in E.
      constructor; [constructor; assumption|].
      constructor; [exact E|].
      apply List.Forall_forall. intros z Hz. unfold descending.
      apply Qle_trans with (key y); [|exact E].
      exact (proj1 (List.Forall_forall _ _) Hy z Hz).
Qed.

Lemma sort_desc_sorted (l : list A) : StronglySorted (descending key) (sort_desc key l).
Proof.
  induction l as [|x l IH]; simpl; [constructor | apply insert_desc_sorted, IH].
Qed.

End Sorting.

Lemma rmap_Ok {A B : Type} (f : A -> result B) (l : list A) : forall out,
  rmap f l = Ok out -> List.Forall2 (fun x y => f x = Ok y) l out.
Proof.
  induction l as [|a l IH]; intros out H; simpl in H.
  - injection H as <-. constructor.
  - destruct (f a) as [b|] eqn:Ea; [simpl in H | discriminate].
    destruct (rmap f l) as [bs|]; [simpl in H | discriminate].
    injection H as <-. constructor; [exact Ea | apply IH; reflexivity].
Qed.

Lemma rmap_Raise {A B : Type} (f : A -> result B) (l : list A) (e : exn) :
  rmap f l = Raise e -> exists x, In x l /\ f x = Raise e.
Proof.
  induction l as [|a l IH]; intros H; simpl in H; [discriminate|].
  destruct (f a) as [b|e'] eqn:Ea; simpl in H.
  - destruct (rmap f l) as [bs|e'']; [discriminate|].
    simpl in H. injection H as ->.
    destruct (IH eq_refl) as [x [Hx Hfx]]. exists x. split; [right|]; assumption.
  - injection H as ->. exists a. split; [left; reflexivity | exact Ea].
Qed.





Lemma select_rows_by_name (feature_name : string) (rows : list (Z * (string * Q))) :
  let mask := map (fun r => String.eqb (fst (snd r)) feature_name) rows in
  match assoc_str feature_name (map snd rows) with
  | Some q =>
      exists label labels importances,
        select_mask (map fst rows) mask = label :: labels /\
        select_mask (map (fun r => Num (snd (snd r))) rows) mask
          = Num q :: importances
  | None => select_mask (map fst rows) mask = []
  end.
Proof.
  induction rows as [|[label [name q]] rows IH]; simpl; [reflexivity|].
  destruct (String.eqb name feature_name); [|exact IH].
  eexists _, _, _. split; reflexivity.
Qed.

(** Lines 280-284 on a table as training builds it. *)
Lemma importance_of_rows (rows : list (Z * (string * Q))) (feature_name : string) :
  importance_of (Some (frame_of_importance_rows rows)) feature_name
  = Ok (trained_importance rows feature_name).
Proof.
  unfold importance_of, trained_importance, frame_of_importance_rows, df_getitem,
    df_filter, df_empty, eq_mask.
  cbn [assoc_str df_data df_index String.eqb Ascii.eqb Bool.eqb rbind map fst snd].
  rewrite map_map. cbn [cell_eqb].
  pose proof (select_rows_by_name feature_name rows) as H. cbn zeta in H.
  destruct (assoc_str feature_name (map snd rows)) as [q|].
  - destruct H as (label & labels & importances & -> & ->). reflexivity.
  - rewrite H. reflexivity.
Qed.

(* ===================================================================== *)
(** ** Facts about floats and about the sort of key factors               *)
(* ===================================================================== *)

Lemma float_ltb_asym (a b : float) :
  float_ltb a b = true -> float_ltb b a = false.
Proof.
  destruct a, b; simpl; try discriminate; try reflexivity.
  rewrite Qlt_bool_iff, Qlt_bool_false_iff. apply Qlt_le_weak.
Qed.

(** Among floats that are without_nan or infinities, [<] is a strict weak
    order. *)
Lemma float_ltb_ge_trans (a b c : float) :
  is_nan b = false ->
  float_ltb a b = false -> float_ltb b c = false -> float_ltb a c = false.
Proof.
  destruct a, b, c; simpl; try discriminate; try reflexivity.
  rewrite !Qlt_bool_false_iff. intros _ H1 H2. eapply Qle_trans; eassumption.
Qed.

Lemma float_ltb_le_trans (a b c : float) :
  is_nan c = false ->
  float_ltb a b = true -> float_ltb c b = false -> float_ltb a c = true.
Proof.
  destruct a, b, c; simpl; try discriminate; try reflexivity.
  rewrite !Qlt_bool_iff, Qlt_bool_false_iff. intros _ H1 H2.
  eapply Qlt_le_trans; eassumption.
Qed.

Lemma float_le_of_ltb (a b : float) :
  is_nan a = false -> is_nan b = false ->
  float_ltb a b = false -> float_le b a.
Proof.
  unfold float_le.
  destruct a, b; simpl; try discriminate; try reflexivity.
  intros _ _ H. apply Qlt_bool_false_iff in H.
  destruct (Qlt_bool q0 q) eqn:E; [reflexivity|].
  apply Qlt_bool_false_iff in E. simpl. apply Qeq_bool_iff.
  apply Qle_antisym; assumption.
Qed.

Lemma float_le_finite (x y : Q) : float_le (Finite x) (Finite y) <-> (x <= y)%Q.
Proof.
  unfold float_le. simpl. rewrite orb_true_iff, Qlt_bool_iff, Qeq_bool_iff. split.
  - intros [H | H]; [apply Qlt_le_weak, H | rewrite H; apply Qle_refl].
  - intros H. destruct (Qlt_le_dec x y) as [Hlt | Hge]; [left; exact Hlt|].
    right. apply Qle_antisym; assumption.
Qed.

Lemma float_le_trans (a b c : float) :
  float_le a b -> float_le b c -> float_le a c.
Proof.
  destruct a, b, c; try (unfold float_le; simpl; congruence).
  rewrite !float_le_finite. apply Qle_trans.
Qed.




Section SortFacts.

Context {A : Type} (key : A -> float).


(** *** Whatever the keys are, the sort rearranges the list *)

Lemma binary_insert_perm (sorted : list A) (pivot : A) :
  Permutation (binary_insert key sorted pivot) (pivot :: sorted).
Proof.
  unfold binary_insert.
  set (k := bisect key _ _ _ _ _).
  rewrite <- (firstn_skipn k sorted) at 3.
  symmetry. apply Permutation_middle.
Qed.

Lemma binarysort_perm (rest : list A) : forall run,
  Permutation (binarysort key run rest) (run ++ rest).
Proof.
  unfold binarysort. induction rest as [|x rest IH]; intros run; simpl.
  - rewrite app_nil_r. reflexivity.
  - rewrite IH, binary_insert_perm. apply Permutation_middle.
Qed.

Lemma sort_forward_perm (l : list A) : Permutation (sort_forward key l) l.
Proof.
  unfold sort_forward. destruct (count_run key l) as [n descends].
  rewrite binarysort_perm.
  transitivity (firstn n l ++ skipn n l); [|rewrite firstn_skipn; reflexivity].
  apply Permutation_app_tail.
  destruct descends; [symmetry; apply Permutation_rev | reflexivity].
Qed.

Lemma list_sort_reverse_perm (l : list A) :
  Permutation (list_sort_reverse key l) l.
Proof.
  unfold list_sort_reverse.
  rewrite <- Permutation_rev, sort_forward_perm, <- Permutation_rev. reflexivity.
Qed.

(** *** Without NaN, a binary insertion is an insertion *)

Lemma insert_ascending_app (x : A) (front back : list A) :
  Forall (fun y => key_lt key x y = false) front ->
  match back with [] => True | y :: _ => key_lt key x y = true end ->
  insert_ascending key x (front ++ back) = front ++ x :: back.
Proof.
  induction 1 as [|y front Hy Hfront IH]; intros Hback;
    cbn [app insert_ascending].
  - destruct back as [|y back]; [reflexivity|].
    cbn [insert_ascending]. rewrite Hback. reflexivity.
  - rewrite Hy, IH; [reflexivity | exact Hback].
Qed.

Lemma insert_ascending_perm (x : A) (l : list A) :
  Permutation (insert_ascending key x l) (x :: l).
Proof.
  induction l as [|y l IH]; simpl; [reflexivity|].
  destruct (key_lt key x y); [reflexivity|].
  rewrite IH. apply perm_swap.
Qed.

Lemma key_lt_le_trans (x y z : A) :
  is_nan (key z) = false -> key_lt key x y = true -> key_lt key z y = false -> key_lt key x z = true.
Proof. apply float_ltb_le_trans. Qed.

Lemma key_ge_trans (x y z : A) :
  is_nan (key y) = false -> key_lt key x y = false -> key_lt key y z = false -> key_lt key x z = false.
Proof. apply float_ltb_ge_trans. Qed.

Lemma insert_ascending_sorted (x : A) (l : list A) :
  without_nan key (x :: l) ->
  StronglySorted (ascending key) l -> StronglySorted (ascending key) (insert_ascending key x l).
Proof.
  intros Hn Hs. induction Hs as [|y l Hs IH Hy]; simpl.
  - constructor; constructor.
  - inversion Hn as [|? ? Hx Hyl]; subst. inversion Hyl as [|? ? Hy' Hl]; subst.
    destruct (key_lt key x y) eqn:E.
    + constructor; [constructor; assumption|].
      constructor; [apply float_ltb_asym, E|].
      apply List.Forall_forall. intros z Hz. unfold ascending.
      apply float_ltb_asym.
      apply (key_lt_le_trans x y z); [|exact E|].
      * exact (proj1 (List.Forall_forall _ _) Hl z Hz).
      * exact (proj1 (List.Forall_forall _ _) Hy z Hz).
    + constructor.
      * apply IH. constructor; assumption.
      * apply List.Forall_forall. intros z Hz.
        apply (Permutation_in _ (insert_ascending_perm x l)) in Hz.
        destruct Hz as [<- | Hz]; [exact E|].
        exact (proj1 (List.Forall_forall _ _) Hy z Hz).
Qed.

(** The search ends at the first position whose element is above the
    pivot. *)
Lemma bisect_spec (pivot : A) (sorted : list A) :
  (forall i j y z, (i <= j)%nat ->
     nth_error sorted i = Some y -> nth_error sorted j = Some z ->
     key_lt key pivot y = true -> key_lt key pivot z = true) ->
  forall fuel l r,
    (r - l <= fuel)%nat -> (l <= r)%nat -> (r <= length sorted)%nat ->
    (forall i y, (i < l)%nat -> nth_error sorted i = Some y -> key_lt key pivot y = false) ->
    (forall i y, (r <= i)%nat -> nth_error sorted i = Some y -> key_lt key pivot y = true) ->
    let k := bisect key fuel pivot sorted l r in
    (k <= length sorted)%nat /\
    (forall i y, (i < k)%nat -> nth_error sorted i = Some y -> key_lt key pivot y = false) /\
    (forall i y, (k <= i)%nat -> nth_error sorted i = Some y -> key_lt key pivot y = true).
Proof.
  intros Hmono. induction fuel as [|fuel IH]; intros l r Hfuel Hlr Hr Hlow Hhigh.
  - assert (l = r) by lia. subst r. simpl. split; [exact Hr|]. split; assumption.
  - cbn [bisect]. destruct (Nat.ltb_spec l r) as [Hlt|Hge].
    + set (p := (l + (r - l) / 2)%nat).
      assert (Hp : (l <= p < r)%nat).
      { subst p.
        assert ((r - l) / 2 < r - l)%nat by (apply Nat.div_lt; lia). lia. }
      destruct (nth_error sorted p) as [x|] eqn:Ex.
      * destruct (key_lt key pivot x) eqn:E.
        -- apply IH; try lia; [exact Hlow|].
           intros i y Hi Hy. exact (Hmono p i x y Hi Ex Hy E).
        -- apply IH; try lia; [|exact Hhigh].
           intros i y Hi Hy.
           destruct (key_lt key pivot y) eqn:Ey; [|reflexivity].
           assert (Hip : (i <= p)%nat) by lia.
           rewrite (Hmono i p y x Hip Hy Ex Ey) in E. discriminate.
      * exfalso. apply nth_error_None in Ex. lia.
    + assert (l = r) by lia. subst r. split; [exact Hr|]. split; assumption.
Qed.

Lemma sorted_nth_error (l : list A) :
  StronglySorted (ascending key) l ->
  forall i j y z, (i < j)%nat ->
    nth_error l i = Some y -> nth_error l j = Some z -> key_lt key z y = false.
Proof.
  induction 1 as [|x l Hs IH Hx]; intros i j y z Hij Hy Hz.
  - destruct i; discriminate.
  - destruct j as [|j]; [lia|]. simpl in Hz. destruct i as [|i]; simpl in Hy.
    + injection Hy as <-. apply nth_error_In in Hz.
      exact (proj1 (List.Forall_forall _ _) Hx z Hz).
    + apply (IH i j); [lia | assumption | assumption].
Qed.

Lemma binary_insert_sorted (sorted : list A) (pivot : A) :
  without_nan key (pivot :: sorted) ->
  StronglySorted (ascending key) sorted ->
  binary_insert key sorted pivot = insert_ascending key pivot sorted.
Proof.
  intros Hn Hs. unfold binary_insert.
  inversion Hn as [|? ? Hpivot Hsorted]; subst.
  assert (Hmono : forall i j y z, (i <= j)%nat ->
            nth_error sorted i = Some y -> nth_error sorted j = Some z ->
            key_lt key pivot y = true -> key_lt key pivot z = true).
  { intros i j y z Hij Hy Hz E.
    destruct (Nat.eq_dec i j) as [->|Hne].
    - rewrite Hy in Hz. injection Hz as <-. exact E.
    - apply (key_lt_le_trans pivot y z); [|exact E|].
      + apply nth_error_In in Hz.
        exact (proj1 (List.Forall_forall _ _) Hsorted z Hz).
      + apply (sorted_nth_error sorted Hs i j); [lia | assumption | assumption]. }
  destruct (bisect_spec pivot sorted Hmono (length sorted) 0 (length sorted))
    as (Hk & Hlow & Hhigh); try lia.
  { intros i y Hi Hy. assert (nth_error sorted i <> None) by congruence.
    apply nth_error_Some in H. lia. }
  set (k := bisect key _ _ _ _ _) in *.
  rewrite <- (firstn_skipn k sorted) at 3.
  symmetry. apply insert_ascending_app.
  - apply List.Forall_forall. intros y Hy.
    apply In_nth_error in Hy. destruct Hy as [i Hi].
    assert (Hik : (i < k)%nat).
    { assert (Hlen : (i < length (firstn k sorted))%nat)
        by (apply nth_error_Some; congruence).
      rewrite length_firstn in Hlen. lia. }
    rewrite nth_error_firstn in Hi.
    destruct (Nat.ltb_spec i k); [|lia].
    exact (Hlow i y Hik Hi).
  - destruct (skipn k sorted) as [|y back] eqn:E; [exact I|].
    apply (Hhigh k y); [lia|].
    rewrite <- (Nat.add_0_r k), <- nth_error_skipn, E. reflexivity.
Qed.

Lemma insert_ascending_numbers (x : A) (l : list A) :
  without_nan key (x :: l) -> without_nan key (insert_ascending key x l).
Proof.
  unfold without_nan. intros H. apply List.Forall_forall. intros y Hy.
  apply (Permutation_in _ (insert_ascending_perm x l)) in Hy.
  exact (proj1 (List.Forall_forall _ _) H y Hy).
Qed.

Lemma insertions_sorted (rest : list A) : forall run,
  without_nan key (run ++ rest) ->
  StronglySorted (ascending key) run ->
  StronglySorted (ascending key)
    (fold_left (fun sorted x => insert_ascending key x sorted) rest run) /\
  binarysort key run rest
  = fold_left (fun sorted x => insert_ascending key x sorted) rest run.
Proof.
  unfold binarysort.
  induction rest as [|x rest IH]; intros run Hn Hs; cbn [fold_left].
  - split; [exact Hs | reflexivity].
  - assert (Hx : without_nan key (x :: run)).
    { unfold without_nan in *. apply List.Forall_forall. intros y Hy.
      apply (proj1 (List.Forall_forall _ _) Hn). apply in_or_app.
      destruct Hy as [<- | Hy]; [right; left; reflexivity | left; exact Hy]. }
    rewrite (binary_insert_sorted run x Hx Hs). apply IH.
    + unfold without_nan in *. apply Forall_app. split.
      * apply insert_ascending_numbers, Hx.
      * apply Forall_app in Hn. destruct Hn as [_ Hn].
        inversion Hn; assumption.
    + apply insert_ascending_sorted; assumption.
Qed.

(** The run that [count_run] finds is what insertions make of it. *)
Lemma run_ascending_insertions (l : list A) : forall previous front,
  without_nan key (front ++ previous :: l) ->
  StronglySorted (ascending key) (front ++ [previous]) ->
  fold_left (fun sorted x => insert_ascending key x sorted)
            (firstn (run_ascending key previous l) l) (front ++ [previous])
  = (front ++ [previous]) ++ firstn (run_ascending key previous l) l.
Proof.
  induction l as [|x l IH]; intros previous front Hn Hs; cbn [run_ascending].
  - cbn. rewrite app_nil_r. reflexivity.
  - destruct (key_lt key x previous) eqn:E.
    + cbn. rewrite app_nil_r. reflexivity.
    + cbn [firstn fold_left].
      assert (Hfront : without_nan key (front ++ [previous]) /\ without_nan key (x :: l)).
      { unfold without_nan in *. apply Forall_app in Hn. destruct Hn as [H1 H2].
        inversion H2; subst. split; [|assumption].
        apply Forall_app. split; [exact H1 | constructor; [assumption | constructor]]. }
      destruct Hfront as [Hfront Hxl].
      assert (Hlast : insert_ascending key x (front ++ [previous])
                      = (front ++ [previous]) ++ [x]).
      { rewrite <- (app_nil_r (front ++ [previous])) at 1.
        apply insert_ascending_app; [|exact I].
        apply List.Forall_forall. intros y Hy. apply in_app_or in Hy.
        destruct Hy as [Hy | [<- | []]]; [|exact E].
        apply (key_ge_trans x previous y); [|exact E|].
        - unfold without_nan in Hfront.
          apply (proj1 (List.Forall_forall _ _) Hfront). apply in_or_app.
          right. left. reflexivity.
        - assert (Hsplit : StronglySorted (ascending key) (front ++ [previous]))
            by exact Hs.
          clear - Hsplit Hy. induction front as [|z front IHf]; [destruct Hy|].
          inversion Hsplit as [|? ? Hrest Hz]; subst.
          destruct Hy as [<- | Hy].
          + apply (proj1 (List.Forall_forall _ _) Hz). apply in_or_app.
            right. left. reflexivity.
          + apply IHf; assumption. }
      rewrite Hlast, <- app_assoc.
      change ([previous] ++ [x]) with ([previous; x]).
      replace (front ++ [previous; x]) with ((front ++ [previous]) ++ [x])
        by (rewrite <- app_assoc; reflexivity).
      rewrite IH.
      * rewrite <- !app_assoc. reflexivity.
      * rewrite <- app_assoc. cbn [app].
        unfold without_nan in *. apply Forall_app in Hn. destruct Hn as [H1 H2].
        inversion H2; subst. apply Forall_app. split; [exact H1|].
        constructor; assumption.
      * rewrite <- Hlast. apply insert_ascending_sorted; [|exact Hs].
        unfold without_nan in *. inversion Hxl; subst.
        constructor; assumption.
Qed.

Lemma run_descending_insertions (l : list A) : forall previous back,
  fold_left (fun sorted x => insert_ascending key x sorted)
            (firstn (run_descending key previous l) l) (previous :: back)
  = rev (firstn (run_descending key previous l) l) ++ previous :: back.
Proof.
  induction l as [|x l IH]; intros previous back; cbn [run_descending].
  - reflexivity.
  - destruct (key_lt key x previous) eqn:E; [|reflexivity].
    cbn [firstn fold_left insert_ascending rev]. rewrite E, IH, <- app_assoc.
    reflexivity.
Qed.

Lemma fold_insertions_sorted (l : list A) : forall run,
  without_nan key (run ++ l) ->
  StronglySorted (ascending key) run ->
  StronglySorted (ascending key)
    (fold_left (fun sorted x => insert_ascending key x sorted) l run).
Proof. intros run Hn Hs. apply (insertions_sorted l run Hn Hs). Qed.

Lemma sort_forward_insertions (l : list A) :
  without_nan key l -> sort_forward key l = insertion_sort key l.
Proof.
  intros Hn. unfold sort_forward, insertion_sort.
  destruct l as [|x0 [|x1 l]]; [reflexivity | reflexivity |].
  cbn [count_run].
  assert (H0 : without_nan key [x0]).
  { unfold without_nan in *. inversion Hn; subst. constructor; [assumption | constructor]. }
  assert (S0 : StronglySorted (ascending key) [x0]) by (constructor; constructor).
  destruct (key_lt key x1 x0) eqn:E.
  - set (n := run_descending key x1 l).
    change (firstn (2 + n) (x0 :: x1 :: l)) with (x0 :: x1 :: firstn n l).
    change (skipn (2 + n) (x0 :: x1 :: l)) with (skipn n l).
    assert (Erun : rev (x0 :: x1 :: firstn n l)
                   = fold_left (fun sorted x => insert_ascending key x sorted)
                               (x1 :: firstn n l) [x0]).
    { cbn [fold_left insert_ascending rev]. rewrite E.
      subst n. rewrite run_descending_insertions, <- !app_assoc. reflexivity. }
    rewrite Erun.
    assert (Hrun : without_nan key ([x0] ++ x1 :: firstn n l)).
    { unfold without_nan in *. cbn [app].
      inversion Hn as [|? ? Hx0 Hrest]; subst.
      inversion Hrest as [|? ? Hx1 Hl]; subst.
      constructor; [assumption|]. constructor; [assumption|].
      apply List.Forall_forall. intros y Hy. apply In_firstn_In in Hy.
      exact (proj1 (List.Forall_forall _ _) Hl y Hy). }
    destruct (insertions_sorted (skipn n l)
                (fold_left (fun sorted x => insert_ascending key x sorted)
                           (x1 :: firstn n l) [x0])) as [_ ->].
    + unfold without_nan in *. apply Forall_app. split.
      * apply List.Forall_forall. intros y Hy.
        assert (Hperm : forall (r : list A) s,
                  Permutation
                    (fold_left (fun sorted x => insert_ascending key x sorted) r s)
                    (s ++ r)).
        { induction r as [|z r IHr]; intros s; cbn [fold_left].
          - rewrite app_nil_r. reflexivity.
          - rewrite IHr, insert_ascending_perm. apply Permutation_middle. }
        apply (Permutation_in _ (Hperm _ _)) in Hy.
        exact (proj1 (List.Forall_forall _ _) Hrun y Hy).
      * inversion Hn as [|? ? Hx0 Hrest]; subst.
        inversion Hrest as [|? ? Hx1 Hl]; subst.
        apply List.Forall_forall. intros y Hy.
        apply (proj1 (List.Forall_forall _ _) Hl).
        rewrite <- (firstn_skipn n l). apply in_or_app. right. exact Hy.
    + apply fold_insertions_sorted; assumption.
    + rewrite <- fold_left_app. cbn [app].
      change (x0 :: x1 :: l) with ([x0] ++ x1 :: l).
      rewrite <- (firstn_skipn n l) at 3. reflexivity.
  - set (n := run_ascending key x1 l).
    change (firstn (2 + n) (x0 :: x1 :: l)) with (x0 :: x1 :: firstn n l).
    change (skipn (2 + n) (x0 :: x1 :: l)) with (skipn n l).
    assert (S1 : StronglySorted (ascending key) ([x0] ++ [x1])).
    { constructor; [constructor; constructor|].
      constructor; [exact E | constructor]. }
    assert (Erun : x0 :: x1 :: firstn n l
                   = fold_left (fun sorted x => insert_ascending key x sorted)
                               (firstn n l) ([x0] ++ [x1])).
    { subst n. rewrite run_ascending_insertions; [reflexivity | exact Hn | exact S1]. }
    rewrite Erun.
    assert (Hrun : without_nan key (([x0] ++ [x1]) ++ firstn n l)).
    { unfold without_nan in *. cbn [app].
      inversion Hn as [|? ? Hx0 Hrest]; subst.
      inversion Hrest as [|? ? Hx1 Hl]; subst.
      constructor; [assumption|]. constructor; [assumption|].
      apply List.Forall_forall. intros y Hy. apply In_firstn_In in Hy.
      exact (proj1 (List.Forall_forall _ _) Hl y Hy). }
    destruct (insertions_sorted (skipn n l)
                (fold_left (fun sorted x => insert_ascending key x sorted)
                           (firstn n l) ([x0] ++ [x1]))) as [_ ->].
    + rewrite <- Erun. unfold without_nan in *.
      change (x0 :: x1 :: firstn n l) with ([x0; x1] ++ firstn n l).
      rewrite <- app_assoc, firstn_skipn. exact Hn.
    + apply fold_insertions_sorted; assumption.
    + rewrite <- fold_left_app.
      cbn [fold_left insert_ascending app]. rewrite E.
      rewrite firstn_skipn. reflexivity.
Qed.

(** *** Read backwards, the insertion sort is the stable sort *)

Lemma insert_stable_above (x : A) (l : list A) :
  Forall (fun z => key_lt key x z = true) l -> insert_stable key x l = l ++ [x].
Proof.
  induction 1 as [|z l Hz Hl IH]; cbn [insert_stable app]; [reflexivity|].
  rewrite Hz, IH. reflexivity.
Qed.

Lemma insert_stable_last (x y : A) (l : list A) :
  key_lt key x y = false ->
  insert_stable key x (l ++ [y]) = insert_stable key x l ++ [y].
Proof.
  intros E. induction l as [|z l IH]; cbn [insert_stable app].
  - rewrite E. reflexivity.
  - destruct (key_lt key x z); [rewrite IH|]; reflexivity.
Qed.

Lemma rev_insert_ascending (x : A) (l : list A) :
  without_nan key (x :: l) ->
  StronglySorted (ascending key) l ->
  rev (insert_ascending key x l) = insert_stable key x (rev l).
Proof.
  intros Hn Hs. induction Hs as [|y l Hs IH Hy]; [reflexivity|].
  inversion Hn as [|? ? Hx Hyl]; subst. inversion Hyl as [|? ? Hy' Hl]; subst.
  cbn [insert_ascending rev]. destruct (key_lt key x y) eqn:E.
  - cbn [rev]. symmetry. rewrite insert_stable_above; [reflexivity|].
    apply Forall_app. split; [|constructor; [exact E | constructor]].
    apply List.Forall_forall. intros z Hz. apply in_rev in Hz.
    apply (key_lt_le_trans x y z); [|exact E|].
    + exact (proj1 (List.Forall_forall _ _) Hl z Hz).
    + exact (proj1 (List.Forall_forall _ _) Hy z Hz).
  - cbn [rev]. rewrite IH, insert_stable_last; [reflexivity | exact E |].
    constructor; assumption.
Qed.

Lemma insertion_sort_snoc (l : list A) (x : A) :
  insertion_sort key (l ++ [x]) = insert_ascending key x (insertion_sort key l).
Proof. unfold insertion_sort. rewrite fold_left_app. reflexivity. Qed.

Lemma insertion_sort_sorted (l : list A) :
  without_nan key l -> StronglySorted (ascending key) (insertion_sort key l).
Proof.
  intros Hn. apply fold_insertions_sorted; [exact Hn | constructor].
Qed.

Lemma insertion_sort_perm (l : list A) : Permutation (insertion_sort key l) l.
Proof.
  induction l as [|x l IH] using rev_ind; [reflexivity|].
  rewrite insertion_sort_snoc, insert_ascending_perm, IH.
  apply Permutation_cons_append.
Qed.

Lemma rev_insertion_sort (l : list A) :
  without_nan key l ->
  rev (insertion_sort key (rev l)) = stable_sort_reverse key l.
Proof.
  induction l as [|x l IH]; intros Hn; [reflexivity|].
  inversion Hn as [|? ? Hx Hl]; subst.
  cbn [rev stable_sort_reverse].
  rewrite insertion_sort_snoc, rev_insert_ascending, (IH Hl); [reflexivity| |].
  - constructor; [exact Hx|].
    unfold without_nan in *. apply List.Forall_forall. intros y Hy.
    apply (Permutation_in _ (insertion_sort_perm _)) in Hy. apply in_rev in Hy.
    exact (proj1 (List.Forall_forall _ _) Hl y Hy).
  - apply insertion_sort_sorted.
    unfold without_nan in *. apply List.Forall_forall. intros y Hy. apply in_rev in Hy.
    exact (proj1 (List.Forall_forall _ _) Hl y Hy).
Qed.

(** When no key is NaN, [list.sort] is the stable sort. *)
Lemma list_sort_reverse_stable (l : list A) :
  without_nan key l -> list_sort_reverse key l = stable_sort_reverse key l.
Proof.
  intros Hn. unfold list_sort_reverse.
  rewrite sort_forward_insertions; [apply rev_insertion_sort, Hn|].
  unfold without_nan in *. apply List.Forall_forall. intros y Hy. apply in_rev in Hy.
  exact (proj1 (List.Forall_forall _ _) Hn y Hy).
Qed.

(** *** The stable sort *)

Lemma insert_stable_perm (x : A) (l : list A) :
  Permutation (insert_stable key x l) (x :: l).
Proof.
  induction l as [|y l IH]; cbn [insert_stable]; [reflexivity|].
  destruct (key_lt key x y); [|reflexivity].
  rewrite IH. apply perm_swap.
Qed.

Lemma stable_sort_reverse_perm (l : list A) :
  Permutation (stable_sort_reverse key l) l.
Proof.
  induction l as [|x l IH]; cbn [stable_sort_reverse]; [reflexivity|].
  rewrite insert_stable_perm, IH. reflexivity.
Qed.

Lemma insert_stable_sorted (x : A) (l : list A) :
  without_nan key (x :: l) ->
  StronglySorted (fun a b => float_le (key b) (key a)) l ->
  StronglySorted (fun a b => float_le (key b) (key a)) (insert_stable key x l).
Proof.
  intros Hn Hs. induction Hs as [|y l Hs IH Hy]; cbn [insert_stable].
  - constructor; constructor.
  - inversion Hn as [|? ? Hx Hyl]; subst. inversion Hyl as [|? ? Hy' Hl]; subst.
    destruct (key_lt key x y) eqn:E.
    + constructor; [apply IH; constructor; assumption|].
      apply List.Forall_forall. intros z Hz.
      apply (Permutation_in _ (insert_stable_perm x l)) in Hz.
      destruct Hz as [<- | Hz].
      * apply float_le_of_ltb; [assumption | assumption |].
        apply float_ltb_asym, E.
      * exact (proj1 (List.Forall_forall _ _) Hy z Hz).
    + assert (Hxy : float_le (key y) (key x))
        by (apply float_le_of_ltb; assumption).
      constructor; [constructor; assumption|].
      constructor; [exact Hxy|].
      apply List.Forall_forall. intros z Hz.
      apply (float_le_trans _ (key y)); [|exact Hxy].
      exact (proj1 (List.Forall_forall _ _) Hy z Hz).
Qed.

Lemma stable_sort_reverse_sorted (l : list A) :
  without_nan key l ->
  StronglySorted (fun a b => float_le (key b) (key a)) (stable_sort_reverse key l).
Proof.
  induction l as [|x l IH]; intros Hn; cbn [stable_sort_reverse]; [constructor|].
  inversion Hn as [|? ? Hx Hl]; subst.
  apply insert_stable_sorted; [|apply IH, Hl].
  constructor; [exact Hx|].
  unfold without_nan in *. apply List.Forall_forall. intros y Hy.
  apply (Permutation_in _ (stable_sort_reverse_perm l)) in Hy.
  exact (proj1 (List.Forall_forall _ _) Hl y Hy).
Qed.



End SortFacts.

(* ===================================================================== *)
(** ** Properties of the engine                                           *)
(* ===================================================================== *)

Section Properties.

Context {sk : Sklearn}.

(** The method of lines 175-228 as one case distinction on its [try]
    block. *)
Lemma calculate_bias_metrics_eq (df X_test : DataFrame) (pred_proba : list Q)
    (w : World) :
  _calculate_bias_metrics df X_test pred_proba w =
  match audit_body df X_test pred_proba with
  | Ok a =>
      (Ok tt, mkWorld (with_bias_metrics (self w) (report_of a)) (heap w)
                      (log w ++ [Log_bias_metrics (disparate_impact a)]))
  | Raise e =>
      (Ok tt, mkWorld (with_bias_metrics (self w) neutral_report) (heap w)
                      (log w ++ [Warn_bias_metrics e]))
  end.
Proof.
  unfold _calculate_bias_metrics, try_except, bind, lift, set_bias_metrics,
    get_self, put_self, logger, bind.
  destruct (audit_body df X_test pred_proba); reflexivity.
Qed.

(** C1 (as amended): for an audit that completes, the reported disparate
    impact is min(rate)/max(rate) over the rates of the qualifying race
    groups when at least two groups qualify and the largest rate is
    positive, it is 1 when the largest rate is 0, and it is 1 when fewer
    than two groups qualify. *)
Theorem disparate_impact_reported (df X_test : DataFrame) (pred_proba : list Q)
    (w : World) (a : audit_locals) (td : DataFrame) (col : list cell) :
  audit_body df X_test pred_proba = Ok a ->
  df_loc df (df_index X_test) = Ok td ->
  df_getitem td "race" = Ok col ->
  let rates := map (group_rate col (binarize pred_proba)) (qualifying_groups col) in
  let w' := snd (_calculate_bias_metrics df X_test pred_proba w) in
  exists di,
    reported K_DI w' = Some di /\
    ((2 <= length rates)%nat ->
     (exists mn mx, is_min mn rates /\ is_max mx rates) /\
     forall mn mx, is_min mn rates -> is_max mx rates ->
       ((0 < mx)%Q -> (di == mn / mx)%Q) /\ ((mx == 0)%Q -> di = 1%Q)) /\
    ((length rates < 2)%nat -> di = 1%Q).
Proof.
  intros Ha Htd Hcol rates w'. subst w'.
  rewrite calculate_bias_metrics_eq, Ha.
  destruct (audit_body_inv _ _ _ _ Ha)
    as (td' & col' & gcol & gd & Htd' & Hcol' & Hloop & Hdi & _).
  rewrite Htd in Htd'. injection Htd' as <-.
  rewrite Hcol in Hcol'. injection Hcol' as <-.
  pose proof (race_rates_spec _ _ _ Hloop) as Hrates. fold rates in Hrates.
  assert (Hlen : length (race_approval_rates a) = length rates).
  { rewrite <- Hrates. symmetry. apply length_map. }
  destruct (disparate_impact_of_spec (race_approval_rates a))
    as (di & Hdi' & Hfew & Hmany).
  rewrite Hdi in Hdi'. injection Hdi' as Edi.
  exists (disparate_impact a). split; [reflexivity|]. rewrite Edi. split.
  - intros H2. split.
    + destruct rates as [|x rest]; [simpl in H2; lia|].
      exists (py_min_from x rest), (py_max_from x rest).
      split; [apply py_min_is_min | apply py_max_is_max].
    + intros mn mx Hmn Hmx. rewrite <- Hlen in H2.
      rewrite <- Hrates in Hmn, Hmx.
      destruct (Hmany H2 mn mx Hmn Hmx) as [Hpos Hzero]. split; [exact Hpos|].
      intros E. apply Hzero. rewrite E. apply Qlt_irrefl.
  - intros H2. apply Hfew. rewrite Hlen. exact H2.
Qed.

(** C5 (as amended): the reported disparate impact always lies in the
    closed interval [0, 1], and it is exactly 1 unless the audit found at
    least two qualifying race groups. *)
Theorem disparate_impact_range (df X_test : DataFrame) (pred_proba : list Q)
    (w : World) :
  let w' := snd (_calculate_bias_metrics df X_test pred_proba w) in
  exists di,
    reported K_DI w' = Some di /\
    (0 <= di)%Q /\ (di <= 1)%Q /\
    ((forall td col,
        df_loc df (df_index X_test) = Ok td ->
        df_getitem td "race" = Ok col ->
        (length (qualifying_groups col) < 2)%nat) ->
     di = 1%Q).
Proof.
  intros w'. subst w'. rewrite calculate_bias_metrics_eq.
  destruct (audit_body df X_test pred_proba) as [a|e] eqn:Ha.
  - destruct (audit_body_inv _ _ _ _ Ha)
      as (td & col & gcol & gd & Htd & Hcol & Hloop & Hdi & _).
    pose proof (race_rates_spec _ _ _ Hloop) as Hrates.
    assert (Hunit : unit_interval (disparate_impact a)).
    { apply (disparate_impact_of_unit (race_approval_rates a)); [|exact Hdi].
      rewrite Hrates. apply List.Forall_forall. intros r Hr.
      apply in_map_iff in Hr. destruct Hr as [g [<- _]]. apply group_rate_unit. }
    exists (disparate_impact a). split; [reflexivity|].
    split; [apply Hunit|]. split; [apply Hunit|].
    intros Hfew. specialize (Hfew td col Htd Hcol).
    destruct (disparate_impact_of_spec (race_approval_rates a))
      as (di & Hdi' & Hone & _).
    rewrite Hdi in Hdi'. injection Hdi' as ->. apply Hone.
    rewrite <- (length_map snd), Hrates, length_map. exact Hfew.
  - exists 1%Q. split; [reflexivity|].
    split; [vm_compute; discriminate|]. split; [vm_compute; discriminate|].
    reflexivity.
Qed.

(** *** What a training run leaves behind *)

Ltac step_through H :=
  repeat match type of H with
  | context [match ?r with _ => _ end] =>
      match r with
      | context [match _ with _ => _ end] => fail 1
      | _ => destruct r eqn:?; cbn [rbind self heap log] in H; try discriminate H
      end
  end.

Lemma fit_and_evaluate_inv (df : DataFrame) (w w1 : World)
    (x : DataFrame * list Q * Q) :
  fit_and_evaluate df w = (Ok x, w1) ->
  exists X y X_train X_test y_train y_test rf gb fitted perf table pred roc avg,
    importance_frame (feature_cols_of df) avg = Ok table /\
    df_select df (feature_cols_of df) = Ok X /\
    df_getitem df "approved" = Ok y /\
    train_test_split X y = inr (X_train, X_test, y_train, y_test) /\
    rf_fit rf_new X_train y_train = inr rf /\
    gb_fit gb_new X_train y_train = inr gb /\
    scaler_fit (scaler (self w)) X_train = inr fitted /\
    x = (X_test, pred, roc) /\
    self w1 = mkEngine (Some (rf, gb)) fitted (feature_names (self w)) perf
                       (bias_metrics (self w)) (Some (fresh (dom (heap w)))) /\
    heap w1 = <[fresh (dom (heap w)) := table]> (heap w) /\
    log w1 = log w ++ [Log_training_started].
Proof.
  unfold fit_and_evaluate, bind, lift, logger, get_self, put_self, alloc, ret, call.
  cbn [self heap log]. intros H. step_through H.
  injection H as <- <-. subst.
  do 14 eexists. cbn [self heap log].
  repeat split; try eassumption; reflexivity.
Qed.

Lemma train_model_eq (df : DataFrame) (w : World) :
  train_model df w =
  match fit_and_evaluate df w with
  | (Ok (X_test, pred, roc), w1) =>
      let w2 := snd (_calculate_bias_metrics df X_test pred w1) in
      (Ok tt, mkWorld (self w2) (heap w2) (log w2 ++ [Log_training_completed roc]))
  | (Raise e, w1) => (Raise e, w1)
  end.
Proof.
  unfold train_model, bind.
  destruct (fit_and_evaluate df w) as [[[[X_test pred] roc]|e] w1]; [|reflexivity].
  rewrite calculate_bias_metrics_eq.
  destruct (audit_body df X_test pred); reflexivity.
Qed.

(** After a run that returned, the engine holds the two fitted
    classifiers, the scaler fitted on the training split, a bias report
    and a reference to a freshly allocated importance table. *)
Lemma train_model_inv (df : DataFrame) (w w' : World) :
  train_model df w = (Ok tt, w') ->
  exists X y X_train X_test y_train y_test rf gb fitted perf table pred avg,
    importance_frame (feature_cols_of df) avg = Ok table /\
    train_test_split X y = inr (X_train, X_test, y_train, y_test) /\
    rf_fit rf_new X_train y_train = inr rf /\
    gb_fit gb_new X_train y_train = inr gb /\
    scaler_fit (scaler (self w)) X_train = inr fitted /\
    self w' = mkEngine (Some (rf, gb)) fitted (feature_names (self w)) perf
                       (bias_metrics (self w')) (Some (fresh (dom (heap w)))) /\
    bias_metrics (self w') =
      match audit_body df X_test pred with
      | Ok a => report_of a
      | Raise _ => neutral_report
      end /\
    heap w' = <[fresh (dom (heap w)) := table]> (heap w).
Proof.
  rewrite train_model_eq.
  destruct (fit_and_evaluate df w) as [[[[X_test pred] roc]|e] w1] eqn:Efit;
    [|discriminate].
  destruct (fit_and_evaluate_inv _ _ _ _ Efit)
    as (X & y & X_train & X_test' & y_train & y_test & rf & gb & fitted & perf
        & table & pred' & roc' & avg & Htable & _ & _ & Hsplit & Hrf & Hgb & Hsc
        & Hx & Hself & Hheap & _).
  injection Hx as -> -> ->.
  intros H. injection H as <-.
  exists X, y, X_train, X_test', y_train, y_test, rf, gb, fitted, perf, table, pred',
    avg.
  rewrite !calculate_bias_metrics_eq.
  repeat split; try assumption.
  - destruct (audit_body df X_test' pred'); cbn [self heap log snd];
      unfold with_bias_metrics; rewrite Hself; reflexivity.
  - destruct (audit_body df X_test' pred'); reflexivity.
  - destruct (audit_body df X_test' pred'); cbn [self heap log snd]; exact Hheap.
Qed.

(** C4: the audit method returns normally on every input; when its
    computation raises, the exception is caught, a warning is logged and
    the neutral report is stored; demographic data of at most 10 rows
    (empty and single-row data among them) leave disparate impact 1,
    parity difference 0 and 0 groups analysed; and a training run that got
    as far as the audit always returns. *)
Theorem bias_audit_never_raises (df X_test : DataFrame) (pred_proba : list Q)
    (w : World) :
  let r := _calculate_bias_metrics df X_test pred_proba w in
  fst r = Ok tt /\
  (forall e, audit_body df X_test pred_proba = Raise e ->
     bias_metrics (self (snd r)) = neutral_report /\
     log (snd r) = log w ++ [Warn_bias_metrics e] /\
     reported K_DI (snd r) = Some 1%Q /\
     reported K_SPD (snd r) = Some 0%Q /\
     reported K_GROUPS (snd r) = Some 0%Q) /\
  ((length (df_index df) <= 10)%nat -> List.NoDup (df_index X_test) ->
     reported K_DI (snd r) = Some 1%Q /\
     reported K_SPD (snd r) = Some 0%Q /\
     reported K_GROUPS (snd r) = Some 0%Q) /\
  (forall x w0 w1,
     fit_and_evaluate df w0 = (Ok x, w1) ->
     exists w2, train_model df w0 = (Ok tt, w2)).
Proof.
  intros r. subst r. rewrite calculate_bias_metrics_eq.
  split; [destruct (audit_body df X_test pred_proba); reflexivity|].
  split; [intros e He; rewrite He; repeat split; reflexivity|].
  split.
  - intros Hlen Hnd.
    destruct (audit_body df X_test pred_proba) as [a|e] eqn:Ha;
      [|repeat split; reflexivity].
    destruct (audit_body_inv _ _ _ _ Ha)
      as (td & col & gcol & gd & Htd & Hcol & Hloop & Hdi & Hgcol & Hgloop & Hspd).
    pose proof (df_loc_small _ _ _ _ _ Htd Hnd Hcol) as Hc.
    pose proof (df_loc_small _ _ _ _ _ Htd Hnd Hgcol) as Hg.
    rewrite race_loop_small in Hloop by lia. injection Hloop as Hrr.
    rewrite gender_loop_small in Hgloop by lia. injection Hgloop as Hgd.
    rewrite <- Hrr in Hdi. injection Hdi as Hdi.
    rewrite <- Hgd in Hspd. injection Hspd as Hspd.
    unfold reported. cbn. rewrite <- Hdi, <- Hspd, <- Hrr.
    repeat split; reflexivity.
  - intros x w0 w1 Hfit. rewrite train_model_eq, Hfit.
    destruct x as [[X_test' pred'] roc]. eexists. reflexivity.
Qed.

(** C6 (as amended): the equal-opportunity entry is never computed from
    the data: it is the constant 0.05 in the report of an audit that
    completes and the constant 0 in the neutral report of an audit that
    failed; the report has exactly the four metric entries, none of which
    marks the value as unimplemented.  The same holds for the report a
    training run stores. *)
Theorem equal_opportunity_placeholder (df X_test : DataFrame)
    (pred_proba : list Q) (w : World) :
  let w' := snd (_calculate_bias_metrics df X_test pred_proba w) in
  map fst (bias_metrics (self w')) = [K_DI; K_SPD; K_EOD; K_GROUPS] /\
  (forall a, audit_body df X_test pred_proba = Ok a ->
             reported K_EOD w' = Some 0.05%Q) /\
  (forall e, audit_body df X_test pred_proba = Raise e ->
             reported K_EOD w' = Some 0%Q) /\
  (forall w0 w1,
     train_model df w0 = (Ok tt, w1) ->
     map fst (bias_metrics (self w1)) = [K_DI; K_SPD; K_EOD; K_GROUPS] /\
     (reported K_EOD w1 = Some 0.05%Q \/ reported K_EOD w1 = Some 0%Q)).
Proof.
  intros w'. subst w'. rewrite calculate_bias_metrics_eq.
  split; [destruct (audit_body df X_test pred_proba); reflexivity|].
  split; [intros a ->; reflexivity|].
  split; [intros e ->; reflexivity|].
  intros w0 w1 Htrain.
  destruct (train_model_inv _ _ _ Htrain)
    as (X & y & X_train & X_test' & y_train & y_test & rf & gb & fitted & perf
        & table & pred' & avg & _ & _ & _ & _ & _ & _ & Hbm & _).
  unfold reported. rewrite Hbm.
  destruct (audit_body df X_test' pred'); split; try reflexivity;
    [left | right]; reflexivity.
Qed.

(** *** Inference *)

Lemma trained_importance_table (df : DataFrame) (w0 w : World) :
  train_model df w0 = (Ok tt, w) ->
  exists l rows,
    feature_importance (self w) = Some l /\
    heap w !! l = Some (frame_of_importance_rows rows) /\
    importance_table w = Some (frame_of_importance_rows rows).
Proof.
  intros H.
  destruct (train_model_inv _ _ _ H)
    as (X & y & X_train & X_test & y_train & y_test & rf & gb & fitted & perf
        & table & pred & avg & Htable & _ & _ & _ & _ & Hself & _ & Hheap).
  unfold importance_frame in Htable.
  destruct (length (feature_cols_of df) =? length avg)%nat; [|discriminate].
  injection Htable as <-.
  eexists _, _. unfold importance_table. rewrite Hself, Hheap. cbn.
  rewrite lookup_insert_eq, lookup_total_insert_eq. repeat split; reflexivity.
Qed.

(** With a model in place, what [predict_probability] can raise: what a
    collaborator raised, an index error on a collaborator's output, or
    the pandas error for more values than names. *)
Lemma predict_probability_trained (w : World) (features : list Q)
    (m : RandomForestClassifier * GradientBoostingClassifier) :
  model (self w) = Some m ->
  forall e, predict_probability features w = Raise e ->
            (exists msg, e = LibraryError msg) \/ (exists msg, e = IndexError msg)
            \/ (e = ValueError "columns passed do not match the passed data" /\
                (length features > length (feature_names (self w)))%nat).
Proof.
  intros Hm e. unfold predict_probability. rewrite Hm. destruct m as [rf gb].
  unfold scale_features, frame_of_row, positive_class, call, at01.
  rewrite length_firstn.
  destruct (Nat.eqb_spec (Nat.min (length features) (length (feature_names (self w))))
                         (length features)) as [Hlen|Hlen];
    [|cbn [rbind]; intros H; injection H as <-; right; right; split;
      [reflexivity | lia]].
  cbn [rbind].
  repeat match goal with
         | |- context [match ?r with _ => _ end] =>
             match r with
             | context [match _ with _ => _ end] => fail 1
             | _ => destruct r; cbn [rbind]
             end
         end;
    intros H; try discriminate H; injection H as <-; eauto.
Qed.

Lemma importance_of_errors (table : option DataFrame) (feature_name : string) (e : exn) :
  importance_of table feature_name = Raise e -> e <> NotTrained.
Proof.
  unfold importance_of, df_getitem, iloc0, float_of_cell.
  destruct table as [t|]; [|discriminate].
  repeat match goal with
         | |- context [match ?r with _ => _ end] =>
             match r with
             | context [match _ with _ => _ end] => fail 1
             | _ => destruct r; cbn [rbind]
             end
         end;
    intros H; try discriminate H; injection H as <-; discriminate.
Qed.

Lemma contribution_of_inv (table : option DataFrame) (feature_name : string)
    (value : Q) (c : contribution) :
  contribution_of table (feature_name, value) = Ok c ->
  exists importance,
    importance_of table feature_name = Ok importance /\
    c = mkContribution (_humanize_feature_name feature_name) value
          (float_mul importance (normalized_value_of feature_name value))
          importance.
Proof.
  unfold contribution_of.
  destruct (importance_of table feature_name) as [importance|]; [|discriminate].
  cbn [rbind]. intros H. injection H as <-. exists importance. split; reflexivity.
Qed.

(** The inference methods read the engine object and the table it refers
    to, nothing else. *)
Lemma predict_probability_ext (w1 w2 : World) (features : list Q) :
  self w1 = self w2 ->
  predict_probability features w1 = predict_probability features w2.
Proof.
  intros H. unfold predict_probability, scale_features. rewrite H. reflexivity.
Qed.

Lemma generate_explanation_ext (w1 w2 : World) (applicant_data : list Q) :
  self w1 = self w2 ->
  importance_table w1 = importance_table w2 ->
  generate_explanation applicant_data w1 = generate_explanation applicant_data w2.
Proof.
  intros Hs Ht. unfold generate_explanation.
  rewrite (predict_probability_ext w1 w2 _ Hs), Hs, Ht. reflexivity.
Qed.

Lemma predict_probability_accepted (w : World) (features : list Q)
    (rf : RandomForestClassifier) (gb : GradientBoostingClassifier)
    (features_scaled : list (list Q)) (a b : Q) :
  model (self w) = Some (rf, gb) ->
  scale_features features w = Ok features_scaled ->
  positive_class (rf_predict_proba rf (NdArray features_scaled)) = Ok a ->
  positive_class (gb_predict_proba gb (NdArray features_scaled)) = Ok b ->
  predict_probability features w = Ok ((a + b) / 2)%Q.
Proof.
  intros Hm Hs Ha Hb. unfold predict_probability. rewrite Hm, Hs. cbn [rbind].
  rewrite Ha. cbn [rbind]. rewrite Hb. reflexivity.
Qed.

(** C2: the decision and confidence are read off the probability by the
    five bands, first match from the top: at least 0.70, at least 0.55,
    at least 0.40, at least 0.25, and below; every explanation carries the
    band of its approval probability. *)
Theorem decision_band_rows (p : Q) :
  ((0.7 <= p)%Q -> decision_band p = ("APPROVED", "High")) /\
  ((0.55 <= p)%Q /\ (p < 0.7)%Q -> decision_band p = ("APPROVED", "Medium")) /\
  ((0.4 <= p)%Q /\ (p < 0.55)%Q -> decision_band p = ("CONDITIONAL", "Medium")) /\
  ((0.25 <= p)%Q /\ (p < 0.4)%Q -> decision_band p = ("CONDITIONAL", "Low")) /\
  ((p < 0.25)%Q -> decision_band p = ("DENIED", "High")) /\
  decision_band 0.7%Q = ("APPROVED", "High") /\
  decision_band 0.6999%Q = ("APPROVED", "Medium") /\
  In (decision_band p)
     [ ("APPROVED", "High"); ("APPROVED", "Medium"); ("CONDITIONAL", "Medium");
       ("CONDITIONAL", "Low"); ("DENIED", "High") ] /\
  (forall applicant_data (w : World) e,
     generate_explanation applicant_data w = Ok e ->
     (decision e, confidence e) = decision_band (approval_probability e)).
Proof.
  assert (Hno : forall t, (p < t)%Q -> Qle_bool t p = false).
  { intros t Ht. destruct (Qle_bool t p) eqn:E; [|reflexivity].
    apply Qle_bool_iff in E. exfalso. exact (Qlt_not_le _ _ Ht E). }
  assert (Hyes : forall t, (t <= p)%Q -> Qle_bool t p = true).
  { intros t Ht. apply Qle_bool_iff. exact Ht. }
  assert (Hlt : forall a b, (a < b)%Q -> (p < a)%Q -> (p < b)%Q).
  { intros a b Hab Hpa. eapply Qlt_trans; eassumption. }
  assert (Hexpl : forall applicant_data (w : World) e,
             generate_explanation applicant_data w = Ok e ->
             (decision e, confidence e) = decision_band (approval_probability e)).
  { intros applicant_data w e. unfold generate_explanation.
    destruct (model (self w)); [|discriminate].
    destruct (predict_probability applicant_data w) as [q|]; [|discriminate].
    cbn [rbind]. destruct (decision_band q) as [d c] eqn:Eband.
    destruct (rmap _ _); [|discriminate].
    cbn [rbind]. intros H. injection H as <-. cbn. symmetry. exact Eband. }
  assert (Hfive : In (decision_band p)
                     [ ("APPROVED", "High"); ("APPROVED", "Medium");
                       ("CONDITIONAL", "Medium"); ("CONDITIONAL", "Low");
                       ("DENIED", "High") ]).
  { unfold decision_band.
    destruct (Qle_bool 0.7 p); [left; reflexivity|].
    destruct (Qle_bool 0.55 p); [right; left; reflexivity|].
    destruct (Qle_bool 0.4 p); [right; right; left; reflexivity|].
    destruct (Qle_bool 0.25 p); [right; right; right; left; reflexivity|].
    right; right; right; right; left; reflexivity. }
  unfold decision_band. repeat split; try exact Hexpl; try exact Hfive.
  - intros H. rewrite (Hyes _ H). reflexivity.
  - intros [H1 H2]. rewrite (Hno _ H2), (Hyes _ H1). reflexivity.
  - intros [H1 H2].
    rewrite (Hno 0.7%Q), (Hno _ H2), (Hyes _ H1); [reflexivity|].
    apply (Hlt 0.55%Q); [reflexivity | exact H2].
  - intros [H1 H2].
    rewrite (Hno 0.7%Q), (Hno 0.55%Q), (Hno _ H2), (Hyes _ H1); [reflexivity| |].
    + apply (Hlt 0.4%Q); [reflexivity | exact H2].
    + apply (Hlt 0.4%Q); [reflexivity | exact H2].
  - intros H.
    rewrite (Hno 0.7%Q), (Hno 0.55%Q), (Hno 0.4%Q), (Hno _ H); [reflexivity| | |].
    + apply (Hlt 0.25%Q); [reflexivity | exact H].
    + apply (Hlt 0.25%Q); [reflexivity | exact H].
    + apply (Hlt 0.25%Q); [reflexivity | exact H].
Qed.

(** C3: a fused probability is the unweighted mean (a + b) / 2 of the two
    classifiers' positive-class probabilities a and b, both computed on
    the output of the [transform] of the engine's scaler on the one-row
    frame of the vector: whenever [predict_probability] returns, these
    calls were made and returned, and whenever they return, it returns
    the mean.  After a training run the scaler of the engine is the one
    that run fitted on its training split, and the classifiers are the
    two it fitted there. *)
Theorem predict_probability_mean (w : World) (features : list Q) :
  (forall p,
     predict_probability features w = Ok p ->
     exists rf gb feature_df features_scaled a b,
       model (self w) = Some (rf, gb) /\
       frame_of_row features (firstn (length features) (feature_names (self w)))
       = Ok feature_df /\
       scaler_transform (scaler (self w)) feature_df = inr features_scaled /\
       positive_class (rf_predict_proba rf (NdArray features_scaled)) = Ok a /\
       positive_class (gb_predict_proba gb (NdArray features_scaled)) = Ok b /\
       p = ((a + b) / 2)%Q) /\
  (forall rf gb feature_df features_scaled a b,
     model (self w) = Some (rf, gb) ->
     frame_of_row features (firstn (length features) (feature_names (self w)))
     = Ok feature_df ->
     scaler_transform (scaler (self w)) feature_df = inr features_scaled ->
     positive_class (rf_predict_proba rf (NdArray features_scaled)) = Ok a ->
     positive_class (gb_predict_proba gb (NdArray features_scaled)) = Ok b ->
     predict_probability features w = Ok ((a + b) / 2)%Q) /\
  (forall feature_df msg,
     model (self w) <> None ->
     frame_of_row features (firstn (length features) (feature_names (self w)))
     = Ok feature_df ->
     scaler_transform (scaler (self w)) feature_df = inl msg ->
     predict_probability features w = Raise (LibraryError msg)) /\
  (forall df w0,
     train_model df w0 = (Ok tt, w) ->
     exists X y X_train X_test y_train y_test rf gb,
       model (self w) = Some (rf, gb) /\
       train_test_split X y = inr (X_train, X_test, y_train, y_test) /\
       scaler_fit (scaler (self w0)) X_train = inr (scaler (self w)) /\
       rf_fit rf_new X_train y_train = inr rf /\
       gb_fit gb_new X_train y_train = inr gb).
Proof.
  split; [|split; [|split]].
  - intros p. unfold predict_probability, scale_features.
    destruct (model (self w)) as [[rf gb]|]; [|discriminate].
    destruct (frame_of_row _ _) as [feature_df|] eqn:Eframe; cbn [rbind];
      [|discriminate].
    unfold call at 1.
    destruct (scaler_transform (scaler (self w)) feature_df)
      as [msg|features_scaled] eqn:Escaled; cbn [rbind]; [discriminate|].
    destruct (positive_class (rf_predict_proba rf (NdArray features_scaled)))
      as [a|] eqn:Ea; cbn [rbind]; [|discriminate].
    destruct (positive_class (gb_predict_proba gb (NdArray features_scaled)))
      as [b|] eqn:Eb; cbn [rbind]; [|discriminate].
    intros H. injection H as <-.
    exists rf, gb, feature_df, features_scaled, a, b.
    repeat split; assumption || reflexivity.
  - intros rf gb feature_df features_scaled a b Hm Hframe Hscaled Ha Hb.
    apply (predict_probability_accepted _ _ rf gb features_scaled); try assumption.
    unfold scale_features. rewrite Hframe. cbn [rbind]. rewrite Hscaled. reflexivity.
  - intros feature_df msg Hm Hframe Hscaled. unfold predict_probability, scale_features.
    destruct (model (self w)) as [[rf gb]|]; [|contradiction].
    rewrite Hframe. cbn [rbind]. rewrite Hscaled. reflexivity.
  - intros df w0 Htrain.
    destruct (train_model_inv _ _ _ Htrain)
      as (X & y & X_train & X_test & y_train & y_test & rf & gb & fitted & perf
          & table & pred & avg & _ & Hsplit & Hrf & Hgb & Hsc & Hself & _).
    exists X, y, X_train, X_test, y_train, y_test, rf, gb.
    rewrite Hself. cbn. repeat split; assumption.
Qed.

(** A training run that raised left the engine object as it was, or had
    stored its two fitted classifiers (line 146) before it raised. *)
Lemma train_model_raised (df : DataFrame) (w w' : World) (e : exn) :
  train_model df w = (Raise e, w') ->
  self w' = self w \/ exists rf gb, model (self w') = Some (rf, gb).
Proof.
  rewrite train_model_eq.
  destruct (fit_and_evaluate df w) as [[[[X_test pred] roc]|e'] w1] eqn:Efit;
    [discriminate|].
  intros H. injection H as -> ->. revert Efit.
  unfold fit_and_evaluate, bind, lift, logger, get_self, put_self, alloc, ret, call.
  cbn [self heap log]. intros H. step_through H;
    injection H as <- <-; cbn [self heap log];
    first [ left; destruct (self w); reflexivity
          | right; eexists _, _; reflexivity ].
Qed.

(** C7: both inference methods raise the not-trained error, and return
    no score, exactly when no model is stored: so on a freshly constructed
    engine, and never after a training run that returned.  A training run
    that raised left the engine object as it was or had stored its two
    classifiers: in the second case the methods no longer raise the
    not-trained error. *)
Theorem not_trained_guard (features : list Q) :
  (forall w : World,
     (model (self w) = None <-> predict_probability features w = Raise NotTrained) /\
     (model (self w) = None <-> generate_explanation features w = Raise NotTrained)) /\
  predict_probability features new_world = Raise NotTrained /\
  generate_explanation features new_world = Raise NotTrained /\
  (forall df (w w' : World),
     train_model df w = (Ok tt, w') ->
     model (self w') <> None /\
     predict_probability features w' <> Raise NotTrained /\
     generate_explanation features w' <> Raise NotTrained) /\
  (forall df (w w' : World) e,
     train_model df w = (Raise e, w') ->
     self w' = self w \/
     (exists rf gb, model (self w') = Some (rf, gb)) /\
     predict_probability features w' <> Raise NotTrained /\
     generate_explanation features w' <> Raise NotTrained).
Proof.
  assert (Hnone : forall w : World,
             model (self w) = None ->
             predict_probability features w = Raise NotTrained /\
             generate_explanation features w = Raise NotTrained).
  { intros w Hm. unfold generate_explanation, predict_probability.
    rewrite Hm. split; reflexivity. }
  assert (Hsome : forall (w : World) m,
             model (self w) = Some m ->
             predict_probability features w <> Raise NotTrained /\
             generate_explanation features w <> Raise NotTrained).
  { intros w m Hm.
    assert (Hp : predict_probability features w <> Raise NotTrained).
    { intros Hp.
      destruct (predict_probability_trained _ _ _ Hm _ Hp)
        as [[msg E] | [[msg E] | [E _]]]; discriminate E. }
    split; [exact Hp|].
    unfold generate_explanation. rewrite Hm.
    destruct (predict_probability features w) as [p|e] eqn:Ep.
    - cbn [rbind]. destruct (decision_band p) as [d c].
      destruct (rmap _ _) as [fc|e] eqn:Er; [discriminate|].
      cbn [rbind]. intros H. injection H as ->.
      destruct (rmap_Raise _ _ _ Er) as [[n v] [_ Hc]].
      unfold contribution_of in Hc.
      destruct (importance_of (importance_table w) n) as [i|e] eqn:Ei;
        [discriminate|].
      cbn [rbind] in Hc. injection Hc as ->.
      exact (importance_of_errors _ _ _ Ei eq_refl).
    - cbn [rbind]. intros H. injection H as ->. apply Hp. reflexivity. }
  split.
  { intros w. destruct (model (self w)) as [m|] eqn:Hm.
    - destruct (Hsome w m Hm) as [Hp Hg].
      split; (split; [discriminate | intros H; contradiction]).
    - destruct (Hnone w Hm) as [Hp Hg].
      split; (split; [intros _; assumption | reflexivity]). }
  split; [apply Hnone; reflexivity|].
  split; [apply Hnone; reflexivity|].
  split.
  - intros df w w' Htrain.
    destruct (train_model_inv _ _ _ Htrain)
      as (X & y & X_train & X_test & y_train & y_test & rf & gb & fitted & perf
          & table & pred & avg & _ & _ & _ & _ & _ & Hself & _).
    assert (Hm : model (self w') = Some (rf, gb)) by (rewrite Hself; reflexivity).
    split; [rewrite Hm; discriminate | exact (Hsome w' _ Hm)].
  - intros df w w' e Htrain.
    destruct (train_model_raised _ _ _ _ Htrain) as [Hsame | (rf & gb & Hm)];
      [left; exact Hsame | right].
    split; [exists rf, gb; exact Hm | exact (Hsome w' _ Hm)].
Qed.

(** An impact is NaN only through the logarithm of line 290. *)
Lemma positive_income_impact (table : option DataFrame) (feature_name : string)
    (value : Q) (c : contribution) :
  contribution_of table (feature_name, value) = Ok c ->
  (In feature_name [ "monthly_income"; "total_alternative_income" ] -> (0 < value)%Q) ->
  exists impact, c_impact c = Finite impact.
Proof.
  intros Hc Hpos. destruct (contribution_of_inv _ _ _ _ Hc) as [importance [_ ->]].
  cbn [c_impact]. unfold normalized_value_of.
  destruct (String.eqb feature_name "credit_score"); [eexists; reflexivity|].
  destruct (existsb _ _) eqn:Eincome; [|eexists; reflexivity].
  assert (Hv : (0 < value)%Q).
  { apply Hpos. apply existsb_exists in Eincome. destruct Eincome as [n [Hn En]].
    apply String.eqb_eq in En. subst n. exact Hn. }
  unfold np_log.
  assert (Hq : Qlt_bool 0 (value / 1000) = true).
  { apply Qlt_bool_iff. apply Qlt_shift_div_l; [reflexivity|].
    rewrite Qmult_0_l. exact Hv. }
  rewrite Hq. unfold float_div. change (Qeq_bool 3 0) with false. cbv iota.
  unfold float_min2. destruct (float_ltb _ _); eexists; reflexivity.
Qed.

Lemma positive_incomes_without_nan (applicant_data : list Q) (w : World)
    (fc : list contribution) :
  feature_contributions applicant_data w = Ok fc ->
  positive_incomes applicant_data w ->
  without_nan c_impact fc.
Proof.
  unfold feature_contributions, positive_incomes, without_nan.
  intros Hfc. apply rmap_Ok in Hfc. revert Hfc.
  generalize (combine (feature_names (self w)) applicant_data). intros pairs Hfc.
  induction Hfc as [|[n v] c pairs fc Hc Hrest IH]; intros Hpos; [constructor|].
  inversion Hpos as [|? ? Hnv Hpairs]; subst.
  constructor; [|apply IH, Hpairs].
  destruct (positive_income_impact _ _ _ _ Hc Hnv) as [impact ->]. reflexivity.
Qed.



(** C10: [get_feature_importance] never raises.  It returns a reference
    to a table allocated by the call: the empty table with the columns
    'feature' and 'importance' when nothing was trained (as on a new
    engine), otherwise a table with the contents of the stored one;
    whatever the caller then writes into the returned table, the engine
    object, the table it refers to and the results of inference stay as
    they were.  After a training run the engine refers to an allocated
    table. *)
Theorem get_feature_importance_copy (w : World) :
  let r := get_feature_importance w in
  exists l,
    fst r = Ok l /\
    self (snd r) = self w /\
    heap w !! l = None /\
    (feature_importance (self w) = None ->
       heap (snd r) !! l = Some empty_importance_frame) /\
    df_columns empty_importance_frame = ["feature"; "importance"] /\
    df_len empty_importance_frame = 0%nat /\
    feature_importance (self new_world) = None /\
    (forall l0 t,
       feature_importance (self w) = Some l0 ->
       heap w !! l0 = Some t ->
       l <> l0 /\
       heap (snd r) !! l = Some t /\
       forall t',
         let w' := caller_mutates l t' (snd r) in
         self w' = self w /\
         heap w' !! l0 = Some t /\
         importance_table w' = importance_table w /\
         forall features,
           predict_probability features w' = predict_probability features w /\
           generate_explanation features w' = generate_explanation features w) /\
    (forall df w0,
       train_model df w0 = (Ok tt, w) ->
       exists l0 t, feature_importance (self w) = Some l0 /\ heap w !! l0 = Some t).
Proof.
  intros r. exists (fresh (dom (heap w))).
  assert (Hfresh : heap w !! fresh (dom (heap w)) = None).
  { apply not_elem_of_dom, is_fresh. }
  assert (Hr : r = (Ok (fresh (dom (heap w))),
                    mkWorld (self w)
                      (<[fresh (dom (heap w)) :=
                           match feature_importance (self w) with
                           | None => empty_importance_frame
                           | Some l0 => heap w !!! l0
                           end]> (heap w))
                      (log w))).
  { subst r. unfold get_feature_importance, bind, get_self, alloc.
    destruct (feature_importance (self w)); reflexivity. }
  rewrite Hr. cbn [fst snd self heap].
  split; [reflexivity|]. split; [reflexivity|]. split; [exact Hfresh|].
  split; [intros ->; apply lookup_insert_eq|].
  split; [reflexivity|]. split; [reflexivity|]. split; [reflexivity|].
  split.
  - intros l0 t Hl0 Ht.
    assert (Hne : fresh (dom (heap w)) <> l0).
    { intros E. rewrite E in Hfresh. congruence. }
    split; [exact Hne|].
    split; [rewrite Hl0, lookup_insert_eq, (lookup_total_correct _ _ _ Ht); reflexivity|].
    intros t'. unfold caller_mutates. cbn [self heap log].
    assert (Htab : importance_table
                     (mkWorld (self w)
                        (<[fresh (dom (heap w)) := t']>
                           (<[fresh (dom (heap w)) := heap w !!! l0]> (heap w)))
                        (log w))
                   = importance_table w).
    { unfold importance_table. cbn [self heap]. rewrite Hl0.
      rewrite !lookup_total_insert_ne by exact Hne. reflexivity. }
    rewrite Hl0. split; [reflexivity|].
    split; [rewrite !lookup_insert_ne by exact Hne; exact Ht|].
    split; [exact Htab|].
    intros features. split.
    + apply predict_probability_ext. reflexivity.
    + apply generate_explanation_ext; [reflexivity | exact Htab].
  - intros df w0 Htrain.
    destruct (trained_importance_table _ _ _ Htrain) as (l0 & rows & Hl0 & Hh & _).
    eexists _, _. split; eassumption.
Qed.

End Properties.

(* ===================================================================== *)
(** ** The engine run on the sample data                                  *)
(* ===================================================================== *)

Import Samples.

Lemma trained_run :
  train_model (sk := Collaborators.checked) applicants new_world = (Ok tt, trained).
Proof. vm_compute. reflexivity. Qed.

Lemma full_vector_incomes :
  positive_incomes (sk := Collaborators.checked) full_vector trained.
Proof.
  unfold positive_incomes.
  replace (feature_names (self trained)) with schema by (vm_compute; reflexivity).
  cbn [combine schema full_vector].
  repeat (constructor;
          [cbn [fst snd];
           first [ intros _; reflexivity
                 | intros [H | [H | []]]; discriminate H ]|]).
  constructor.
Qed.

Lemma trained_narrow_run :
  train_model (sk := Collaborators.checked) narrow_applicants new_world
  = (Ok tt, trained_narrow).
Proof. vm_compute. reflexivity. Qed.

(** C1, witness: two qualifying groups, the first with rate 1 and the
    second with rate 0: the reported ratio is 0 / 1. *)
Lemma disparate_impact_reported_witness :
  exists a td col,
    audit_body two_groups held_out one_group_positive = Ok a /\
    df_loc two_groups (df_index held_out) = Ok td /\
    df_getitem td "race" = Ok col /\
    let rates := map (group_rate col (binarize one_group_positive))
                     (qualifying_groups col) in
    let w' := snd (_calculate_bias_metrics (sk := Collaborators.checked)
                     two_groups held_out one_group_positive new_world) in
    exists di,
      reported K_DI w' = Some di /\
      ((2 <= length rates)%nat ->
       (exists mn mx, is_min mn rates /\ is_max mx rates) /\
       forall mn mx, is_min mn rates -> is_max mx rates ->
         ((0 < mx)%Q -> (di == mn / mx)%Q) /\ ((mx == 0)%Q -> di = 1%Q)) /\
      ((length rates < 2)%nat -> di = 1%Q).
Proof.
  eexists _, _, _.
  split; [vm_compute; reflexivity|].
  split; [vm_compute; reflexivity|].
  split; [vm_compute; reflexivity|].
  eapply (disparate_impact_reported (sk := Collaborators.checked));
    vm_compute; reflexivity.
Defined.

(** C1, counterexample: two qualifying groups whose rates are both 0, so
    the largest rate is 0, and the reported disparate impact is 1, not 0. *)
Lemma max_rate_zero_reports_one :
  let col := map Num (repeat 1%Q 11 ++ repeat 2%Q 11) in
  let rates := map (group_rate col (binarize all_negative)) (qualifying_groups col) in
  let w' := snd (_calculate_bias_metrics (sk := Collaborators.checked)
                   two_groups held_out all_negative new_world) in
  (exists td, df_loc two_groups (df_index held_out) = Ok td /\
              df_getitem td "race" = Ok col) /\
  length rates = 2%nat /\
  is_max 0%Q rates /\
  reported K_DI w' = Some 1%Q /\
  ~ (1 == 0)%Q.
Proof.
  cbv zeta. split; [eexists; split; vm_compute; reflexivity|].
  split; [vm_compute; reflexivity|].
  split.
  - split.
    + exists (0 # 11)%Q. split; [vm_compute; left; reflexivity | reflexivity].
    + vm_compute. intros r [<- | [<- | []]]; discriminate.
  - split; [vm_compute; reflexivity | discriminate].
Qed.

(** C5, witness: a single applicant, so fewer than two groups qualify
    and the reported ratio is 1. *)
Lemma disparate_impact_range_witness :
  let w' := snd (_calculate_bias_metrics (sk := Collaborators.checked)
                   single_row single_held_out [0.9%Q] new_world) in
  (forall td col,
     df_loc single_row (df_index single_held_out) = Ok td ->
     df_getitem td "race" = Ok col ->
     (length (qualifying_groups col) < 2)%nat) /\
  reported K_DI w' = Some 1%Q.
Proof.
  cbv zeta.
  assert (Hfew : forall td col,
             df_loc single_row (df_index single_held_out) = Ok td ->
             df_getitem td "race" = Ok col ->
             (length (qualifying_groups col) < 2)%nat).
  { intros td col Htd. vm_compute in Htd. injection Htd as <-.
    intros Hcol. vm_compute in Hcol. injection Hcol as <-.
    vm_compute. lia. }
  split; [exact Hfew|].
  destruct (disparate_impact_range (sk := Collaborators.checked)
              single_row single_held_out [0.9%Q] new_world)
    as (di & Hdi & _ & _ & Hone).
  rewrite Hdi, (Hone Hfew). reflexivity.
Defined.

(** C5, counterexample: two qualifying groups, one never predicted
    positive: the reported disparate impact is 0, outside (0, 1]. *)
Lemma disparate_impact_zero :
  let col := map Num (repeat 1%Q 11 ++ repeat 2%Q 11) in
  let w' := snd (_calculate_bias_metrics (sk := Collaborators.checked)
                   two_groups held_out one_group_positive new_world) in
  (exists td, df_loc two_groups (df_index held_out) = Ok td /\
              df_getitem td "race" = Ok col) /\
  length (qualifying_groups col) = 2%nat /\
  exists di, reported K_DI w' = Some di /\ (di == 0)%Q /\ ~ (0 < di)%Q.
Proof.
  cbv zeta. split; [eexists; split; vm_compute; reflexivity|].
  split; [vm_compute; reflexivity|].
  eexists. split; [vm_compute; reflexivity|].
  split; [reflexivity | discriminate].
Qed.

(** C2, witness: a probability inside the second band. *)
Lemma decision_band_rows_witness :
  ((0.55 <= 0.6)%Q /\ (0.6 < 0.7)%Q) /\
  decision_band 0.6%Q = ("APPROVED", "Medium").
Proof.
  assert (H : (0.55 <= 0.6)%Q /\ (0.6 < 0.7)%Q)
    by (split; [discriminate | reflexivity]).
  split; [exact H|].
  exact (proj1 (proj2 (decision_band_rows (sk := Collaborators.checked) 0.6%Q)) H).
Defined.

(** C3, witness: on the trained sample engine the scaler's [transform]
    returns the row of the full vector, the two classifiers give 0.9 and
    0.7 for it, and the fused probability is their mean. *)
Lemma predict_probability_mean_witness :
  exists rf gb feature_df features_scaled,
    model (self trained) = Some (rf, gb) /\
    frame_of_row full_vector
                 (firstn (length full_vector) (feature_names (self trained)))
    = Ok feature_df /\
    scaler_transform (scaler (self trained)) feature_df = inr features_scaled /\
    positive_class (rf_predict_proba rf (NdArray features_scaled)) = Ok 0.9%Q /\
    positive_class (gb_predict_proba gb (NdArray features_scaled)) = Ok 0.7%Q /\
    predict_probability full_vector trained = Ok ((0.9 + 0.7) / 2)%Q.
Proof.
  destruct (frame_of_row full_vector
              (firstn (length full_vector) (feature_names (self trained))))
    as [feature_df|x] eqn:Hframe; [|vm_compute in Hframe; discriminate Hframe].
  exists (Some 10%nat : @RandomForestClassifier Collaborators.checked),
         (Some 10%nat : @GradientBoostingClassifier Collaborators.checked),
         feature_df, [full_vector].
  assert (Hm : model (self trained) = Some (Some 10%nat, Some 10%nat))
    by (vm_compute; reflexivity).
  assert (Hs : scaler_transform (scaler (self trained)) feature_df
               = inr [full_vector]).
  { vm_compute in Hframe. injection Hframe as <-. vm_compute. reflexivity. }
  assert (Ha : positive_class
                 (rf_predict_proba
                    (Some 10%nat : @RandomForestClassifier Collaborators.checked)
                    (NdArray [full_vector]))
               = Ok 0.9%Q) by (vm_compute; reflexivity).
  assert (Hb : positive_class
                 (gb_predict_proba
                    (Some 10%nat : @GradientBoostingClassifier Collaborators.checked)
                    (NdArray [full_vector]))
               = Ok 0.7%Q) by (vm_compute; reflexivity).
  split; [exact Hm|]. split; [reflexivity|]. split; [exact Hs|].
  split; [exact Ha|]. split; [exact Hb|].
  exact (proj1 (proj2 (predict_probability_mean trained full_vector))
               _ _ _ _ _ _ Hm Hframe Hs Ha Hb).
Defined.

(** C4, witness: a single applicant; and demographics without the race
    column, where the audit raises and is caught. *)
Lemma bias_audit_never_raises_witness :
  ((length (df_index single_row) <= 10)%nat /\
   List.NoDup (df_index single_held_out) /\
   let r := _calculate_bias_metrics (sk := Collaborators.checked)
              single_row single_held_out [0.9%Q] new_world in
   fst r = Ok tt /\
   reported K_DI (snd r) = Some 1%Q /\
   reported K_SPD (snd r) = Some 0%Q /\
   reported K_GROUPS (snd r) = Some 0%Q) /\
  (audit_body no_columns no_columns [] = Raise (KeyError (Str "race")) /\
   let r := _calculate_bias_metrics (sk := Collaborators.checked)
              no_columns no_columns [] new_world in
   fst r = Ok tt /\
   bias_metrics (self (snd r)) = neutral_report /\
   log (snd r) = log (new_world (sk := Collaborators.checked))
                   ++ [Warn_bias_metrics (KeyError (Str "race"))]).
Proof.
  split.
  - assert (Hlen : (length (df_index single_row) <= 10)%nat) by (simpl; lia).
    assert (Hnd : List.NoDup (df_index single_held_out))
      by (constructor; [intros [] | constructor]).
    split; [exact Hlen|]. split; [exact Hnd|].
    pose proof (bias_audit_never_raises (sk := Collaborators.checked)
                  single_row single_held_out [0.9%Q] new_world) as T.
    cbv zeta in T |- *.
    destruct T as (T1 & _ & T3 & _). split; [exact T1|]. exact (T3 Hlen Hnd).
  - assert (He : audit_body no_columns no_columns [] = Raise (KeyError (Str "race")))
      by (vm_compute; reflexivity).
    split; [exact He|].
    pose proof (bias_audit_never_raises (sk := Collaborators.checked)
                  no_columns no_columns [] new_world) as T.
    cbv zeta in T |- *.
    destruct T as (T1 & T2 & _). split; [exact T1|].
    destruct (T2 _ He) as (B & L & _). split; [exact B | exact L].
Defined.

(** C6, witness: the report of the trained sample engine and the report
    of an audit that failed. *)
Lemma equal_opportunity_placeholder_witness :
  train_model (sk := Collaborators.checked) applicants new_world = (Ok tt, trained) /\
  map fst (bias_metrics (self trained)) = [K_DI; K_SPD; K_EOD; K_GROUPS] /\
  (reported K_EOD trained = Some 0.05%Q \/ reported K_EOD trained = Some 0%Q) /\
  audit_body no_columns no_columns [] = Raise (KeyError (Str "race")) /\
  reported K_EOD
    (snd (_calculate_bias_metrics (sk := Collaborators.checked)
            no_columns no_columns [] new_world)) = Some 0%Q.
Proof.
  assert (Hrun : train_model (sk := Collaborators.checked) applicants new_world
                 = (Ok tt, trained)) by (vm_compute; reflexivity).
  assert (He : audit_body no_columns no_columns [] = Raise (KeyError (Str "race")))
    by (vm_compute; reflexivity).
  pose proof (equal_opportunity_placeholder (sk := Collaborators.checked)
                applicants held_out [] new_world) as T.
  cbv zeta in T. destruct T as (_ & _ & _ & T4).
  destruct (T4 _ _ Hrun) as [K E].
  pose proof (equal_opportunity_placeholder (sk := Collaborators.checked)
                no_columns no_columns [] new_world) as U.
  cbv zeta in U. destruct U as (_ & _ & U3 & _).
  split; [exact Hrun|]. split; [exact K|]. split; [exact E|].
  split; [exact He | exact (U3 _ He)].
Defined.

(** C6, counterexample: the report a training run stored consists of the
    four metric entries and nothing else, so no entry marks the
    equal-opportunity value as unimplemented; and the value is not one
    fixed constant: 0.05 here, 0 in the report of a failed audit. *)
Lemma report_carries_no_flag :
  let report := bias_metrics (self trained) in
  train_model (sk := Collaborators.checked) applicants new_world = (Ok tt, trained) /\
  ~ (exists key value,
        In (key, value) report /\ ~ In key [K_DI; K_SPD; K_EOD; K_GROUPS]) /\
  reported K_EOD trained = Some 0.05%Q /\
  reported K_EOD
    (snd (_calculate_bias_metrics (sk := Collaborators.checked)
            no_columns no_columns [] new_world)) = Some 0%Q /\
  ~ (0.05 == 0)%Q.
Proof.
  cbv zeta. split; [vm_compute; reflexivity|]. split.
  - intros (key & value & Hin & Hout). apply Hout.
    vm_compute in Hin.
    destruct Hin as [E | [E | [E | [E | []]]]]; injection E as <- _.
    + left. reflexivity.
    + right. left. reflexivity.
    + right. right. left. reflexivity.
    + right. right. right. left. reflexivity.
  - split; [vm_compute; reflexivity|].
    split; [vm_compute; reflexivity | discriminate].
Qed.

(** C7, witness: the sample engine before and after its training run. *)
Lemma not_trained_guard_witness :
  model (self (new_world (sk := Collaborators.checked))) = None /\
  predict_probability full_vector (new_world (sk := Collaborators.checked))
    = Raise NotTrained /\
  train_model (sk := Collaborators.checked) applicants new_world = (Ok tt, trained) /\
  model (self trained) <> None /\
  predict_probability full_vector trained <> Raise NotTrained /\
  generate_explanation full_vector trained <> Raise NotTrained.
Proof.
  assert (Hnone : model (self (new_world (sk := Collaborators.checked))) = None)
    by reflexivity.
  assert (Hrun : train_model (sk := Collaborators.checked) applicants new_world
                 = (Ok tt, trained)) by (vm_compute; reflexivity).
  destruct (not_trained_guard (sk := Collaborators.checked) full_vector)
    as (T1 & _ & _ & T4 & _).
  split; [exact Hnone|]. split; [exact (proj1 (proj1 (T1 _)) Hnone)|].
  split; [exact Hrun|]. exact (T4 _ _ _ Hrun).
Defined.

(** C7, counterexample: a training run on the sample applicants raises
    in the ROC-AUC computation, which comes after the classifiers are
    stored: training has not completed, and on the engine it leaves
    behind the two methods return a score and an explanation, not the
    not-trained error. *)
Lemma half_trained_returns_score :
  train_model (sk := OneClassHeldOut.raising) applicants new_world
  = (Raise (LibraryError "Only one class present in y_true"),
     MoreSamples.half_trained) /\
  predict_probability full_vector MoreSamples.half_trained
  = Ok ((0.9 + 0.7) / 2)%Q /\
  exists e,
    generate_explanation full_vector MoreSamples.half_trained = Ok e /\
    (approval_probability e == 0.8)%Q /\
    decision e = "APPROVED".
Proof.
  split; [vm_compute; reflexivity|]. split; [vm_compute; reflexivity|].
  eexists. split; [vm_compute; reflexivity|]. split; reflexivity.
Defined.





(** C10, witness: the table handed out by the trained sample engine is
    a new one, and overwriting it leaves the stored table alone; a new
    engine hands out the empty table. *)
Lemma get_feature_importance_copy_witness :
  (exists l0 t l,
     feature_importance (self trained) = Some l0 /\
     heap trained !! l0 = Some t /\
     fst (get_feature_importance trained) = Ok l /\
     l <> l0 /\
     heap (snd (get_feature_importance trained)) !! l = Some t /\
     importance_table
       (caller_mutates l empty_importance_frame (snd (get_feature_importance trained)))
     = Some t) /\
  (exists l,
     fst (get_feature_importance (new_world (sk := Collaborators.checked))) = Ok l /\
     heap (snd (get_feature_importance (new_world (sk := Collaborators.checked)))) !! l
     = Some empty_importance_frame).
Proof.
  split.
  - destruct (get_feature_importance_copy (sk := Collaborators.checked) trained)
      as (l & Hl & _ & _ & _ & _ & _ & _ & Hcopy & Htrained).
    destruct (Htrained applicants new_world trained_run) as (l0 & t & Hl0 & Ht).
    destruct (Hcopy l0 t Hl0 Ht) as (Hne & Hsame & Hmut).
    destruct (Hmut empty_importance_frame) as (_ & _ & Htab & _).
    exists l0, t, l. repeat split; try assumption.
    rewrite Htab. unfold importance_table. rewrite Hl0.
    rewrite (lookup_total_correct _ _ _ Ht). reflexivity.
  - destruct (get_feature_importance_copy (sk := Collaborators.checked) new_world)
      as (l & Hl & _ & _ & Hempty & _).
    exists l. split; [exact Hl | apply Hempty; reflexivity].
Defined.

(* ===================================================================== *)
(** ** Further properties of the audit                                    *)
(* ===================================================================== *)

Lemma gender_loop_spec (col : list cell) (predictions : list Z) (overall : Q)
    (genders : list cell) :
  forall acc out,
    gender_loop col predictions overall genders acc = Ok out ->
    out = acc ++ map (fun g => Qabs (group_rate col predictions g - overall))
                     (List.filter (fun g => (10 <? group_size col g)%nat) genders).
Proof.
  induction genders as [|g genders IH]; intros acc out Hrun; simpl in *.
  - injection Hrun as <-. rewrite app_nil_r. reflexivity.
  - fold (group_size col g) in *.
    destruct (10 <? group_size col g)%nat.
    + unfold bool_index in Hrun.
      destruct (length predictions =? length (eq_mask col g))%nat; [|discriminate].
      simpl in Hrun. apply IH in Hrun. rewrite Hrun, <- app_assoc. reflexivity.
    + apply IH, Hrun.
Qed.

Lemma length_eq_mask (col : list cell) (g : cell) :
  length (eq_mask col g) = length col.
Proof. unfold eq_mask. apply length_map. Qed.

Lemma length_binarize (pred_proba : list Q) :
  length (binarize pred_proba) = length pred_proba.
Proof. unfold binarize. apply length_map. Qed.

(** A qualifying group makes the race loop index the predictions; with a
    mask of another length that is an [IndexError]. *)
Lemma race_loop_mismatch (col : list cell) (predictions : list Z) (races : list cell) :
  length predictions <> length col ->
  (exists g, In g races /\ (10 < group_size col g)%nat) ->
  forall acc,
    race_loop col predictions races acc
    = Raise (IndexError "boolean index did not match indexed array").
Proof.
  intros Hlen. induction races as [|g races IH]; intros [g' [Hin Hq]] acc;
    [destruct Hin|]. simpl. fold (group_size col g).
  destruct (Nat.ltb_spec 10 (group_size col g)) as [Hg|Hg].
  - unfold bool_index. rewrite length_eq_mask.
    destruct (Nat.eqb_spec (length predictions) (length col)); [contradiction|].
    reflexivity.
  - apply IH. destruct Hin as [<- | Hin]; [lia|]. exists g'. split; assumption.
Qed.

Lemma positions_from_nil (idx : list Z) (label : Z) : forall i,
  positions_from i idx label = [] <-> ~ In label idx.
Proof.
  induction idx as [|l idx IH]; intros i; simpl.
  - split; [intros _ [] | reflexivity].
  - destruct (Z.eqb_spec l label) as [E|E].
    + split; [discriminate | intros H; exfalso; apply H; left; exact E].
    + rewrite IH. split; [intros H [E'|H']; contradiction | intros H H'; apply H; right; exact H'].
Qed.

Lemma loc_positions_missing (idx labels : list Z) :
  (exists l, In l labels /\ ~ In l idx) ->
  exists l, In l labels /\ ~ In l idx /\
            loc_positions idx labels = Raise (KeyError (Num (inject_Z l))).
Proof.
  induction labels as [|l labels IH]; intros [l' [Hin Hout]]; [destruct Hin|].
  simpl. destruct (positions_from 0 idx l) as [|p ps] eqn:E.
  - exists l. apply positions_from_nil in E.
    split; [left; reflexivity|]. split; [exact E | reflexivity].
  - assert (Hl : In l idx).
    { destruct (in_dec Z.eq_dec l idx) as [H|H]; [exact H|].
      apply (positions_from_nil idx l 0%nat) in H. congruence. }
    destruct Hin as [<- | Hin]; [contradiction|].
    destruct IH as [l0 [H0 [H1 H2]]]; [exists l'; split; assumption|].
    exists l0. split; [right; exact H0|]. split; [exact H1|].
    rewrite H2. reflexivity.
Qed.

(** *** Counting *)

Lemma select_counts (col : list cell) (g : cell) : forall pred_proba,
  zsum (select_mask (binarize pred_proba) (eq_mask col g))
  = Z.of_nat (positives col pred_proba g).
Proof.
  unfold positives.
  induction col as [|c col IH]; intros [|p pp]; simpl; try reflexivity.
  destruct (cell_eqb c g); simpl; [|apply IH].
  change (zsum ((if Qlt_bool 0.5 p then 1%Z else 0%Z)
                  :: select_mask (binarize pp) (eq_mask col g)))
    with ((if Qlt_bool 0.5 p then 1 else 0)
          + zsum (select_mask (binarize pp) (eq_mask col g)))%Z.
  rewrite IH. destruct (Qlt_bool 0.5 p); simpl length; lia.
Qed.

Lemma select_length (col : list cell) (g : cell) : forall predictions : list Z,
  length predictions = length col ->
  length (select_mask predictions (eq_mask col g)) = group_size col g.
Proof.
  unfold group_size, mask_sum.
  induction col as [|c col IH]; intros [|z zs] Hlen; simpl in *; try discriminate;
    [reflexivity|].
  injection Hlen as Hlen. destruct (cell_eqb c g); simpl; rewrite (IH zs Hlen);
    reflexivity.
Qed.

Lemma positives_le (col : list cell) (g : cell) : forall pred_proba,
  (positives col pred_proba g <= group_size col g)%nat.
Proof.
  unfold positives, group_size, mask_sum.
  induction col as [|c col IH]; intros [|p pp]; simpl; try lia.
  specialize (IH pp).
  destruct (cell_eqb c g), (Qlt_bool 0.5 p); simpl; lia.
Qed.

Lemma positives_none (col : list cell) (g : cell) : forall pred_proba,
  Forall (fun p => (p <= 0.5)%Q) pred_proba ->
  positives col pred_proba g = 0%nat.
Proof.
  unfold positives.
  induction col as [|c col IH]; intros [|p pp] H; simpl; try reflexivity.
  inversion H as [|p' pp' Hp Hpp]; subst.
  apply Qlt_bool_false_iff in Hp. rewrite Hp, andb_false_r. apply IH, Hpp.
Qed.

Lemma Qeq_bool_trans (x y z : Q) :
  Qeq_bool x y = true -> Qeq_bool y z = true -> Qeq_bool x z = true.
Proof.
  rewrite !Qeq_bool_iff. intros H1 H2. rewrite H1. exact H2.
Qed.

Lemma cell_eqb_trans (a b c : cell) :
  cell_eqb a b = true -> cell_eqb b c = true -> cell_eqb a c = true.
Proof.
  destruct a, b, c; simpl; try discriminate.
  - apply Qeq_bool_trans.
  - intros H1 H2. apply String.eqb_eq in H1, H2. subst. apply String.eqb_refl.
Qed.

Lemma list_sum_map_add {A : Type} (f g : A -> nat) (l : list A) :
  list_sum (map (fun x => (f x + g x)%nat) l)
  = (list_sum (map f l) + list_sum (map g l))%nat.
Proof. induction l as [|x l IH]; simpl; [reflexivity | rewrite IH; lia]. Qed.

Lemma list_sum_indicator {A : Type} (f : A -> bool) (l : list A) :
  list_sum (map (fun x => if f x then 1%nat else 0%nat) l)
  = length (List.filter f l).
Proof.
  induction l as [|x l IH]; simpl; [reflexivity|].
  destruct (f x); simpl; rewrite IH; reflexivity.
Qed.

(** A record belongs to at most one of the groups [unique] lists. *)
Lemma one_group_per_record (c : cell) (groups : list cell) :
  distinct_cells groups ->
  (length (List.filter (cell_eqb c) groups) <= 1)%nat.
Proof.
  induction 1 as [|g groups Hg Hrest IH]; simpl; [lia|].
  destruct (cell_eqb c g) eqn:E; [|exact IH].
  assert (Hnone : List.filter (cell_eqb c) groups = []).
  { clear IH Hrest. induction groups as [|b groups IHb]; simpl; [reflexivity|].
    inversion Hg as [|b' groups' Hb Hgs]; subst.
    destruct (cell_eqb c b) eqn:Eb.
    - rewrite cell_eqb_sym in E.
      rewrite (cell_eqb_trans g c b E Eb) in Hb. discriminate.
    - apply IHb, Hgs. }
  rewrite Hnone. simpl. lia.
Qed.

Lemma group_sizes_sum (col groups : list cell) :
  distinct_cells groups ->
  (list_sum (map (group_size col) groups) <= length col)%nat.
Proof.
  intros Hd. induction col as [|c col IH].
  - assert (H0 : forall l : list cell, list_sum (map (group_size []) l) = 0%nat)
      by (induction l; simpl; auto).
    rewrite H0. simpl. lia.
  - assert (E : map (group_size (c :: col)) groups
                = map (fun g => ((if cell_eqb c g then 1 else 0)
                                 + group_size col g)%nat) groups).
    { apply map_ext. intros g. unfold group_size, mask_sum. simpl.
      destruct (cell_eqb c g); reflexivity. }
    rewrite E, list_sum_map_add, list_sum_indicator. simpl length.
    pose proof (one_group_per_record c groups Hd). lia.
Qed.

Lemma distinct_cells_filter (keep : cell -> bool) (groups : list cell) :
  distinct_cells groups -> distinct_cells (List.filter keep groups).
Proof.
  induction 1 as [|g groups Hg Hrest IH]; simpl; [constructor|].
  destruct (keep g); [|exact IH].
  constructor; [|exact IH].
  apply List.Forall_forall. intros b Hb. apply filter_In in Hb.
  exact (proj1 (List.Forall_forall _ _) Hg b (proj1 Hb)).
Qed.

Lemma qualifying_groups_bound (col : list cell) :
  (11 * length (qualifying_groups col) <= length col)%nat.
Proof.
  etransitivity; [|apply (group_sizes_sum col (unique col)), unique_distinct].
  unfold qualifying_groups.
  induction (unique col) as [|g groups IH]; simpl; [lia|].
  destruct (Nat.ltb_spec 10 (group_size col g)); simpl; lia.
Qed.

Lemma np_mean_unit (pred_proba : list Q) : unit_interval (np_mean (binarize pred_proba)).
Proof. apply np_mean_bounds, binarize_bits. Qed.

Lemma parity_gap_unit (r o : Q) :
  unit_interval r -> unit_interval o -> unit_interval (Qabs (r - o)).
Proof.
  intros [Hr0 Hr1] [Ho0 Ho1]. split; [apply Qabs_nonneg|].
  apply Qabs_Qle_condition. split; lra.
Qed.

Section AuditProperties.

Context {sk : Sklearn}.

(** X1: for an audit that completes, the reported statistical parity
    difference is 0 when no gender group has more than 10 held-out
    records, otherwise the largest gap between a qualifying group's
    positive-prediction rate and the overall rate; it lies in [0, 1]. *)
Theorem statistical_parity_reported (df X_test : DataFrame) (pred_proba : list Q)
    (w : World) (a : audit_locals) (td : DataFrame) (gender_col : list cell) :
  audit_body df X_test pred_proba = Ok a ->
  df_loc df (df_index X_test) = Ok td ->
  df_getitem td "gender" = Ok gender_col ->
  let gaps := parity_gaps gender_col (binarize pred_proba) in
  let w' := snd (_calculate_bias_metrics df X_test pred_proba w) in
  exists spd,
    reported K_SPD w' = Some spd /\
    (gaps = [] -> spd = 0%Q) /\
    (gaps <> [] -> is_max spd gaps) /\
    (0 <= spd)%Q /\ (spd <= 1)%Q.
Proof.
  intros Ha Htd Hcol gaps w'. subst w'.
  rewrite calculate_bias_metrics_eq, Ha.
  destruct (audit_body_inv _ _ _ _ Ha)
    as (td' & col & gcol & gd & Htd' & _ & _ & _ & Hgcol & Hloop & Hspd).
  rewrite Htd in Htd'. injection Htd' as <-.
  rewrite Hcol in Hgcol. injection Hgcol as <-.
  apply gender_loop_spec in Hloop. cbn [app] in Hloop.
  change (gd = gaps) in Hloop. subst gd.
  assert (Hunit : Forall unit_interval gaps).
  { apply List.Forall_forall. intros x Hx. apply in_map_iff in Hx.
    destruct Hx as [g [<- _]].
    apply parity_gap_unit; [apply group_rate_unit | apply np_mean_unit]. }
  exists (statistical_parity_diff a). split; [reflexivity|].
  unfold statistical_parity_of in Hspd. clearbody gaps.
  destruct gaps as [|x rest].
  - injection Hspd as <-. split; [reflexivity|]. split; [congruence|].
    split; [apply Qle_refl | discriminate].
  - simpl in Hspd. injection Hspd as <-.
    pose proof (py_max_is_max x rest) as Hmax.
    split; [discriminate|]. split; [intros _; exact Hmax|].
    destruct Hmax as [[r [Hr Er]] _].
    pose proof (proj1 (List.Forall_forall _ _) Hunit r Hr) as [H0 H1].
    split; rewrite <- Er; assumption.
Qed.

(** X2: for an audit that completes, the number of groups analysed is
    the number of race values with strictly more than 10 held-out
    records, each value counted once, and 11 times that number is at most
    the number of held-out records. *)
Theorem groups_analyzed_reported (df X_test : DataFrame) (pred_proba : list Q)
    (w : World) (a : audit_locals) (td : DataFrame) (col : list cell) :
  audit_body df X_test pred_proba = Ok a ->
  df_loc df (df_index X_test) = Ok td ->
  df_getitem td "race" = Ok col ->
  let w' := snd (_calculate_bias_metrics df X_test pred_proba w) in
  reported K_GROUPS w'
    = Some (inject_Z (Z.of_nat (length (qualifying_groups col)))) /\
  (forall g, In g (qualifying_groups col) <->
             In g (unique col) /\ (10 < group_size col g)%nat) /\
  distinct_cells (qualifying_groups col) /\
  (11 * length (qualifying_groups col) <= length col)%nat.
Proof.
  intros Ha Htd Hcol w'. subst w'.
  rewrite calculate_bias_metrics_eq, Ha.
  destruct (audit_body_inv _ _ _ _ Ha)
    as (td' & col' & gcol & gd & Htd' & Hcol' & Hloop & _).
  rewrite Htd in Htd'. injection Htd' as <-.
  rewrite Hcol in Hcol'. injection Hcol' as <-.
  pose proof (race_rates_spec _ _ _ Hloop) as Hrates.
  assert (Hlen : length (race_approval_rates a) = length (qualifying_groups col)).
  { rewrite <- (length_map snd), Hrates, length_map. reflexivity. }
  split; [unfold reported; cbn; rewrite Hlen; reflexivity|].
  split; [|split; [apply distinct_cells_filter, unique_distinct
                  | apply qualifying_groups_bound]].
  intros g. unfold qualifying_groups. rewrite filter_In.
  split; intros [H1 H2]; (split; [exact H1|]).
  - apply Nat.ltb_lt. exact H2.
  - apply Nat.ltb_lt. exact H2.
Qed.

(** X4: for an audit that completes, the reported disparate impact is 1
    exactly when all qualifying race groups have the same
    positive-prediction rate. *)
Theorem disparate_impact_one_iff_equal_rates (df X_test : DataFrame)
    (pred_proba : list Q) (w : World) (a : audit_locals) (td : DataFrame)
    (col : list cell) :
  audit_body df X_test pred_proba = Ok a ->
  df_loc df (df_index X_test) = Ok td ->
  df_getitem td "race" = Ok col ->
  let rates := map (group_rate col (binarize pred_proba)) (qualifying_groups col) in
  let w' := snd (_calculate_bias_metrics df X_test pred_proba w) in
  exists di,
    reported K_DI w' = Some di /\
    ((forall r1 r2, In r1 rates -> In r2 rates -> (r1 == r2)%Q) <-> (di == 1)%Q).
Proof.
  intros Ha Htd Hcol rates w'. subst w'.
  rewrite calculate_bias_metrics_eq, Ha.
  destruct (audit_body_inv _ _ _ _ Ha)
    as (td' & col' & gcol & gd & Htd' & Hcol' & Hloop & Hdi & _).
  rewrite Htd in Htd'. injection Htd' as <-.
  rewrite Hcol in Hcol'. injection Hcol' as <-.
  pose proof (race_rates_spec _ _ _ Hloop) as Hrates. fold rates in Hrates.
  assert (Hunit : forall r, In r rates -> unit_interval r).
  { intros r Hr. apply in_map_iff in Hr. destruct Hr as [g [<- _]].
    apply group_rate_unit. }
  exists (disparate_impact a). split; [reflexivity|].
  destruct (disparate_impact_of_spec (race_approval_rates a))
    as (di & Hdi' & Hfew & Hmany).
  rewrite Hdi in Hdi'. injection Hdi' as ->.
  rewrite <- (length_map snd), Hrates in Hfew, Hmany.
  destruct rates as [|x [|y rest]] eqn:Er.
  - rewrite Hfew by (simpl; lia). split; [reflexivity | intros _ r1 r2 []].
  - rewrite Hfew by (simpl; lia). split; [reflexivity|].
    intros _ r1 r2 [<- | []] [<- | []]. reflexivity.
  - specialize (Hmany ltac:(simpl; lia)).
    pose proof (py_min_is_min x (y :: rest)) as Hmin.
    pose proof (py_max_is_max x (y :: rest)) as Hmax.
    destruct (Hmany _ _ Hmin Hmax) as [Hpos Hzero].
    set (mn := py_min_from x (y :: rest)) in *.
    set (mx := py_max_from x (y :: rest)) in *.
    destruct Hmin as [[rn [Hrn Ern]] Hle_mn], Hmax as [[rx [Hrx Erx]] Hle_mx].
    destruct (Qlt_le_dec 0 mx) as [Hmx | Hmx].
    + specialize (Hpos Hmx). rewrite Hpos.
      assert (Hnz : ~ (mx == 0)%Q) by (intros E; rewrite E in Hmx; discriminate Hmx).
      split.
      * intros Heq. assert (E : (mn == mx)%Q).
        { rewrite <- Ern, <- Erx. apply Heq; assumption. }
        rewrite E. unfold Qdiv. apply Qmult_inv_r, Hnz.
      * intros E r1 r2 H1 H2.
        assert (Emn : (mn == mx)%Q).
        { rewrite <- (Qmult_div_r mn mx Hnz), E. ring. }
        pose proof (Hle_mn r1 H1). pose proof (Hle_mx r1 H1).
        pose proof (Hle_mn r2 H2). pose proof (Hle_mx r2 H2).
        apply Qle_antisym; lra.
    + rewrite Hzero by (apply Qle_not_lt, Hmx).
      split; [reflexivity|]. intros _ r1 r2 H1 H2.
      pose proof (Hunit r1 H1) as [H10 _]. pose proof (Hunit r2 H2) as [H20 _].
      pose proof (Hle_mx r1 H1). pose proof (Hle_mx r2 H2).
      apply Qle_antisym; lra.
Qed.

(** X5: the audit writes the bias report and one log record, nothing
    else: the classifiers, the scaler, the feature names, the performance
    report, the importance table and every stored table stay as they
    were. *)
Theorem audit_touches_only_report (df X_test : DataFrame) (pred_proba : list Q)
    (w : World) :
  let w' := snd (_calculate_bias_metrics df X_test pred_proba w) in
  self w' = with_bias_metrics (self w) (bias_metrics (self w')) /\
  heap w' = heap w /\
  (exists record, log w' = log w ++ [record]) /\
  (forall features,
     predict_probability features w' = predict_probability features w /\
     generate_explanation features w' = generate_explanation features w).
Proof.
  intros w'. subst w'. rewrite calculate_bias_metrics_eq.
  assert (Hinf : forall (w1 w2 : World),
             model (self w1) = model (self w2) ->
             scaler (self w1) = scaler (self w2) ->
             feature_names (self w1) = feature_names (self w2) ->
             importance_table w1 = importance_table w2 ->
             forall features,
               predict_probability features w1 = predict_probability features w2 /\
               generate_explanation features w1 = generate_explanation features w2).
  { intros w1 w2 Hm Hs Hn Ht features.
    assert (Hp : predict_probability features w1 = predict_probability features w2).
    { unfold predict_probability, scale_features. rewrite Hm, Hs, Hn. reflexivity. }
    split; [exact Hp|].
    unfold generate_explanation. rewrite Hp, Hm, Hn, Ht. reflexivity. }
  destruct (audit_body df X_test pred_proba) as [a|e]; cbn [snd self heap log];
    (split; [reflexivity|]); (split; [reflexivity|]);
    (split; [eexists; reflexivity|]); apply Hinf; reflexivity.
Qed.

(** X6: when the probabilities are not as many as the held-out records
    and some race group qualifies, the audit meets an [IndexError], which
    it catches: the neutral report is stored and a warning logged. *)
Theorem audit_length_mismatch (df X_test : DataFrame) (pred_proba : list Q)
    (w : World) (td : DataFrame) (col : list cell) :
  df_loc df (df_index X_test) = Ok td ->
  df_getitem td "race" = Ok col ->
  length pred_proba <> length col ->
  qualifying_groups col <> [] ->
  let r := _calculate_bias_metrics df X_test pred_proba w in
  exists msg,
    audit_body df X_test pred_proba = Raise (IndexError msg) /\
    fst r = Ok tt /\
    bias_metrics (self (snd r)) = neutral_report /\
    log (snd r) = log w ++ [Warn_bias_metrics (IndexError msg)].
Proof.
  intros Htd Hcol Hlen Hq r. subst r.
  eexists. rewrite calculate_bias_metrics_eq.
  assert (Hbody : audit_body df X_test pred_proba
                  = Raise (IndexError "boolean index did not match indexed array")).
  { unfold audit_body. rewrite Htd. cbn [rbind].
    unfold audit_frame. rewrite Hcol. cbn [rbind].
    rewrite race_loop_mismatch; [reflexivity | rewrite length_binarize; exact Hlen|].
    destruct (qualifying_groups col) as [|g gs] eqn:E; [congruence|].
    exists g. assert (Hg : In g (qualifying_groups col)) by (rewrite E; left; reflexivity).
    unfold qualifying_groups in Hg. apply filter_In in Hg.
    destruct Hg as [H1 H2]. split; [exact H1 | apply Nat.ltb_lt, H2]. }
  rewrite Hbody. repeat split; reflexivity.
Qed.

(** X7: when a held-out record's label is not a row label of the
    demographic frame, the audit meets a [KeyError] for such a label,
    which it catches: the neutral report is stored and a warning
    logged. *)
Theorem audit_missing_label (df X_test : DataFrame) (pred_proba : list Q)
    (w : World) :
  (exists l, In l (df_index X_test) /\ ~ In l (df_index df)) ->
  let r := _calculate_bias_metrics df X_test pred_proba w in
  exists l,
    In l (df_index X_test) /\ ~ In l (df_index df) /\
    audit_body df X_test pred_proba = Raise (KeyError (Num (inject_Z l))) /\
    fst r = Ok tt /\
    bias_metrics (self (snd r)) = neutral_report /\
    log (snd r) = log w ++ [Warn_bias_metrics (KeyError (Num (inject_Z l)))].
Proof.
  intros Hmiss r. subst r.
  destruct (loc_positions_missing _ _ Hmiss) as (l & Hin & Hout & Hloc).
  exists l. rewrite calculate_bias_metrics_eq.
  assert (Hbody : audit_body df X_test pred_proba = Raise (KeyError (Num (inject_Z l)))).
  { unfold audit_body, df_loc. rewrite Hloc. reflexivity. }
  rewrite Hbody. repeat split; assumption || reflexivity.
Qed.

End AuditProperties.

(** X3: the positive-prediction rate of a group is the number of its
    members whose probability is strictly above 0.5, divided by the size
    of the group; a probability of exactly 0.5 does not count. *)
Theorem group_rate_counts (col : list cell) (pred_proba : list Q) (g : cell) :
  length pred_proba = length col ->
  group_rate col (binarize pred_proba) g
  = (inject_Z (Z.of_nat (positives col pred_proba g))
     / inject_Z (Z.of_nat (group_size col g)))%Q /\
  (positives col pred_proba g <= group_size col g)%nat /\
  (Forall (fun p => (p <= 0.5)%Q) pred_proba -> positives col pred_proba g = 0%nat).
Proof.
  intros Hlen. split; [|split; [apply positives_le | apply positives_none]].
  unfold group_rate, np_mean.
  rewrite select_counts, select_length; [reflexivity|].
  rewrite length_binarize. exact Hlen.
Qed.

(* ===================================================================== *)
(** ** Further properties of inference                                    *)
(* ===================================================================== *)

Lemma sorted_app_order {A : Type} (R : A -> A -> Prop) (l1 l2 : list A) :
  StronglySorted R (l1 ++ l2) ->
  forall a b, In a l1 -> In b l2 -> R a b.
Proof.
  induction l1 as [|x l1 IH]; intros H a b Ha Hb; [destruct Ha|].
  simpl in H. inversion H as [|x' l' Hs Hx]; subst.
  destruct Ha as [<- | Ha].
  - apply (proj1 (List.Forall_forall _ _) Hx). apply in_or_app. right. exact Hb.
  - apply IH; assumption.
Qed.


Lemma to_case_not_underscore (c : ascii) (previous_is_cased : bool) :
  Ascii.eqb c "_"%char = false ->
  Ascii.eqb (if is_upper c || is_lower c
             then (if previous_is_cased then to_lower c else to_upper c)
             else c) "_"%char = false.
Proof.
  destruct c as [[] [] [] [] [] [] [] []], previous_is_cased;
    vm_compute; intros H; (reflexivity || discriminate H).
Qed.

Lemma title_no_underscore (s : string) : forall previous_is_cased,
  existsb (Ascii.eqb "_"%char)
          (list_ascii_of_string (title_from previous_is_cased (replace_underscores s)))
  = false.
Proof.
  induction s as [|c s IH]; intros b; [reflexivity|].
  simpl replace_underscores.
  set (c' := if Ascii.eqb c "_"%char then " "%char else c).
  assert (Hc' : Ascii.eqb c' "_"%char = false).
  { subst c'. destruct (Ascii.eqb c "_"%char) eqn:E; [reflexivity | exact E]. }
  pose proof (to_case_not_underscore c' b Hc') as Hout.
  cbn [title_from]. revert Hout.
  destruct (is_upper c' || is_lower c'); intros Hout;
    cbn [list_ascii_of_string existsb];
    rewrite Ascii.eqb_sym, Hout, IH; reflexivity.
Qed.

Lemma title_length (s : string) : forall previous_is_cased,
  String.length (title_from previous_is_cased (replace_underscores s))
  = String.length s.
Proof.
  induction s as [|c s IH]; intros b; [reflexivity|].
  simpl. destruct (is_upper _ || is_lower _); simpl; rewrite IH; reflexivity.
Qed.

Lemma has_underscore_existsb (s : string) :
  has_underscore s <->
  existsb (Ascii.eqb "_"%char) (list_ascii_of_string s) = true.
Proof.
  unfold has_underscore. rewrite existsb_exists. split.
  - intros H. exists "_"%char. split; [exact H | apply Ascii.eqb_refl].
  - intros [c [Hc E]]. apply Ascii.eqb_eq in E. subst. exact Hc.
Qed.

Lemma assoc_str_In {A : Type} (k : string) (l : list (string * A)) (v : A) :
  assoc_str k l = Some v -> In (k, v) l.
Proof.
  induction l as [|[k' v'] l IH]; simpl; [discriminate|].
  destruct (String.eqb_spec k' k) as [->|_].
  - intros H. injection H as <-. left. reflexivity.
  - intros H. right. apply IH, H.
Qed.

Lemma map_snd_combine {A B : Type} (l : list A) : forall l' : list B,
  map snd (combine l l') = firstn (Nat.min (length l) (length l')) l'.
Proof.
  induction l as [|x l IH]; intros [|y l']; simpl; try reflexivity.
  f_equal. apply IH.
Qed.

Lemma map_fst_combine {A B : Type} (l : list A) : forall l' : list B,
  map fst (combine l l') = firstn (Nat.min (length l) (length l')) l.
Proof.
  induction l as [|x l IH]; intros [|y l']; simpl; try reflexivity.
  f_equal. apply IH.
Qed.

Section InferenceProperties.

Context {sk : Sklearn}.


Lemma predict_probability_inv (w : World) (features : list Q) (p : Q) :
  predict_probability features w = Ok p ->
  exists rf gb features_scaled a b,
    model (self w) = Some (rf, gb) /\
    scale_features features w = Ok features_scaled /\
    positive_class (rf_predict_proba rf (NdArray features_scaled)) = Ok a /\
    positive_class (gb_predict_proba gb (NdArray features_scaled)) = Ok b /\
    p = ((a + b) / 2)%Q.
Proof.
  unfold predict_probability.
  destruct (model (self w)) as [[rf gb]|]; [|discriminate].
  destruct (scale_features features w) as [xs|]; [|discriminate]. cbn [rbind].
  destruct (positive_class (rf_predict_proba rf (NdArray xs))) as [a|] eqn:Ea;
    [|discriminate]. cbn [rbind].
  destruct (positive_class (gb_predict_proba gb (NdArray xs))) as [b|] eqn:Eb;
    [|discriminate]. cbn [rbind].
  intros H. injection H as <-. exists rf, gb, xs, a, b. repeat split; assumption.
Qed.

Lemma generate_explanation_inv (w : World) (applicant_data : list Q)
    (e : ExplanationResult) :
  generate_explanation applicant_data w = Ok e ->
  exists p fc,
    predict_probability applicant_data w = Ok p /\
    feature_contributions applicant_data w = Ok fc /\
    e = mkExplanation (fst (decision_band p)) (snd (decision_band p))
                      (1 - p)%Q p (firstn 5 (list_sort_reverse c_impact fc)).
Proof.
  unfold generate_explanation, feature_contributions.
  destruct (model (self w)) as [m|]; [|discriminate].
  destruct (predict_probability applicant_data w) as [p|]; [|discriminate].
  cbn [rbind]. destruct (decision_band p) as [d c] eqn:Eband.
  destruct (rmap _ _) as [fc|]; [|discriminate].
  cbn [rbind]. intros H. injection H as <-. exists p, fc. rewrite Eband.
  split; [reflexivity|]. split; reflexivity.
Qed.

(** X8: on an engine with a stored model, a vector with more entries
    than the engine has feature names makes both inference methods raise
    the [ValueError] of the frame construction: there are more values
    than column names. *)
Theorem too_long_vector_raises (w : World)
    (m : RandomForestClassifier * GradientBoostingClassifier) (features : list Q) :
  model (self w) = Some m ->
  (length (feature_names (self w)) < length features)%nat ->
  predict_probability features w
    = Raise (ValueError "columns passed do not match the passed data") /\
  generate_explanation features w
    = Raise (ValueError "columns passed do not match the passed data").
Proof.
  intros Hm Hlen.
  assert (Hp : predict_probability features w
               = Raise (ValueError "columns passed do not match the passed data")).
  { unfold predict_probability, scale_features, frame_of_row.
    rewrite Hm. destruct m as [rf gb]. rewrite length_firstn.
    destruct (Nat.eqb_spec (Nat.min (length features)
                                    (length (feature_names (self w))))
                           (length features)) as [E|E]; [lia | reflexivity]. }
  split; [exact Hp|].
  unfold generate_explanation. rewrite Hm, Hp. reflexivity.
Qed.

(** X9: a fused probability lies between the two classifiers'
    probabilities, and in [0, 1] when both of them do. *)
Theorem fused_probability_between (w : World) (features : list Q) (p : Q) :
  predict_probability features w = Ok p ->
  exists rf gb features_scaled a b,
    model (self w) = Some (rf, gb) /\
    scale_features features w = Ok features_scaled /\
    positive_class (rf_predict_proba rf (NdArray features_scaled)) = Ok a /\
    positive_class (gb_predict_proba gb (NdArray features_scaled)) = Ok b /\
    ((a <= b)%Q -> (a <= p)%Q /\ (p <= b)%Q) /\
    ((b <= a)%Q -> (b <= p)%Q /\ (p <= a)%Q) /\
    (unit_interval a -> unit_interval b -> unit_interval p).
Proof.
  intros Hp.
  destruct (predict_probability_inv _ _ _ Hp)
    as (rf & gb & xs & a & b & Hm & Hs & Ha & Hb & ->).
  exists rf, gb, xs, a, b. unfold unit_interval.
  assert (E : ((a + b) / 2 == (a + b) * (1 # 2))%Q) by (unfold Qdiv; reflexivity).
  repeat split; try assumption; intros; rewrite E; lra.
Qed.

(** X10: in every explanation the approval probability is the fused
    probability of the same vector, and the risk score is its complement:
    the two add up to 1. *)
Theorem explanation_scores_complement (w : World) (applicant_data : list Q)
    (e : ExplanationResult) :
  generate_explanation applicant_data w = Ok e ->
  predict_probability applicant_data w = Ok (approval_probability e) /\
  risk_score e = (1 - approval_probability e)%Q /\
  (risk_score e + approval_probability e == 1)%Q.
Proof.
  intros H. destruct (generate_explanation_inv _ _ _ H) as (p & fc & Hp & _ & ->).
  cbn. split; [exact Hp|]. split; [reflexivity | ring].
Qed.

(** X11: an explanation has as many key factors as there are pairs of a
    feature name and a value, up to 5. *)
Theorem key_factor_count (w : World) (applicant_data : list Q)
    (e : ExplanationResult) :
  generate_explanation applicant_data w = Ok e ->
  length (key_factors e)
  = Nat.min 5 (Nat.min (length (feature_names (self w))) (length applicant_data)).
Proof.
  intros H. destruct (generate_explanation_inv _ _ _ H) as (p & fc & _ & Hfc & ->).
  cbn [key_factors].
  rewrite length_firstn, (Permutation_length (list_sort_reverse_perm c_impact fc)).
  unfold feature_contributions in Hfc.
  rewrite <- (List.Forall2_length (rmap_Ok _ _ _ Hfc)), length_combine. reflexivity.
Qed.

(** X12: the contributions of all pairs are the key factors together
    with a rest; when no impact is NaN, the key factors are the
    contributions of largest impact: no contribution of the rest has a
    larger impact than a key factor. *)
Theorem key_factors_are_top (w : World) (applicant_data : list Q)
    (e : ExplanationResult) :
  generate_explanation applicant_data w = Ok e ->
  exists fc rest,
    feature_contributions applicant_data w = Ok fc /\
    Permutation fc (key_factors e ++ rest) /\
    (without_nan c_impact fc ->
     forall k r, In k (key_factors e) -> In r rest ->
                 float_le (c_impact r) (c_impact k)).
Proof.
  intros H. destruct (generate_explanation_inv _ _ _ H) as (p & fc & _ & Hfc & ->).
  exists fc, (skipn 5 (list_sort_reverse c_impact fc)). cbn [key_factors].
  split; [exact Hfc|]. split.
  - rewrite firstn_skipn. symmetry. apply list_sort_reverse_perm.
  - intros Hn. rewrite (list_sort_reverse_stable c_impact fc Hn).
    apply (sorted_app_order (fun a b => float_le (c_impact b) (c_impact a))).
    rewrite firstn_skipn. apply stable_sort_reverse_sorted, Hn.
Qed.



End InferenceProperties.

(** X15: a higher probability never gives a worse band: the bands are
    ordered DENIED, CONDITIONAL/Low, CONDITIONAL/Medium, APPROVED/Medium,
    APPROVED/High, and the band is monotone in the probability. *)
Theorem decision_band_monotone (p q : Q) :
  (p <= q)%Q ->
  (band_rank (decision_band p) <= band_rank (decision_band q))%nat /\
  (fst (decision_band p) = "APPROVED" -> fst (decision_band q) = "APPROVED") /\
  (fst (decision_band q) = "DENIED" -> fst (decision_band p) = "DENIED").
Proof.
  intros Hpq.
  assert (H : forall t, Qle_bool t p = true -> Qle_bool t q = true).
  { intros t Ht. apply Qle_bool_iff in Ht. apply Qle_bool_iff.
    eapply Qle_trans; eassumption. }
  unfold decision_band.
  destruct (Qle_bool 0.7 p) eqn:P1; [try rewrite (H _ P1)|];
    (destruct (Qle_bool 0.55 p) eqn:P2; [try rewrite (H _ P2)|]);
    (destruct (Qle_bool 0.4 p) eqn:P3; [try rewrite (H _ P3)|]);
    (destruct (Qle_bool 0.25 p) eqn:P4; [try rewrite (H _ P4)|]);
    destruct (Qle_bool 0.7 q), (Qle_bool 0.55 q), (Qle_bool 0.4 q),
      (Qle_bool 0.25 q);
    cbn; repeat split; (lia || reflexivity || discriminate || idtac).
Qed.

(** X16: a readable feature name never contains an underscore; an ASCII
    name outside the translation table keeps its length; every name of the
    schema is translated by the table, and different names of the schema
    get different readable names. *)
Theorem humanized_names (feature_name : string) :
  ~ has_underscore (_humanize_feature_name feature_name) /\
  (ascii_text feature_name ->
   assoc_str feature_name name_mapping = None ->
     String.length (_humanize_feature_name feature_name)
     = String.length feature_name) /\
  (In feature_name schema ->
     assoc_str feature_name name_mapping = Some (_humanize_feature_name feature_name)) /\
  (forall other,
     In feature_name schema -> In other schema ->
     _humanize_feature_name feature_name = _humanize_feature_name other ->
     feature_name = other).
Proof.
  split; [|split; [|split]].
  - rewrite has_underscore_existsb. unfold _humanize_feature_name.
    destruct (assoc_str feature_name name_mapping) as [human|] eqn:E.
    + apply assoc_str_In in E. simpl in E.
      repeat (destruct E as [E|E]; [injection E as _ <-; vm_compute; discriminate|]).
      destruct E.
    + unfold title. rewrite title_no_underscore. discriminate.
  - intros _ E. unfold _humanize_feature_name. rewrite E. apply title_length.
  - intros Hin. simpl in Hin.
    repeat (destruct Hin as [<- | Hin]; [reflexivity|]). destruct Hin.
  - intros other H1 H2. simpl in H1, H2.
    repeat (destruct H1 as [<- | H1];
            [repeat (destruct H2 as [<- | H2];
                     [intros E; first [reflexivity | vm_compute in E; discriminate E]|]);
             destruct H2|]).
    destruct H1.
Qed.

(* ===================================================================== *)
(** ** Further properties of training and of the importance table        *)
(* ===================================================================== *)

Lemma assoc_str_found {A : Type} (k : string) (l : list (string * A)) :
  In k (map fst l) -> exists v, assoc_str k l = Some v.
Proof.
  induction l as [|[k' v'] l IH]; simpl; [intros []|].
  destruct (String.eqb_spec k' k) as [->|Hne].
  - intros _. exists v'. reflexivity.
  - intros [E | H]; [contradiction | apply IH, H].
Qed.

Lemma df_select_columns (df : DataFrame) (names : list string) :
  (forall n, In n names -> In n (df_columns df)) ->
  exists X, df_select df names = Ok X /\
            df_columns X = names /\ df_index X = df_index df.
Proof.
  intros Hin. unfold df_select.
  assert (H : exists cols,
             rmap (fun n => let? c := df_getitem df n in Ok (n, c)) names = Ok cols /\
             map fst cols = names).
  { induction names as [|n names IH]; [exists []; split; reflexivity|].
    destruct (assoc_str_found n (df_data df)) as [c Hc];
      [apply Hin; left; reflexivity|].
    destruct IH as [cols [Hcols Hfst]]; [intros n' Hn'; apply Hin; right; exact Hn'|].
    exists ((n, c) :: cols). cbn [rmap]. unfold df_getitem at 1. rewrite Hc.
    cbn [rbind]. rewrite Hcols. cbn [rbind map fst]. rewrite Hfst.
    split; reflexivity. }
  destruct H as [cols [-> Hfst]]. eexists. split; [reflexivity|].
  split; [exact Hfst | reflexivity].
Qed.

Lemma feature_cols_spec (df : DataFrame) (c : string) :
  In c (feature_cols_of df) <->
  In c (df_columns df) /\ ~ In c demographic_and_target.
Proof.
  unfold feature_cols_of. rewrite filter_In, negb_true_iff. split.
  - intros [H1 H2]. split; [exact H1|]. intros Hc.
    assert (E : existsb (String.eqb c) demographic_and_target = true).
    { apply existsb_exists. exists c. split; [exact Hc | apply String.eqb_refl]. }
    congruence.
  - intros [H1 H2]. split; [exact H1|].
    destruct (existsb (String.eqb c) demographic_and_target) eqn:E; [|reflexivity].
    apply existsb_exists in E. destruct E as [x [Hx Ex]].
    apply String.eqb_eq in Ex. subst. contradiction.
Qed.

Lemma feature_cols_select (df : DataFrame) :
  exists X, df_select df (feature_cols_of df) = Ok X /\
            df_columns X = feature_cols_of df /\ df_index X = df_index df.
Proof.
  apply df_select_columns. intros n Hn. apply feature_cols_spec in Hn. apply Hn.
Qed.

Ltac run_steps H :=
  repeat match type of H with
  | context [match ?r with _ => _ end] =>
      match r with
      | context [match _ with _ => _ end] => fail 1
      | _ => destruct r eqn:?; cbn [rbind self heap log] in H; try discriminate H
      end
  end.

Section TrainingProperties.

Context {sk : Sklearn}.

Lemma train_model_features (df : DataFrame) (w w' : World) :
  train_model df w = (Ok tt, w') ->
  exists X y X_train X_test y_train y_test,
    df_columns X = feature_cols_of df /\
    df_getitem df "approved" = Ok y /\
    train_test_split X y = inr (X_train, X_test, y_train, y_test) /\
    scaler_fit (scaler (self w)) X_train = inr (scaler (self w')).
Proof.
  intros Htrain. rewrite train_model_eq in Htrain.
  destruct (fit_and_evaluate df w) as [[[[X_test pred] roc]|e] w1] eqn:Efit;
    [|discriminate].
  destruct (fit_and_evaluate_inv _ _ _ _ Efit)
    as (X & y & X_train & X_test' & y_train & y_test & rf & gb & fitted & perf
        & table & pred' & roc' & avg & _ & HX & Hy & Hsplit & _ & _ & Hsc
        & _ & Hself & _).
  destruct (feature_cols_select df) as (X0 & HX0 & Hcols & _).
  rewrite HX in HX0. injection HX0 as <-.
  exists X, y, X_train, X_test', y_train, y_test.
  split; [exact Hcols|]. split; [exact Hy|]. split; [exact Hsplit|].
  injection Htrain as <-. rewrite calculate_bias_metrics_eq.
  destruct (audit_body df X_test pred); cbn [snd self]; unfold with_bias_metrics;
    rewrite Hself; exact Hsc.
Qed.


(** X18: training on data without an 'approved' column raises the
    [KeyError] for that column before anything is fitted: the engine and
    the stored tables are as before, only the start of the run is
    logged. *)
Theorem train_without_target (df : DataFrame) (w : World) :
  ~ In "approved" (df_columns df) ->
  train_model df w
  = (Raise (KeyError (Str "approved")),
     mkWorld (self w) (heap w) (log w ++ [Log_training_started])).
Proof.
  intros Hno.
  assert (Hy : df_getitem df "approved" = Raise (KeyError (Str "approved"))).
  { unfold df_getitem.
    destruct (assoc_str "approved" (df_data df)) as [c|] eqn:E; [|reflexivity].
    exfalso. apply Hno. apply assoc_str_In in E.
    unfold df_columns. apply in_map_iff. exists ("approved", c). split; auto. }
  destruct (feature_cols_select df) as (X & HX & _).
  unfold train_model, fit_and_evaluate, bind, lift, logger.
  cbn [self heap log]. rewrite HX, Hy. reflexivity.
Qed.

(** X19: a training run that raises has not touched the importance
    table, the bias report, the feature names or any stored table, and
    has logged only its start.  Either the engine is exactly as before,
    or the run had already stored its two fitted classifiers: then the
    not-trained guard no longer fires. *)
Theorem failed_training_state (df : DataFrame) (w w' : World) (e : exn) :
  train_model df w = (Raise e, w') ->
  late_fields_kept w w' /\
  log w' = log w ++ [Log_training_started] /\
  (self w' = self w \/
   exists rf gb,
     model (self w') = Some (rf, gb) /\
     forall features, predict_probability features w' <> Raise NotTrained).
Proof.
  rewrite train_model_eq.
  destruct (fit_and_evaluate df w) as [[[[X_test pred] roc]|e'] w1] eqn:Efit;
    [discriminate|].
  intros H. injection H as -> ->. revert Efit.
  assert (Hguard : forall (w2 : World) rf gb,
             model (self w2) = Some (rf, gb) ->
             forall features, predict_probability features w2 <> Raise NotTrained).
  { intros w2 rf gb Hm features Hp.
    destruct (predict_probability_trained _ _ _ Hm _ Hp)
      as [[msg E] | [[msg E] | [E _]]]; discriminate E. }
  unfold fit_and_evaluate, bind, lift, logger, get_self, put_self, alloc, ret, call.
  cbn [self heap log]. intros H. run_steps H;
    injection H as <- <-; unfold late_fields_kept; cbn [self heap log];
    (split; [repeat split; reflexivity|]); (split; [reflexivity|]);
    first [ left; destruct (self w); reflexivity
          | right; eexists _, _; split; [reflexivity|];
            eapply Hguard; reflexivity ].
Qed.

End TrainingProperties.

Lemma np_add_same_length (a b s : list Q) :
  length a = length b ->
  np_add a b = Ok s ->
  s = map (fun xy => (fst xy + snd xy)%Q) (combine a b).
Proof.
  intros Hlen. unfold np_add. rewrite Hlen, Nat.eqb_refl.
  intros H. injection H as <-. reflexivity.
Qed.

Lemma importance_frame_rows (feature_cols : list string) (avg : list Q)
    (table : DataFrame) :
  importance_frame feature_cols avg = Ok table ->
  exists rows,
    table = frame_of_importance_rows rows /\
    Permutation rows
      (combine (map Z.of_nat (seq 0 (length feature_cols)))
               (combine feature_cols avg)) /\
    StronglySorted (descending (fun r => snd (snd r))) rows /\
    length rows = length feature_cols /\
    length avg = length feature_cols.
Proof.
  unfold importance_frame.
  destruct (Nat.eqb_spec (length feature_cols) (length avg)) as [Hlen|];
    [|discriminate].
  intros H. injection H as <-. eexists. split; [reflexivity|].
  split; [apply sort_desc_perm|]. split; [apply sort_desc_sorted|].
  split; [|symmetry; exact Hlen].
  rewrite (Permutation_length (sort_desc_perm _ _)).
  rewrite !length_combine, length_map, length_seq. lia.
Qed.

(** In a list of pairs with distinct keys, a key finds its own value,
    in whatever order the pairs are listed. *)
Lemma assoc_str_distinct {A : Type} (k : string) (v : A) (l : list (string * A)) :
  List.NoDup (map fst l) -> In (k, v) l -> assoc_str k l = Some v.
Proof.
  induction l as [|[k' v'] l IH]; simpl; [intros _ []|].
  intros Hnd Hin. inversion Hnd as [|? ? Hout Hrest]; subst.
  destruct (String.eqb_spec k' k) as [->|Hne].
  - destruct Hin as [E | Hin]; [injection E as ->; reflexivity|].
    exfalso. apply Hout. apply in_map_iff. exists (k, v). split; [reflexivity | exact Hin].
  - destruct Hin as [E | Hin]; [injection E as -> _; contradiction|].
    apply IH; assumption.
Qed.

Lemma assoc_str_absent {A : Type} (k : string) (l : list (string * A)) :
  ~ In k (map fst l) -> assoc_str k l = None.
Proof.
  intros Hout. destruct (assoc_str k l) as [v|] eqn:E; [|reflexivity].
  exfalso. apply Hout. apply assoc_str_In in E.
  apply in_map_iff. exists (k, v). split; [reflexivity | exact E].
Qed.

Lemma nth_error_combine_same {A B : Type} (d : B) (l : list A) :
  forall (l' : list B) i a,
    length l' = length l ->
    nth_error l i = Some a -> In (a, nth i l' d) (combine l l').
Proof.
  induction l as [|x l IH]; intros [|y l'] [|i] a Hlen H; simpl in *;
    try discriminate.
  - injection H as <-. left. reflexivity.
  - right. apply IH; [lia | exact H].
Qed.

(** The rows of a trained table, read as the explanation reads them. *)
Lemma trained_importance_rows (feature_cols : list string) (avg : list Q)
    (rows : list (Z * (string * Q))) :
  List.NoDup feature_cols ->
  length avg = length feature_cols ->
  Permutation rows
    (combine (map Z.of_nat (seq 0 (length feature_cols)))
             (combine feature_cols avg)) ->
  (forall i feature_name,
     nth_error feature_cols i = Some feature_name ->
     trained_importance rows feature_name = nth i avg 0%Q) /\
  (forall feature_name,
     ~ In feature_name feature_cols ->
     trained_importance rows feature_name = 0.1%Q).
Proof.
  intros Hnd Hlen Hperm.
  assert (Hpairs : Permutation (map snd rows) (combine feature_cols avg)).
  { etransitivity; [apply Permutation_map, Hperm|].
    rewrite map_snd_combine, length_map, length_seq, length_combine, Hlen,
      Nat.min_id, Nat.min_id.
    rewrite <- (Nat.min_id (length feature_cols)) at 1.
    rewrite <- Hlen at 2. rewrite <- length_combine.
    rewrite firstn_all. apply Permutation_refl. }
  assert (Hkeys : Permutation (map fst (map snd rows)) feature_cols).
  { etransitivity; [apply Permutation_map, Hpairs|].
    rewrite map_fst_combine, Hlen, Nat.min_id, firstn_all. apply Permutation_refl. }
  unfold trained_importance. split.
  - intros i feature_name Hi.
    rewrite (assoc_str_distinct feature_name (nth i avg 0%Q)); [reflexivity| |].
    + eapply Permutation_NoDup; [symmetry; exact Hkeys | exact Hnd].
    + eapply Permutation_in; [symmetry; exact Hpairs|].
      apply nth_error_combine_same; assumption.
  - intros feature_name Hout. rewrite assoc_str_absent; [reflexivity|].
    intros Hin. apply Hout. eapply Permutation_in; [exact Hkeys | exact Hin].
Qed.

Section TableProperties.

Context {sk : Sklearn}.

Lemma fit_and_evaluate_importances (df : DataFrame) (w w1 : World)
    (x : DataFrame * list Q * Q) :
  fit_and_evaluate df w = (Ok x, w1) ->
  exists rf gb ri gi s table,
    model (self w1) = Some (rf, gb) /\
    rf_feature_importances rf = inr ri /\
    gb_feature_importances gb = inr gi /\
    np_add ri gi = Ok s /\
    importance_frame (feature_cols_of df) (halve s) = Ok table /\
    importance_table w1 = Some table.
Proof.
  unfold fit_and_evaluate, bind, lift, logger, get_self, put_self, alloc, ret, call.
  cbn [self heap log]. intros H. run_steps H.
  injection H as <- <-. subst.
  eexists _, _, _, _, _, _. unfold importance_table. cbn [self heap model
    feature_importance with_importance with_performance with_scaler with_model].
  rewrite lookup_total_insert_eq.
  repeat split; try eassumption; reflexivity.
Qed.

(** X20: after a training run the importance table has one row per
    feature column, labelled by the column's position, holding the
    column's name and half the sum of the two classifiers' importances
    for it; the rows are sorted by importance, largest first. *)
Theorem importance_table_after_training (df : DataFrame) (w0 w : World) :
  train_model df w0 = (Ok tt, w) ->
  exists rf gb ri gi s rows,
    model (self w) = Some (rf, gb) /\
    rf_feature_importances rf = inr ri /\
    gb_feature_importances gb = inr gi /\
    np_add ri gi = Ok s /\
    importance_table w = Some (frame_of_importance_rows rows) /\
    Permutation rows
      (combine (map Z.of_nat (seq 0 (length (feature_cols_of df))))
               (combine (feature_cols_of df) (halve s))) /\
    StronglySorted (fun r1 r2 => (snd (snd r2) <= snd (snd r1))%Q) rows /\
    length rows = length (feature_cols_of df) /\
    (length ri = length gi ->
     halve s = map (fun ab => ((fst ab + snd ab) / 2)%Q) (combine ri gi)).
Proof.
  rewrite train_model_eq.
  destruct (fit_and_evaluate df w0) as [[[[X_test pred] roc]|e] w1] eqn:Efit;
    [|discriminate].
  destruct (fit_and_evaluate_importances _ _ _ _ Efit)
    as (rf & gb & ri & gi & s & table & Hm & Hri & Hgi & Hs & Hframe & Htable).
  destruct (importance_frame_rows _ _ _ Hframe)
    as (rows & -> & Hperm & Hsorted & Hlen & _).
  intros H. injection H as <-. rewrite calculate_bias_metrics_eq.
  exists rf, gb, ri, gi, s, rows.
  assert (Hkeep : forall d r,
             model (self (mkWorld (with_bias_metrics (self w1) d) (heap w1) r))
             = Some (rf, gb) /\
             importance_table (mkWorld (with_bias_metrics (self w1) d) (heap w1) r)
             = Some (frame_of_importance_rows rows)).
  { intros d r. split; [exact Hm | exact Htable]. }
  split; [destruct (audit_body df X_test pred); apply Hkeep|].
  split; [exact Hri|]. split; [exact Hgi|]. split; [exact Hs|].
  split; [destruct (audit_body df X_test pred); apply Hkeep|].
  split; [exact Hperm|]. split; [exact Hsorted|]. split; [exact Hlen|].
  intros Hsame. rewrite (np_add_same_length _ _ _ Hsame Hs).
  unfold halve. rewrite map_map. reflexivity.
Qed.

(** X21: asked for the importances after a training run, the engine
    hands out a newly allocated table with the columns 'feature' and
    'importance', one row per feature column of the training data, sorted
    by importance, largest first. *)
Theorem importance_query_after_training (df : DataFrame) (w0 w : World) :
  train_model df w0 = (Ok tt, w) ->
  let r := get_feature_importance w in
  exists l rows,
    fst r = Ok l /\
    heap w !! l = None /\
    heap (snd r) !! l = Some (frame_of_importance_rows rows) /\
    importance_table w = Some (frame_of_importance_rows rows) /\
    df_columns (frame_of_importance_rows rows) = [ "feature"; "importance" ] /\
    df_len (frame_of_importance_rows rows) = length (feature_cols_of df) /\
    StronglySorted (fun r1 r2 => (snd (snd r2) <= snd (snd r1))%Q) rows.
Proof.
  intros Htrain r.
  destruct (trained_importance_table _ _ _ Htrain) as (l0 & rows0 & Hl0 & Hh & Ht).
  rewrite train_model_eq in Htrain.
  destruct (fit_and_evaluate df w0) as [[[[X_test pred] roc]|e] w1] eqn:Efit;
    [|discriminate].
  destruct (fit_and_evaluate_importances _ _ _ _ Efit)
    as (rf & gb & ri & gi & s & table & _ & _ & _ & _ & Hframe & Htable).
  destruct (importance_frame_rows _ _ _ Hframe)
    as (rows & -> & _ & Hsorted & Hlen & _).
  assert (Ht' : importance_table w = Some (frame_of_importance_rows rows)).
  { injection Htrain as <-. rewrite calculate_bias_metrics_eq.
    destruct (audit_body df X_test pred); exact Htable. }
  exists (fresh (dom (heap w))), rows. subst r.
  unfold get_feature_importance, bind, get_self, alloc. rewrite Hl0.
  cbn [fst snd heap].
  assert (Hval : heap w !!! l0 = frame_of_importance_rows rows).
  { unfold importance_table in Ht'. rewrite Hl0 in Ht'. injection Ht' as ->.
    reflexivity. }
  split; [reflexivity|].
  split; [apply not_elem_of_dom, is_fresh|].
  split; [rewrite lookup_insert_eq, Hval; reflexivity|].
  split; [exact Ht'|]. split; [reflexivity|].
  split; [|exact Hsorted].
  unfold df_len, frame_of_importance_rows. cbn [df_index].
  rewrite length_map. exact Hlen.
Qed.

(** X22: two successive queries hand out two different tables with the
    same contents, and the second query leaves the first table as it
    is. *)
Theorem importance_queries_independent (w : World) :
  let r1 := get_feature_importance w in
  let r2 := get_feature_importance (snd r1) in
  exists l1 l2 t,
    fst r1 = Ok l1 /\ fst r2 = Ok l2 /\
    l1 <> l2 /\
    heap (snd r1) !! l1 = Some t /\
    heap (snd r2) !! l1 = Some t /\
    heap (snd r2) !! l2 = Some t /\
    self (snd r2) = self w.
Proof.
  intros r1 r2. subst r1 r2.
  unfold get_feature_importance, bind, get_self, alloc.
  set (l1 := fresh (dom (heap w))).
  destruct (feature_importance (self w)) as [l0|] eqn:E; cbn [fst snd self heap];
    rewrite E; cbn [fst snd self heap].
  - set (t := heap w !!! l0).
    set (h1 := <[l1 := t]> (heap w)).
    assert (Hne : l1 <> fresh (dom h1)).
    { intros Heq. apply (is_fresh (dom h1)). rewrite <- Heq.
      apply elem_of_dom. exists t. subst h1. apply lookup_insert_eq. }
    assert (Ht : h1 !!! l0 = t).
    { subst h1. destruct (decide (l1 = l0)) as [<-|Hn].
      - apply lookup_total_insert_eq.
      - rewrite lookup_total_insert_ne by exact Hn. reflexivity. }
    exists l1, (fresh (dom h1)), t.
    split; [reflexivity|]. split; [reflexivity|]. split; [exact Hne|].
    split; [apply lookup_insert_eq|].
    split; [rewrite lookup_insert_ne by (intros Heq; apply Hne; symmetry; exact Heq);
            apply lookup_insert_eq|].
    split; [rewrite lookup_insert_eq; f_equal; exact Ht | reflexivity].
  - set (h1 := <[l1 := empty_importance_frame]> (heap w)).
    assert (Hne : l1 <> fresh (dom h1)).
    { intros Heq. apply (is_fresh (dom h1)). rewrite <- Heq.
      apply elem_of_dom. exists empty_importance_frame. subst h1.
      apply lookup_insert_eq. }
    exists l1, (fresh (dom h1)), empty_importance_frame.
    split; [reflexivity|]. split; [reflexivity|]. split; [exact Hne|].
    split; [apply lookup_insert_eq|].
    split; [rewrite lookup_insert_ne by (intros Heq; apply Hne; symmetry; exact Heq);
            apply lookup_insert_eq|].
    split; [apply lookup_insert_eq | reflexivity].
Qed.

(** X26: after a training run on data with distinct column names, the
    importance an explanation uses for a feature column of the training
    data is half the sum of the two classifiers' importances at the
    column's position, and its contribution is computed without an error;
    for any other feature name it is the default 0.1. *)
Theorem explanation_importance_after_training (df : DataFrame) (w0 w : World) :
  train_model df w0 = (Ok tt, w) ->
  List.NoDup (df_columns df) ->
  exists rf gb ri gi s,
    model (self w) = Some (rf, gb) /\
    rf_feature_importances rf = inr ri /\
    gb_feature_importances gb = inr gi /\
    np_add ri gi = Ok s /\
    length s = length (feature_cols_of df) /\
    (forall i feature_name value,
       nth_error (feature_cols_of df) i = Some feature_name ->
       importance_of (importance_table w) feature_name = Ok (nth i s 0 / 2)%Q /\
       contribution_of (importance_table w) (feature_name, value)
       = Ok (mkContribution (_humanize_feature_name feature_name) value
               (float_mul (nth i s 0 / 2)%Q
                          (normalized_value_of feature_name value))
               (nth i s 0 / 2)%Q)) /\
    (forall feature_name,
       ~ In feature_name (feature_cols_of df) ->
       importance_of (importance_table w) feature_name = Ok 0.1%Q).
Proof.
  intros Htrain Hnd.
  rewrite train_model_eq in Htrain.
  destruct (fit_and_evaluate df w0) as [[[[X_test pred] roc]|e] w1] eqn:Efit;
    [|discriminate].
  destruct (fit_and_evaluate_importances _ _ _ _ Efit)
    as (rf & gb & ri & gi & s & table & Hm & Hri & Hgi & Hs & Hframe & Htable).
  destruct (importance_frame_rows _ _ _ Hframe)
    as (rows & -> & Hperm & _ & _ & Hlen).
  assert (Hw : model (self w) = Some (rf, gb) /\
               importance_table w = Some (frame_of_importance_rows rows)).
  { injection Htrain as <-. rewrite calculate_bias_metrics_eq.
    destruct (audit_body df X_test pred); split; first [exact Hm | exact Htable]. }
  destruct Hw as [Hm' Ht'].
  assert (Hcols : List.NoDup (feature_cols_of df))
    by (apply List.NoDup_filter, Hnd).
  destruct (trained_importance_rows _ _ _ Hcols Hlen Hperm) as [Hin Hout].
  assert (Hhalf : forall i, (i < length (halve s))%nat ->
                            nth i (halve s) 0%Q = (nth i s 0 / 2)%Q).
  { intros i Hi. rewrite (nth_indep _ 0%Q (0 / 2)%Q Hi).
    unfold halve. apply (map_nth (fun x : Q => (x / 2)%Q)). }
  exists rf, gb, ri, gi, s.
  split; [exact Hm'|]. split; [exact Hri|]. split; [exact Hgi|].
  split; [exact Hs|].
  split; [unfold halve in Hlen; rewrite length_map in Hlen; exact Hlen|].
  rewrite Ht'. split.
  - intros i feature_name value Hi.
    assert (E : importance_of (Some (frame_of_importance_rows rows)) feature_name
                = Ok (nth i s 0 / 2)%Q).
    { rewrite importance_of_rows, (Hin _ _ Hi), Hhalf; [reflexivity|].
      rewrite Hlen. apply nth_error_Some. rewrite Hi. discriminate. }
    split; [exact E|]. unfold contribution_of. rewrite E. reflexivity.
  - intros feature_name Hno. rewrite importance_of_rows, (Hout _ Hno). reflexivity.
Qed.

Lemma fit_and_evaluate_performance (df : DataFrame) (w w1 : World)
    (x : DataFrame * list Q * Q) :
  fit_and_evaluate df w = (Ok x, w1) ->
  exists X y X_train X_test y_train y_test pred roc accuracy precision recall f1,
    x = (X_test, pred, roc) /\
    train_test_split X y = inr (X_train, X_test, y_train, y_test) /\
    roc_auc_score y_test pred = inr roc /\
    model_performance (self w1)
    = [ ("accuracy", accuracy); ("precision", precision); ("recall", recall);
        ("f1_score", f1); ("roc_auc", roc);
        ("training_samples", inject_Z (Z.of_nat (df_len X_train)));
        ("test_samples", inject_Z (Z.of_nat (df_len X_test))) ].
Proof.
  unfold fit_and_evaluate, bind, lift, logger, get_self, put_self, alloc, ret, call.
  cbn [self heap log]. intros H. run_steps H.
  injection H as <- <-. subst.
  do 12 eexists. cbn [self heap log model_performance with_importance
                      with_performance].
  repeat split; try eassumption; reflexivity.
Qed.

(** X27: a training run that returns has logged three records: its
    start, one record of the audit (the disparate impact it reported, or
    the warning with which the neutral report was stored) and its
    completion with the ROC-AUC that the performance report holds.  The
    performance report has its seven entries, the last two being the sizes
    of the two parts of the split; the bias report has its four entries;
    the feature names are as before, and every table that was in the
    store before the run is still there, unchanged. *)
Theorem training_run_record (df : DataFrame) (w0 w : World) :
  train_model df w0 = (Ok tt, w) ->
  exists roc_auc record X y X_train X_test y_train y_test,
    log w = log w0 ++ [ Log_training_started; record;
                        Log_training_completed roc_auc ] /\
    ((exists di, record = Log_bias_metrics di /\ reported K_DI w = Some di) \/
     (exists e, record = Warn_bias_metrics e /\
                bias_metrics (self w) = neutral_report)) /\
    map fst (bias_metrics (self w)) = [ K_DI; K_SPD; K_EOD; K_GROUPS ] /\
    train_test_split X y = inr (X_train, X_test, y_train, y_test) /\
    map fst (model_performance (self w))
    = [ "accuracy"; "precision"; "recall"; "f1_score"; "roc_auc";
        "training_samples"; "test_samples" ] /\
    assoc_str "roc_auc" (model_performance (self w)) = Some roc_auc /\
    assoc_str "training_samples" (model_performance (self w))
    = Some (inject_Z (Z.of_nat (df_len X_train))) /\
    assoc_str "test_samples" (model_performance (self w))
    = Some (inject_Z (Z.of_nat (df_len X_test))) /\
    feature_names (self w) = feature_names (self w0) /\
    (forall l t, heap w0 !! l = Some t -> heap w !! l = Some t).
Proof.
  rewrite train_model_eq.
  destruct (fit_and_evaluate df w0) as [[x|e] w1] eqn:Efit;
    [|destruct e; discriminate].
  destruct (fit_and_evaluate_performance _ _ _ _ Efit)
    as (X & y & X_train & X_test & y_train & y_test & pred & roc & accuracy
        & precision & recall & f1 & -> & Hsplit & _ & Hperf).
  destruct (fit_and_evaluate_inv _ _ _ _ Efit)
    as (X' & y' & X_train' & X_test' & y_train' & y_test' & rf & gb & fitted
        & perf & table & pred' & roc' & avg & _ & _ & _ & _ & _ & _ & _ & _
        & Hself & Hheap & Hlog).
  intros H. injection H as <-. rewrite calculate_bias_metrics_eq.
  assert (Hold : forall l t, heap w0 !! l = Some t -> heap w1 !! l = Some t).
  { intros l t Hl. rewrite Hheap, lookup_insert_ne; [exact Hl|].
    intros <-. pose proof (is_fresh (dom (heap w0))) as Hfresh.
    apply Hfresh, elem_of_dom. exists t. exact Hl. }
  assert (Hnames : feature_names (self w1) = feature_names (self w0))
    by (rewrite Hself; reflexivity).
  destruct (audit_body df X_test pred) as [a|e];
    cbn [snd self heap log with_bias_metrics model_performance bias_metrics
         feature_names];
    [exists roc, (Log_bias_metrics (disparate_impact a))
    |exists roc, (Warn_bias_metrics e)];
    exists X, y, X_train, X_test, y_train, y_test;
    rewrite Hlog, Hperf, <- !app_assoc;
    (split; [reflexivity|]);
    (split; [first [left; eexists; split; reflexivity
                   | right; eexists; split; reflexivity]|]);
    repeat (split; [first [reflexivity | eassumption]|]); exact Hold.
Qed.

End TableProperties.

(* ===================================================================== *)
(** ** Properties of the synthetic dataset                                *)
(* ===================================================================== *)

Lemma clip_bounds (lo hi x : Q) :
  (lo <= hi)%Q -> (lo <= clip lo hi x)%Q /\ (clip lo hi x <= hi)%Q.
Proof.
  intros Hlh. unfold clip.
  destruct (Qlt_bool x lo) eqn:E1.
  - destruct (Qlt_bool hi lo) eqn:E2.
    + apply Qlt_bool_iff in E2. exfalso. exact (Qlt_not_le _ _ E2 Hlh).
    + split; [apply Qle_refl | exact Hlh].
  - apply Qlt_bool_false_iff in E1.
    destruct (Qlt_bool hi x) eqn:E2.
    + split; [exact Hlh | apply Qle_refl].
    + apply Qlt_bool_false_iff in E2. split; assumption.
Qed.

Lemma astype_int_bounds (lo hi : Z) (x : Q) :
  (0 <= lo)%Z -> (inject_Z lo <= x)%Q -> (x <= inject_Z hi)%Q ->
  (lo <= astype_int x <= hi)%Z.
Proof.
  intros Hlo H1 H2. unfold astype_int. destruct x as [num den].
  unfold Qle in H1, H2. simpl in *.
  assert (Hnum : (0 <= num)%Z) by nia.
  rewrite Z.quot_div_nonneg by lia. split.
  - apply Z.div_le_lower_bound; lia.
  - apply Z.div_le_upper_bound; lia.
Qed.

Lemma array_column (n : nat) (entry : nat -> Q) (P : cell -> Prop) :
  (forall i, P (Num (entry i))) ->
  length (map (fun i => Num (entry i)) (seq 0 n)) = n /\
  Forall P (map (fun i => Num (entry i)) (seq 0 n)).
Proof.
  intros H. split; [rewrite length_map, length_seq; reflexivity|].
  apply List.Forall_forall. intros c Hc. apply in_map_iff in Hc.
  destruct Hc as [i [<- _]]. apply H.
Qed.

Section DatasetProperties.

Context {sk : Sklearn}.

Variable draws : RandomDraws.

(** X23: whatever the generator draws, the dataset has the seventeen
    columns of the method in the order they are filled, each with
    [n_samples] entries, and rows labelled 0 to [n_samples - 1]; with at
    least one sample, the approval rate it logs lies in [0, 1]. *)
Theorem generated_dataset_shape (n_samples : nat) :
  let df := fst (create_enhanced_dataset draws n_samples) in
  df_columns df = generated_columns /\
  df_len df = n_samples /\
  df_index df = map Z.of_nat (seq 0 n_samples) /\
  (forall name, In name generated_columns ->
     exists col, df_getitem df name = Ok col /\ length col = n_samples) /\
  (forall name, ~ In name generated_columns ->
     df_getitem df name = Raise (KeyError (Str name))) /\
  ((0 < n_samples)%nat ->
   exists rate,
     snd (create_enhanced_dataset draws n_samples)
     = [ Creating_dataset n_samples; Dataset_created n_samples rate ] /\
     (0 <= rate)%Q /\ (rate <= 1)%Q).
Proof.
  cbn [create_enhanced_dataset fst snd].
  assert (Hlen : df_len (enhanced_frame draws n_samples) = n_samples).
  { unfold df_len, enhanced_frame. cbn [df_index].
    rewrite length_map, length_seq. reflexivity. }
  split; [reflexivity|]. split; [exact Hlen|]. split; [reflexivity|].
  split; [|split].
  - intros name Hin. simpl in Hin.
    repeat (destruct Hin as [<- | Hin];
            [eexists; split; [reflexivity|];
             unfold array; rewrite length_map, length_seq; reflexivity|]).
    destruct Hin.
  - intros name Hout. unfold df_getitem.
    destruct (assoc_str name (df_data (enhanced_frame draws n_samples))) as [c|] eqn:E;
      [|reflexivity].
    exfalso. apply Hout. apply assoc_str_In in E.
    change generated_columns
      with (map fst (df_data (enhanced_frame draws n_samples))).
    apply in_map_iff. exists (name, c). split; [reflexivity | exact E].
  - intros _. eexists. rewrite Hlen. split; [reflexivity|].
    apply np_mean_bounds. apply List.Forall_forall. intros z Hz.
    apply in_map_iff in Hz. destruct Hz as [i [<- _]]. unfold approved_at, bit.
    destruct (Qlt_bool 0.6 (approval_score_at draws i)); [right | left]; reflexivity.
Qed.

(** X24: whatever the generator draws, every credit score of the
    dataset lies in [300, 850], every monthly income in [1000, 15000],
    every business revenue in [0, 5000], every platform rating in [1, 5],
    every financial engagement score in [0, 1], every age is a whole
    number in [18, 75], and every approval is 0 or 1. *)
Theorem generated_values_in_range (n_samples : nat) :
  let df := fst (create_enhanced_dataset draws n_samples) in
  column_all df "credit_score" n_samples (number_within 300 850) /\
  column_all df "monthly_income" n_samples (number_within 1000 15000) /\
  column_all df "business_revenue" n_samples (number_within 0 5000) /\
  column_all df "platform_ratings" n_samples (number_within 1 5) /\
  column_all df "financial_engagement_score" n_samples (number_within 0 1) /\
  column_all df "age" n_samples
    (fun c => exists z, c = Num (inject_Z z) /\ (18 <= z <= 75)%Z) /\
  column_all df "approved" n_samples (fun c => c = Num 0 \/ c = Num 1).
Proof.
  cbn [create_enhanced_dataset fst].
  assert (Hclip : forall lo hi x, (lo <= hi)%Q -> number_within lo hi (Num (clip lo hi x))).
  { intros lo hi x H. eexists. split; [reflexivity | apply clip_bounds, H]. }
  repeat split.
  - eexists. split; [reflexivity|]. apply array_column.
    intros i. apply Hclip. discriminate.
  - eexists. split; [reflexivity|]. apply array_column.
    intros i. apply Hclip. discriminate.
  - eexists. split; [reflexivity|]. apply array_column.
    intros i. apply Hclip. discriminate.
  - eexists. split; [reflexivity|]. apply array_column.
    intros i. apply Hclip. discriminate.
  - eexists. split; [reflexivity|]. apply array_column.
    intros i. eexists. split; [reflexivity|].
    unfold financial_engagement_score_at, clipZ.
    set (z := Z.min (Z.max (Z.of_nat (poisson_education draws i)) 0) 10).
    assert (Hz : (0 <= z <= 10)%Z) by (subst z; lia).
    split.
    + apply Qle_shift_div_l; [reflexivity|].
      rewrite Qmult_0_l. change 0%Q with (inject_Z 0). rewrite <- Zle_Qle. lia.
    + apply Qle_shift_div_r; [reflexivity|].
      rewrite Qmult_1_l. change 10%Q with (inject_Z 10). rewrite <- Zle_Qle. lia.
  - eexists. split; [reflexivity|]. apply array_column.
    intros i. eexists. split; [reflexivity|]. unfold age_at.
    destruct (clip_bounds 18 75 (normal_age draws i)) as [H1 H2]; [discriminate|].
    apply astype_int_bounds; [lia | exact H1 | exact H2].
  - eexists. split; [reflexivity|]. apply array_column.
    intros i. unfold approved_at.
    destruct (Qlt_bool 0.6 (approval_score_at draws i)); [right | left]; reflexivity.
Qed.

(** X25: the dataset has thirteen feature columns, three of them
    ('business_revenue', 'rent_payments_on_time',
    'utility_payments_on_time') not among the engine's ten feature names.
    A training run on it selects a thirteen-column frame for the splitter,
    while the frame that inference builds for a vector never has more
    than ten columns and never these thirteen. *)
Theorem generated_features_mismatch (n_samples : nat) :
  let df := fst (create_enhanced_dataset draws n_samples) in
  feature_cols_of df
    = [ "credit_score"; "monthly_income"; "business_revenue";
        "total_alternative_income"; "rent_payments_on_time";
        "utility_payments_on_time"; "payment_reliability_score";
        "cash_flow_consistency"; "platform_ratings"; "community_trust_score";
        "financial_engagement_score"; "income_diversification";
        "business_health" ] /\
  (forall name, In name schema -> In name (feature_cols_of df)) /\
  (forall features frame,
     frame_of_row features (firstn (length features) schema) = Ok frame ->
     (length (df_columns frame) <= 10)%nat /\
     df_columns frame <> feature_cols_of df) /\
  (forall (w w' : World),
     feature_names (self w) = schema ->
     train_model df w = (Ok tt, w') ->
     feature_names (self w') = schema /\
     exists X y X_train X_test y_train y_test,
       length (df_columns X) = 13%nat /\
       train_test_split X y = inr (X_train, X_test, y_train, y_test) /\
       scaler_fit (scaler (self w)) X_train = inr (scaler (self w'))).
Proof.
  cbn [create_enhanced_dataset fst].
  assert (Hcols : feature_cols_of (enhanced_frame draws n_samples)
                  = [ "credit_score"; "monthly_income"; "business_revenue";
                      "total_alternative_income"; "rent_payments_on_time";
                      "utility_payments_on_time"; "payment_reliability_score";
                      "cash_flow_consistency"; "platform_ratings";
                      "community_trust_score"; "financial_engagement_score";
                      "income_diversification"; "business_health" ])
    by reflexivity.
  split; [exact Hcols|]. split; [|split].
  - intros name Hin. rewrite Hcols. simpl in Hin |- *. tauto.
  - intros features frame. unfold frame_of_row.
    set (names := firstn (length features) schema).
    destruct (length names =? length features)%nat eqn:E; [|discriminate].
    apply Nat.eqb_eq in E. intros H. injection H as <-.
    assert (Hnames : df_columns
                       (mkFrame [0%Z] (combine names (map (fun v => [Num v]) features)))
                     = names).
    { unfold df_columns. cbn [df_data].
      rewrite map_fst_combine, length_map, <- E, Nat.min_id. apply firstn_all. }
    rewrite Hnames.
    assert (Hle : (length names <= 10)%nat).
    { subst names. rewrite length_firstn. simpl length. lia. }
    split; [exact Hle|]. intros Heq. rewrite Hcols in Heq.
    apply (f_equal (@length string)) in Heq. simpl length in Heq at 2. lia.
  - intros w w' Hschema Htrain.
    destruct (train_model_inv _ _ _ Htrain)
      as (X0 & y0 & X_train0 & X_test0 & y_train0 & y_test0 & rf & gb & fitted
          & perf & table & pred & avg & _ & _ & _ & _ & _ & Hself & _).
    split; [rewrite Hself; exact Hschema|].
    destruct (train_model_features _ _ _ Htrain)
      as (X & y & X_train & X_test & y_train & y_test & HX & _ & Hsplit & Hsc).
    exists X, y, X_train, X_test, y_train, y_test.
    split; [rewrite HX, Hcols; reflexivity|]. split; assumption.
Qed.

End DatasetProperties.

(* ===================================================================== *)
(** ** The further properties on the sample data                          *)
(* ===================================================================== *)

Import MoreSamples.

(** X1, witness: two gender groups with rates 1 and 0 against an overall
    rate of one half: the parity difference is one half. *)
Lemma statistical_parity_reported_witness :
  exists a td gender_col,
    audit_body two_genders held_out one_group_positive = Ok a /\
    df_loc two_genders (df_index held_out) = Ok td /\
    df_getitem td "gender" = Ok gender_col /\
    parity_gaps gender_col (binarize one_group_positive) <> [] /\
    exists spd,
      reported K_SPD
        (snd (_calculate_bias_metrics (sk := Collaborators.checked)
                two_genders held_out one_group_positive new_world)) = Some spd /\
      is_max spd (parity_gaps gender_col (binarize one_group_positive)) /\
      (spd == 1 # 2)%Q.
Proof.
  eexists _, _, _.
  split; [vm_compute; reflexivity|].
  split; [vm_compute; reflexivity|].
  split; [vm_compute; reflexivity|].
  assert (Hne : parity_gaps
                  (map Num (repeat 1%Q 11 ++ repeat 2%Q 11))
                  (binarize one_group_positive) <> [])
    by (vm_compute; discriminate).
  split; [exact Hne|].
  destruct (statistical_parity_reported (sk := Collaborators.checked)
              two_genders held_out one_group_positive new_world _ _ _
              ltac:(vm_compute; reflexivity) ltac:(vm_compute; reflexivity)
              ltac:(vm_compute; reflexivity))
    as (spd & Hspd & _ & Hmax & _).
  exists spd. split; [exact Hspd|]. split; [exact (Hmax Hne)|].
  vm_compute in Hspd. injection Hspd as <-. reflexivity.
Defined.

(** X2, witness: two race values with 11 records each. *)
Lemma groups_analyzed_reported_witness :
  exists a td col,
    audit_body two_groups held_out one_group_positive = Ok a /\
    df_loc two_groups (df_index held_out) = Ok td /\
    df_getitem td "race" = Ok col /\
    reported K_GROUPS
      (snd (_calculate_bias_metrics (sk := Collaborators.checked)
              two_groups held_out one_group_positive new_world))
    = Some (inject_Z (Z.of_nat (length (qualifying_groups col)))) /\
    length (qualifying_groups col) = 2%nat.
Proof.
  eexists _, _, _.
  split; [vm_compute; reflexivity|].
  split; [vm_compute; reflexivity|].
  split; [vm_compute; reflexivity|].
  split; [|vm_compute; reflexivity].
  eapply (proj1 (groups_analyzed_reported (sk := Collaborators.checked)
                   two_groups held_out one_group_positive new_world _ _ _
                   ltac:(vm_compute; reflexivity) ltac:(vm_compute; reflexivity)
                   ltac:(vm_compute; reflexivity))).
Defined.

(** X3, witness: of 11 members, 11 are above one half. *)
Lemma group_rate_counts_witness :
  let col := map Num (repeat 1%Q 11 ++ repeat 2%Q 11) in
  length one_group_positive = length col /\
  positives col one_group_positive (Num 1) = 11%nat /\
  group_size col (Num 1) = 11%nat /\
  group_rate col (binarize one_group_positive) (Num 1)
  = (inject_Z (Z.of_nat (positives col one_group_positive (Num 1)))
     / inject_Z (Z.of_nat (group_size col (Num 1))))%Q.
Proof.
  cbv zeta.
  assert (Hlen : length one_group_positive
                 = length (map Num (repeat 1%Q 11 ++ repeat 2%Q 11)))
    by reflexivity.
  split; [exact Hlen|]. split; [vm_compute; reflexivity|].
  split; [vm_compute; reflexivity|].
  exact (proj1 (group_rate_counts _ _ (Num 1) Hlen)).
Defined.

(** X4, witness: two groups with the same rate 0: the ratio is 1. *)
Lemma disparate_impact_one_iff_equal_rates_witness :
  exists a td col,
    audit_body two_groups held_out all_negative = Ok a /\
    df_loc two_groups (df_index held_out) = Ok td /\
    df_getitem td "race" = Ok col /\
    exists di,
      reported K_DI
        (snd (_calculate_bias_metrics (sk := Collaborators.checked)
                two_groups held_out all_negative new_world)) = Some di /\
      ((forall r1 r2,
          In r1 (map (group_rate col (binarize all_negative)) (qualifying_groups col)) ->
          In r2 (map (group_rate col (binarize all_negative)) (qualifying_groups col)) ->
          (r1 == r2)%Q) <-> (di == 1)%Q) /\
      (di == 1)%Q.
Proof.
  eexists _, _, _.
  split; [vm_compute; reflexivity|].
  split; [vm_compute; reflexivity|].
  split; [vm_compute; reflexivity|].
  destruct (disparate_impact_one_iff_equal_rates (sk := Collaborators.checked)
              two_groups held_out all_negative new_world _ _ _
              ltac:(vm_compute; reflexivity) ltac:(vm_compute; reflexivity)
              ltac:(vm_compute; reflexivity))
    as (di & Hdi & Hiff).
  exists di. split; [exact Hdi|]. split; [exact Hiff|].
  vm_compute in Hdi. injection Hdi as <-. reflexivity.
Defined.

(** X6, witness: one probability for 22 held-out records. *)
Lemma audit_length_mismatch_witness :
  exists td col msg,
    df_loc two_groups (df_index held_out) = Ok td /\
    df_getitem td "race" = Ok col /\
    length [0.9%Q] <> length col /\
    qualifying_groups col <> [] /\
    audit_body two_groups held_out [0.9%Q] = Raise (IndexError msg) /\
    bias_metrics
      (self (snd (_calculate_bias_metrics (sk := Collaborators.checked)
                    two_groups held_out [0.9%Q] new_world)))
    = neutral_report.
Proof.
  assert (Htd : df_loc two_groups (df_index held_out) = Ok two_groups)
    by (vm_compute; reflexivity).
  assert (Hcol : df_getitem two_groups "race"
                 = Ok (map Num (repeat 1%Q 11 ++ repeat 2%Q 11)))
    by (vm_compute; reflexivity).
  assert (Hlen : length [0.9%Q] <> length (map Num (repeat 1%Q 11 ++ repeat 2%Q 11)))
    by (vm_compute; discriminate).
  assert (Hq : qualifying_groups (map Num (repeat 1%Q 11 ++ repeat 2%Q 11)) <> [])
    by (vm_compute; discriminate).
  destruct (audit_length_mismatch (sk := Collaborators.checked)
              two_groups held_out [0.9%Q] new_world _ _ Htd Hcol Hlen Hq)
    as (msg & Hbody & _ & Hneutral & _).
  exists two_groups, (map Num (repeat 1%Q 11 ++ repeat 2%Q 11)), msg.
  repeat split; assumption.
Defined.

(** X7, witness: a held-out record labelled 0 and no demographic row. *)
Lemma audit_missing_label_witness :
  (exists l, In l (df_index single_held_out) /\ ~ In l (df_index no_columns)) /\
  audit_body no_columns single_held_out [0.9%Q]
    = Raise (KeyError (Num (inject_Z 0))) /\
  bias_metrics
    (self (snd (_calculate_bias_metrics (sk := Collaborators.checked)
                  no_columns single_held_out [0.9%Q] new_world)))
  = neutral_report.
Proof.
  assert (Hmiss : exists l, In l (df_index single_held_out)
                            /\ ~ In l (df_index no_columns))
    by (exists 0%Z; split; [left; reflexivity | intros []]).
  split; [exact Hmiss|].
  destruct (audit_missing_label (sk := Collaborators.checked)
              no_columns single_held_out [0.9%Q] new_world Hmiss)
    as (l & _ & _ & _ & _ & Hneutral & _).
  split; [vm_compute; reflexivity | exact Hneutral].
Defined.

(** X8, witness: eleven values for the ten names of the sample engine. *)
Lemma too_long_vector_raises_witness :
  model (self trained) = Some (Some 10%nat, Some 10%nat) /\
  (length (feature_names (self trained)) < length long_vector)%nat /\
  predict_probability long_vector trained
    = Raise (ValueError "columns passed do not match the passed data").
Proof.
  assert (Hm : model (self trained) = Some (Some 10%nat, Some 10%nat))
    by (vm_compute; reflexivity).
  assert (Hlen : (length (feature_names (self trained)) < length long_vector)%nat)
    by (vm_compute; lia).
  split; [exact Hm|]. split; [exact Hlen|].
  exact (proj1 (too_long_vector_raises trained _ long_vector Hm Hlen)).
Defined.

(** X9, witness: 0.8 lies between 0.7 and 0.9. *)
Lemma fused_probability_between_witness :
  predict_probability full_vector trained = Ok (160 # 200)%Q /\
  exists a b, (b <= a)%Q /\ (b <= 160 # 200)%Q /\ (160 # 200 <= a)%Q.
Proof.
  assert (Hp : predict_probability full_vector trained = Ok (160 # 200)%Q)
    by (vm_compute; reflexivity).
  split; [exact Hp|].
  destruct (fused_probability_between (sk := Collaborators.checked) _ _ _ Hp)
    as (rf & gb & xs & a & b & Hm & Hs & Ha & Hb & _ & Hba & _).
  exists a, b.
  assert (Hle : (b <= a)%Q).
  { vm_compute in Hm. injection Hm as <- <-.
    vm_compute in Hs. injection Hs as <-.
    vm_compute in Ha. injection Ha as <-.
    vm_compute in Hb. injection Hb as <-. discriminate. }
  split; [exact Hle | exact (Hba Hle)].
Defined.

(** X10 to X13, witnesses: the explanation of the full sample vector. *)
Lemma explanation_scores_complement_witness :
  exists e,
    generate_explanation full_vector trained = Ok e /\
    predict_probability full_vector trained = Ok (approval_probability e) /\
    (risk_score e + approval_probability e == 1)%Q.
Proof.
  destruct (generate_explanation full_vector trained) as [e|x] eqn:He;
    [|vm_compute in He; discriminate He].
  exists e. split; [reflexivity|].
  destruct (explanation_scores_complement (sk := Collaborators.checked) _ _ _ He)
    as (Hp & _ & Hsum).
  split; assumption.
Defined.

Lemma key_factor_count_witness :
  exists e,
    generate_explanation short_vector trained_narrow = Ok e /\
    length (key_factors e) = 3%nat.
Proof.
  destruct (generate_explanation short_vector trained_narrow) as [e|x] eqn:He;
    [|vm_compute in He; discriminate He].
  exists e. split; [reflexivity|].
  rewrite (key_factor_count (sk := Collaborators.checked) _ _ _ He). reflexivity.
Defined.

Lemma key_factors_are_top_witness :
  exists e fc rest,
    generate_explanation full_vector trained = Ok e /\
    feature_contributions full_vector trained = Ok fc /\
    Permutation fc (key_factors e ++ rest) /\
    length rest = 5%nat /\
    without_nan c_impact fc /\
    forall k r, In k (key_factors e) -> In r rest ->
                float_le (c_impact r) (c_impact k).
Proof.
  destruct (generate_explanation full_vector trained) as [e|x] eqn:He;
    [|vm_compute in He; discriminate He].
  destruct (key_factors_are_top (sk := Collaborators.checked) _ _ _ He)
    as (fc & rest & Hfc & Hperm & Htop).
  pose proof (positive_incomes_without_nan _ _ _ Hfc full_vector_incomes) as Hn.
  exists e, fc, rest. split; [reflexivity|]. split; [exact Hfc|].
  split; [exact Hperm|]. split; [|split; [exact Hn | exact (Htop Hn)]].
  pose proof (Permutation_length Hperm) as Hlen. rewrite length_app in Hlen.
  vm_compute in Hfc. injection Hfc as <-.
  vm_compute in He. injection He as <-. simpl in Hlen. lia.
Defined.



(** X15, witness: 0.3 and 0.6. *)
Lemma decision_band_monotone_witness :
  (0.3 <= 0.6)%Q /\
  (band_rank (decision_band 0.3) <= band_rank (decision_band 0.6))%nat.
Proof.
  assert (H : (0.3 <= 0.6)%Q) by discriminate.
  split; [exact H | exact (proj1 (decision_band_monotone _ _ H))].
Defined.

(** X16, witness: a name outside the table. *)
Lemma humanized_names_witness :
  ascii_text "debt_to_income" /\
  assoc_str "debt_to_income" name_mapping = None /\
  _humanize_feature_name "debt_to_income" = "Debt To Income" /\
  String.length (_humanize_feature_name "debt_to_income")
  = String.length "debt_to_income".
Proof.
  assert (Ha : ascii_text "debt_to_income")
    by (unfold ascii_text; cbn [list_ascii_of_string];
        repeat constructor; vm_compute; lia).
  assert (H : assoc_str "debt_to_income" name_mapping = None) by reflexivity.
  split; [exact Ha|]. split; [exact H|]. split; [reflexivity|].
  exact (proj1 (proj2 (humanized_names "debt_to_income")) Ha H).
Defined.


(** X18, witness: data without any column. *)
Lemma train_without_target_witness :
  ~ In "approved" (df_columns no_columns) /\
  train_model (sk := Collaborators.checked) no_columns new_world
  = (Raise (KeyError (Str "approved")),
     mkWorld (self (new_world (sk := Collaborators.checked)))
             (heap (new_world (sk := Collaborators.checked)))
             (log (new_world (sk := Collaborators.checked))
              ++ [Log_training_started])).
Proof.
  assert (H : ~ In "approved" (df_columns no_columns)) by (intros []).
  split; [exact H|].
  exact (train_without_target (sk := Collaborators.checked) no_columns new_world H).
Defined.

(** X19, witness: the ROC-AUC computation raises; the classifiers and the
    scaler are stored, the performance report, the bias report and the
    importance table are not, and a prediction is returned. *)
Lemma failed_training_state_witness :
  train_model (sk := OneClassHeldOut.raising) applicants new_world
  = (Raise (LibraryError "Only one class present in y_true"), half_trained) /\
  late_fields_kept (new_world (sk := OneClassHeldOut.raising)) half_trained /\
  model (self half_trained) = Some (Some 10%nat, Some 10%nat) /\
  feature_importance (self half_trained) = None /\
  predict_probability full_vector half_trained = Ok (160 # 200)%Q /\
  predict_probability full_vector half_trained <> Raise NotTrained.
Proof.
  assert (Hrun : train_model (sk := OneClassHeldOut.raising) applicants new_world
                 = (Raise (LibraryError "Only one class present in y_true"),
                    half_trained)) by (vm_compute; reflexivity).
  destruct (failed_training_state (sk := OneClassHeldOut.raising) _ _ _ _ Hrun)
    as (Hkept & _ & Hcase).
  split; [exact Hrun|]. split; [exact Hkept|].
  split; [vm_compute; reflexivity|]. split; [vm_compute; reflexivity|].
  split; [vm_compute; reflexivity|].
  destruct Hcase as [Hsame | (rf & gb & _ & Hguard)]; [|apply Hguard].
  exfalso. apply (f_equal model) in Hsame. vm_compute in Hsame. discriminate Hsame.
Defined.

(** X20 and X21, witnesses: the table of the sample engine. *)
Lemma importance_table_after_training_witness :
  train_model (sk := Collaborators.checked) applicants new_world = (Ok tt, trained) /\
  exists rows,
    importance_table trained = Some (frame_of_importance_rows rows) /\
    length rows = 10%nat /\
    StronglySorted (fun r1 r2 => (snd (snd r2) <= snd (snd r1))%Q) rows.
Proof.
  split; [exact trained_run|].
  destruct (importance_table_after_training (sk := Collaborators.checked) _ _ _
              trained_run)
    as (rf & gb & ri & gi & s & rows & _ & _ & _ & _ & Ht & _ & Hsorted & Hlen & _).
  exists rows. split; [exact Ht|]. split; [exact Hlen | exact Hsorted].
Defined.

Lemma importance_query_after_training_witness :
  train_model (sk := Collaborators.checked) applicants new_world = (Ok tt, trained) /\
  exists l rows,
    fst (get_feature_importance trained) = Ok l /\
    heap trained !! l = None /\
    heap (snd (get_feature_importance trained)) !! l
    = Some (frame_of_importance_rows rows) /\
    df_len (frame_of_importance_rows rows) = 10%nat.
Proof.
  split; [exact trained_run|].
  pose proof (importance_query_after_training (sk := Collaborators.checked) _ _ _
                trained_run) as T.
  cbv zeta in T.
  destruct T as (l & rows & Hl & Hfresh & Hcopy & _ & _ & Hlen & _).
  exists l, rows. repeat split; assumption.
Defined.

(** X26, witness: the sample engine reads the importance of the first
    training column from position 0, and the default for 'age'. *)
Lemma explanation_importance_after_training_witness :
  train_model (sk := Collaborators.checked) applicants new_world = (Ok tt, trained) /\
  List.NoDup (df_columns applicants) /\
  exists s,
    length s = 10%nat /\
    importance_of (importance_table trained) "credit_score" = Ok (nth 0 s 0 / 2)%Q /\
    importance_of (importance_table trained) "age" = Ok 0.1%Q.
Proof.
  assert (Hnd : List.NoDup (df_columns applicants)).
  { vm_compute. repeat constructor; cbn; intuition discriminate. }
  split; [exact trained_run|]. split; [exact Hnd|].
  destruct (explanation_importance_after_training (sk := Collaborators.checked) _ _ _
              trained_run Hnd)
    as (rf & gb & ri & gi & s & _ & _ & _ & _ & Hlen & Hin & Hout).
  exists s. split; [exact Hlen|]. split.
  - exact (proj1 (Hin 0%nat "credit_score" 0%Q eq_refl)).
  - apply Hout. vm_compute. intuition discriminate.
Defined.

(** X27, witness: the three records of the sample training run. *)
Lemma training_run_record_witness :
  train_model (sk := Collaborators.checked) applicants new_world = (Ok tt, trained) /\
  exists roc_auc record,
    log trained = log (new_world (sk := Collaborators.checked))
                  ++ [ Log_training_started; record;
                       Log_training_completed roc_auc ] /\
    assoc_str "roc_auc" (model_performance (self trained)) = Some roc_auc.
Proof.
  split; [exact trained_run|].
  destruct (training_run_record (sk := Collaborators.checked) _ _ _ trained_run)
    as (roc_auc & record & X & y & X_train & X_test & y_train & y_test
        & Hlog & _ & _ & _ & _ & Hroc & _).
  exists roc_auc, record. split; [exact Hlog | exact Hroc].
Defined.

(** X23, witness: ten samples, all approved. *)
Lemma generated_dataset_shape_witness :
  (0 < 10)%nat /\
  exists rate,
    snd (create_enhanced_dataset (sk := Collaborators.checked) constant_draws 10)
    = [ Creating_dataset 10; Dataset_created 10 rate ] /\
    (0 <= rate)%Q /\ (rate <= 1)%Q /\ (rate == 1)%Q.
Proof.
  split; [lia|].
  destruct (generated_dataset_shape (sk := Collaborators.checked) constant_draws 10)
    as (_ & _ & _ & _ & _ & Hlog).
  destruct (Hlog ltac:(lia)) as (rate & E & H0 & H1).
  exists rate. split; [exact E|]. split; [exact H0|]. split; [exact H1|].
  vm_compute in E. injection E as <-. reflexivity.
Defined.

(** X25, witness: the sample engine trained on a generated dataset: its
    scaler was fitted on thirteen columns, and a vector of ten values is
    rejected. *)
Lemma generated_features_mismatch_witness :
  feature_names (self (new_world (sk := Collaborators.checked))) = schema /\
  train_model (sk := Collaborators.checked) generated new_world
  = (Ok tt, trained_on_generated) /\
  (exists X y X_train X_test y_train y_test,
     length (df_columns X) = 13%nat /\
     @train_test_split Collaborators.checked X y
     = inr (X_train, X_test, y_train, y_test) /\
     @scaler_fit Collaborators.checked
       (scaler (self (new_world (sk := Collaborators.checked)))) X_train
     = inr (scaler (self trained_on_generated))) /\
  exists msg,
    predict_probability full_vector trained_on_generated = Raise (LibraryError msg).
Proof.
  assert (Hschema : feature_names (self (new_world (sk := Collaborators.checked)))
                    = schema) by reflexivity.
  assert (Hrun : train_model (sk := Collaborators.checked) generated new_world
                 = (Ok tt, trained_on_generated)) by (vm_compute; reflexivity).
  split; [exact Hschema|]. split; [exact Hrun|].
  pose proof (generated_features_mismatch (sk := Collaborators.checked)
                constant_draws 10) as T.
  cbv zeta in T. destruct T as (_ & _ & _ & Htrain).
  split; [exact (proj2 (Htrain _ _ Hschema Hrun))|].
  eexists. vm_compute. reflexivity.
Defined.
